(** * Voice recorder: the analysis pipeline and its web client

    A shallow embedding of the voice-recorder repository:

    - [DataTransform]: [web/src/utils/dataTransform.ts] and the [formatTime]
      helper of [web/src/utils/index.ts];
    - [Api]: the client of [web/src/services/api.ts] and the wire types it
      shares with [web/src/types/index.ts];
    - [Ollama]: [OllamaService::analyze_text] as written in
      [docs/REFACTOR_PLAN.md], with the language detector;
    - [Capture]: the audio capture controller;
    - [Repository]: the relational schema of [migrations/001_initial_schema.sql]
      and the repository operations over it.

    JavaScript values are modelled as they arrive from JSON: an optional
    property is an [option], a string is a [string], an array is a [list]. *)

From stdpp Require Import base option list gmap strings.
From Stdlib Require Import ZArith NArith QArith Lia DecimalString.
From Stdlib Require DecimalPos DecimalZ.
From Stdlib Require Import Sorted Permutation.

Local Open Scope Z_scope.
Set Warnings "-register-all".

(** ** Rust's [Result] *)

Inductive result (T E : Type) :=
| Ok (value : T)
| Err (error : E).
Arguments Ok {T E} _.
Arguments Err {T E} _.

(** ** JavaScript helpers shared by the client modules *)

Module JS.

(** A string operand of [||], [?:] and [!] is falsy when it is [undefined]
    or the empty string. *)
Definition truthy (v : option string) : bool :=
  match v with
  | Some s => negb (String.eqb s "")
  | None => false
  end.

(** [a || b] on optional strings. *)
Definition or (a b : option string) : option string :=
  if truthy a then a else b.

(** [a || "literal"], whose value is always a string. *)
Definition or_default (a : option string) (d : string) : string :=
  match a with
  | Some s => if String.eqb s "" then d else s
  | None => d
  end.

(** Numbers.  A JavaScript number is a double; the numbers of this client
    (milliseconds, seconds, clock readings) are modelled by the integers
    they are.  Within [Number.MAX_SAFE_INTEGER] in absolute value a whole
    number is represented exactly, [Math.floor] of its quotient by 60 or by
    1000 is the floor quotient of the integers (the quotient is rounded by
    less than its distance to the next whole number), [%] is exact, and
    [toString] prints decimal digits.  Beyond it the doubles round, and
    from [1e21] on [toString] prints an exponent: statements about what is
    displayed are made within the bound. *)
Definition MAX_SAFE_INTEGER : Z := 9007199254740991.

(** [Number.isSafeInteger] on a whole number. *)
Definition isSafeInteger (z : Z) : bool := Z.abs z <=? MAX_SAFE_INTEGER.

(** [Number.prototype.toString] on an integer (below [1e21] in absolute
    value). *)
Definition toString (z : Z) : string := NilZero.string_of_int (Z.to_int z).

(** [String.prototype.padStart(n, "0")]. *)
Fixpoint zeros (n : nat) : string :=
  match n with
  | O => ""
  | S k => "0" +:+ zeros k
  end.

Definition padStart0 (n : nat) (s : string) : string :=
  zeros (n - String.length s) +:+ s.

Lemma truthy_Some (s : string) : truthy (Some s) = true <-> s <> "".
Proof.
  unfold truthy. destruct (String.eqb_spec s ""); simpl; split; intros; congruence.
Qed.

Lemma or_default_truthy (a : option string) (d s : string) :
  a = Some s -> s <> "" -> or_default a d = s.
Proof.
  intros -> Hs. unfold or_default.
  destruct (String.eqb_spec s ""); congruence.
Qed.

Lemma or_default_falsy (a : option string) (d : string) :
  truthy a = false -> or_default a d = d.
Proof.
  destruct a as [s|]; simpl; [|reflexivity].
  destruct (String.eqb s ""); simpl; congruence.
Qed.

End JS.

(** ** [web/src/utils/dataTransform.ts] *)

Module DataTransform.

(** The backend API types of [web/src/types/index.ts].  [priority] and
    [note_type] are kept as the strings the JSON carries: the [switch]
    statements below have a [default] branch for values outside the
    declared unions. *)
Record Task := {
  task_title : string;
  task_description : option string;
  task_priority : string;
  task_due_date : option string
}.

Record StructuredNote := {
  sn_title : string;
  sn_content : string;
  sn_tags : list string;
  sn_note_type : string;
  sn_updated_at : string;
  sn_created_at : string
}.

Record AnalysisResult := {
  ar_title : string;
  ar_ideas : list string;
  ar_tasks : list Task;
  ar_structured_notes : list StructuredNote;
  ar_summary : string
}.

Record VoiceSession := {
  vs_id : string;
  vs_timestamp : string;
  vs_audio_file_path : string;
  vs_transcript : option string;
  vs_analysis : option AnalysisResult;
  vs_title : string;
  vs_duration_ms : Z;
  vs_audio_url : option string
}.

Record NoteSection := {
  section : string;
  content : list string
}.

Record Note := {
  note_id : string;
  note_title : string;
  note_content : string;
  note_tag : string;
  note_date : string;
  note_duration : string;
  note_image : string;
  note_audioUrl : option string;
  note_transcript : option string;
  note_notes : option (list NoteSection)
}.

(** [formatTime] of [web/src/utils/index.ts], on a whole number of seconds
    that is a safe integer ([JS.isSafeInteger]): [Math.floor(t / 60)] is the
    floor quotient, [t % 60] the truncated remainder. *)
Definition formatTime (timeInSeconds : Z) : string :=
  let minutes := timeInSeconds / 60 in
  let seconds := Z.rem timeInSeconds 60 in
  JS.toString minutes +:+ ":" +:+ JS.padStart0 2 (JS.toString seconds).

Definition image_default : string :=
  "https://images.unsplash.com/photo-1589254065878-42c9da997008?w=800&q=80".
Definition image_meeting : string :=
  "https://images.unsplash.com/photo-1517180102446-f3ece451e9d8?w=800&q=80".
Definition image_brainstorm : string :=
  "https://images.unsplash.com/photo-1505740420928-5e560c06d30e?w=800&q=80".
Definition image_decision : string :=
  "https://images.unsplash.com/photo-1488190211105-8b0e65b80b4e?w=800&q=80".

(** The [switch (noteType)] of [getImageForNoteType]. *)
Definition imageOfNoteType (noteType : string) : string :=
  if String.eqb noteType "Meeting" then image_meeting
  else if String.eqb noteType "Brainstorm" then image_brainstorm
  else if String.eqb noteType "Decision" then image_decision
  else if String.eqb noteType "Action" then image_meeting
  else if String.eqb noteType "Reference" then image_brainstorm
  else image_default.

Definition getImageForNoteType (analysis : option AnalysisResult) : string :=
  match analysis with
  | None => image_default
  | Some a =>
      match ar_structured_notes a with
      | [] => image_default
      | first :: _ => imageOfNoteType (sn_note_type first)
      end
  end.

(** The [switch (noteType)] of [getTag]. *)
Definition tagOfNoteType (noteType : string) : string :=
  if String.eqb noteType "Meeting" then "Meeting"
  else if String.eqb noteType "Brainstorm" then "Ideas"
  else if String.eqb noteType "Decision" then "Decision"
  else if String.eqb noteType "Action" then "Tasks"
  else if String.eqb noteType "Reference" then "Reference"
  else "Ideas".

(** [getTag]: [!analysis?.structured_notes?.length] holds when the analysis
    is missing or its list of notes is empty. *)
Definition getTag (analysis : option AnalysisResult) : string :=
  match analysis with
  | None => "Ideas"
  | Some a =>
      match ar_structured_notes a with
      | [] => "Ideas"
      | first :: _ => tagOfNoteType (sn_note_type first)
      end
  end.

(** The template literal of the "Tasks" section. *)
Definition taskLine (task : Task) : string :=
  task_title task
  +:+ (if JS.truthy (task_description task)
       then ": " +:+ default "" (task_description task)
       else "")
  +:+ " (" +:+ task_priority task +:+ ")".

Definition convertToNoteSections (analysis : option AnalysisResult)
  : option (list NoteSection) :=
  match analysis with
  | None => None
  | Some a =>
      let s1 :=
        match ar_ideas a with
        | [] => []
        | _ => [ {| section := "Ideas"; content := ar_ideas a |} ]
        end in
      let s2 :=
        match ar_tasks a with
        | [] => s1
        | _ => s1 ++ [ {| section := "Tasks"; content := map taskLine (ar_tasks a) |} ]
        end in
      let s3 :=
        s2 ++ map (fun note => {| section := sn_title note;
                                  content := [sn_content note] |})
                  (ar_structured_notes a) in
      match s3 with
      | [] => None
      | _ => Some s3
      end
  end.

Section WithDate.

(** [new Date(ts).toISOString().split('T')[0]]: the parsing and the calendar
    arithmetic of the JavaScript runtime are left to the environment.  A
    timestamp that does not parse makes an invalid [Date], on which
    [toISOString] throws a [RangeError]: that is [None]. *)
Variable isoDay : string -> option string.

(** [voiceSessionToNote]: the note, or [None] when building it throws.  The
    other properties of the object literal are evaluated without effects,
    so a [RangeError] from the date leaves nothing behind. *)
Definition voiceSessionToNote (session : VoiceSession) : option Note :=
  match isoDay (vs_timestamp session) with
  | Some date =>
      Some {| note_id := vs_id session;
              note_title := vs_title session;
              note_content :=
                JS.or_default
                  (JS.or (option_map ar_summary (vs_analysis session))
                         (vs_transcript session))
                  "No content available";
              note_tag := getTag (vs_analysis session);
              note_date := date;
              note_duration := formatTime (vs_duration_ms session / 1000);
              note_image := getImageForNoteType (vs_analysis session);
              note_audioUrl := vs_audio_url session;
              note_transcript := vs_transcript session;
              note_notes := convertToNoteSections (vs_analysis session) |}
  | None => None
  end.

(** [sessions.map(voiceSessionToNote)]: the notes in order, or [None] when
    one of the conversions throws. *)
Fixpoint voiceSessionsToNotes (sessions : list VoiceSession) : option (list Note) :=
  match sessions with
  | [] => Some []
  | session :: rest =>
      match voiceSessionToNote session with
      | Some note =>
          match voiceSessionsToNotes rest with
          | Some notes => Some (note :: notes)
          | None => None
          end
      | None => None
      end
  end.

End WithDate.

(** What makes a session "have a summary": an analysis whose summary is a
    non-empty string. *)
Definition has_summary (s : VoiceSession) : Prop :=
  exists a, vs_analysis s = Some a /\ ar_summary a <> "".

Definition has_transcript (s : VoiceSession) : Prop :=
  exists t, vs_transcript s = Some t /\ t <> "".

(** The note type of the first structured note, when there is one. *)
Definition first_note_type (s : VoiceSession) : option string :=
  match vs_analysis s with
  | None => None
  | Some a => option_map sn_note_type (head (ar_structured_notes a))
  end.

Lemma summary_truthy (s : VoiceSession) :
  JS.truthy (option_map ar_summary (vs_analysis s)) = true <-> has_summary s.
Proof.
  unfold has_summary. destruct (vs_analysis s) as [a|]; simpl.
  - rewrite (JS.truthy_Some (ar_summary a)). split.
    + intros H. exists a. split; [reflexivity | exact H].
    + intros (a' & Ha & H). congruence.
  - split; [discriminate | intros (a' & Ha & _); discriminate].
Qed.

Lemma transcript_truthy (s : VoiceSession) :
  JS.truthy (vs_transcript s) = true <-> has_transcript s.
Proof.
  unfold has_transcript. destruct (vs_transcript s) as [t|]; simpl.
  - change (negb (String.eqb t "")) with (JS.truthy (Some t)).
    rewrite JS.truthy_Some. split.
    + intros H. exists t. split; [reflexivity | exact H].
    + intros (t' & Ht & H). congruence.
  - split; [discriminate | intros (t' & Ht & _); discriminate].
Qed.

Lemma getTag_first_note_type (s : VoiceSession) :
  getTag (vs_analysis s) =
  match first_note_type s with
  | Some ty => tagOfNoteType ty
  | None => "Ideas"%string
  end.
Proof.
  unfold getTag, first_note_type.
  destruct (vs_analysis s) as [a|]; [|reflexivity].
  destruct (ar_structured_notes a); reflexivity.
Qed.

(** C10.  Building the note throws exactly when the timestamp of the
    session does not parse.  Otherwise the note takes its content from the
    analysis summary when that is present and non-empty, else from the
    transcript when that is present and non-empty, else it is "No content
    available"; its tag is a function of the note type of the first
    structured note alone, and is "Ideas" when there is no analysis or no
    structured note. *)
Theorem voiceSessionToNote_content_and_tag (isoDay : string -> option string)
    (s : VoiceSession) :
  (voiceSessionToNote isoDay s = None <-> isoDay (vs_timestamp s) = None) /\
  (forall note, voiceSessionToNote isoDay s = Some note ->
     (forall a, vs_analysis s = Some a -> ar_summary a <> "" ->
        note_content note = ar_summary a) /\
     (forall t, ~ has_summary s -> vs_transcript s = Some t -> t <> "" ->
        note_content note = t) /\
     (~ has_summary s -> ~ has_transcript s ->
        note_content note = "No content available"%string) /\
     (first_note_type s = None -> note_tag note = "Ideas"%string) /\
     (forall ty, first_note_type s = Some ty -> note_tag note = tagOfNoteType ty) /\
     (forall s' note', first_note_type s' = first_note_type s ->
        voiceSessionToNote isoDay s' = Some note' ->
        note_tag note' = note_tag note)).
Proof.
  pose proof (summary_truthy s) as Hsum.
  pose proof (transcript_truthy s) as Htr.
  split.
  { unfold voiceSessionToNote. destruct (isoDay (vs_timestamp s)); split; congruence. }
  intros note Hnote. unfold voiceSessionToNote in Hnote.
  destruct (isoDay (vs_timestamp s)) as [date|]; [|discriminate].
  injection Hnote as <-. cbn [note_content note_tag].
  repeat split.
  - intros a Ha Hne. unfold JS.or.
    assert (Ht : JS.truthy (option_map ar_summary (vs_analysis s)) = true).
    { apply Hsum. exists a. auto. }
    rewrite Ht, Ha. apply JS.or_default_truthy with (s := ar_summary a); auto.
  - intros t Hno Ht Hne. unfold JS.or.
    destruct (JS.truthy (option_map ar_summary (vs_analysis s))) eqn:E.
    + exfalso. apply Hno, Hsum. reflexivity.
    + apply JS.or_default_truthy with (s := t); auto.
  - intros Hno Hnt. unfold JS.or.
    destruct (JS.truthy (option_map ar_summary (vs_analysis s))) eqn:E.
    + exfalso. apply Hno, Hsum. reflexivity.
    + apply JS.or_default_falsy.
      destruct (JS.truthy (vs_transcript s)) eqn:E'; [|reflexivity].
      exfalso. apply Hnt, Htr. reflexivity.
  - intros Hn. rewrite getTag_first_note_type, Hn. reflexivity.
  - intros ty Hn. rewrite getTag_first_note_type, Hn. reflexivity.
  - intros s' note' Heq Hnote'. unfold voiceSessionToNote in Hnote'.
    destruct (isoDay (vs_timestamp s')); [|discriminate].
    injection Hnote' as <-. cbn [note_tag].
    rewrite !getTag_first_note_type, Heq. reflexivity.
Qed.

(** A session whose analysis has a summary and an "Action" note first. *)
Definition session_example : VoiceSession :=
  {| vs_id := "s1";
     vs_timestamp := "2024-05-01T10:00:00Z";
     vs_audio_file_path := "/audio/s1.wav";
     vs_transcript := Some "we will ship on friday";
     vs_analysis :=
       Some {| ar_title := "Release";
               ar_ideas := ["ship early"];
               ar_tasks := [ {| task_title := "Tag the release";
                                task_description := Some "after the tests pass";
                                task_priority := "High";
                                task_due_date := None |} ];
               ar_structured_notes :=
                 [ {| sn_title := "Ship"; sn_content := "Friday";
                      sn_tags := ["release"]; sn_note_type := "Action";
                      sn_updated_at := "2024-05-01"; sn_created_at := "2024-05-01" |} ];
               ar_summary := "Release planned for Friday" |};
     vs_title := "Release";
     vs_duration_ms := 125500;
     vs_audio_url := None |}.

(** A stand-in for the runtime's dates, enough for the examples: a
    timestamp that starts with a digit parses, and its day is its first ten
    characters. *)
Definition example_isoDay (ts : string) : option string :=
  match ts with
  | String c _ =>
      if ((48 <=? Ascii.N_of_ascii c) && (Ascii.N_of_ascii c <=? 57))%N
      then Some (String.substring 0 10 ts) else None
  | EmptyString => None
  end.

Example voiceSessionToNote_example :
  voiceSessionToNote example_isoDay session_example =
  Some {| note_id := "s1";
          note_title := "Release";
          note_content := "Release planned for Friday";
          note_tag := "Tasks";
          note_date := "2024-05-01";
          note_duration := "2:05";
          note_image := image_meeting;
          note_audioUrl := None;
          note_transcript := Some "we will ship on friday";
          note_notes :=
            Some [ {| section := "Ideas"; content := ["ship early"] |};
                   {| section := "Tasks";
                      content := ["Tag the release: after the tests pass (High)"] |};
                   {| section := "Ship"; content := ["Friday"] |} ] |}.
Proof. vm_compute. reflexivity. Qed.

Lemma voiceSessionToNote_content_and_tag_witness :
  exists note,
    voiceSessionToNote example_isoDay session_example = Some note /\
    note_content note = "Release planned for Friday"%string /\
    note_tag note = "Tasks"%string.
Proof.
  destruct (voiceSessionToNote_content_and_tag example_isoDay session_example)
    as (_ & Hnote).
  eexists. split; [reflexivity|].
  destruct (Hnote _ eq_refl) as (Hsummary & _ & _ & _ & Htag & _).
  split.
  - refine (Hsummary _ eq_refl _). simpl. discriminate.
  - exact (Htag "Action"%string eq_refl).
Defined.

End DataTransform.

(** ** [web/src/services/api.ts] *)

Module Api.

(** *** JSON values and the shapes TypeScript interfaces describe *)

Inductive json :=
| JNull
| JBool (b : bool)
| JNum (z : Z)
| JStr (s : string)
| JArr (items : list json)
| JObj (members : list (string * json)).

(** A TypeScript type as far as the wire types use them: [string], [number],
    a union of string literals, [T[]], and an interface, whose properties
    are required or optional ([name?: T]). *)
Inductive ty :=
| TString
| TNumber
| TUnion (literals : list string)
| TArray (elem : ty)
| TObject (props : list prop)
with prop :=
| Prop_ (name : string) (optional : bool) (t : ty).

Definition prop_name (p : prop) : string :=
  match p with Prop_ n _ _ => n end.

Definition prop_optional (p : prop) : bool :=
  match p with Prop_ _ o _ => o end.

Definition prop_names (t : ty) : list string :=
  match t with
  | TObject ps => map prop_name ps
  | _ => []
  end.

Definition required_names (t : ty) : list string :=
  match t with
  | TObject ps => map prop_name (List.filter (fun p => negb (prop_optional p)) ps)
  | _ => []
  end.

Fixpoint member (name : string) (o : list (string * json)) : option json :=
  match o with
  | [] => None
  | (k, v) :: rest => if String.eqb k name then Some v else member name rest
  end.

(** A value has a type when every required property is present with a value
    of its type and every optional property that is present has its type;
    properties the type does not name are allowed, as in TypeScript. *)
Fixpoint conforms (t : ty) (j : json) {struct t} : bool :=
  match t, j with
  | TString, JStr _ => true
  | TNumber, JNum _ => true
  | TUnion literals, JStr s => existsb (String.eqb s) literals
  | TArray elem, JArr items => forallb (conforms elem) items
  | TObject props, JObj o =>
      forallb (fun p =>
                 match p with
                 | Prop_ name optional pt =>
                     match member name o with
                     | Some v => conforms pt v
                     | None => optional
                     end
                 end) props
  | _, _ => false
  end.

(** *** The exported interfaces (the same in [web/src/types/index.ts]) *)

Definition Priority : ty := TUnion ["Low"; "Medium"; "High"; "Urgent"].

Definition NoteType : ty :=
  TUnion ["Meeting"; "Brainstorm"; "Decision"; "Action"; "Reference"].

Definition Task : ty :=
  TObject [ Prop_ "title" false TString;
            Prop_ "description" true TString;
            Prop_ "priority" false Priority;
            Prop_ "due_date" true TString ].

Definition StructuredNote : ty :=
  TObject [ Prop_ "title" false TString;
            Prop_ "content" false TString;
            Prop_ "tags" false (TArray TString);
            Prop_ "note_type" false NoteType;
            Prop_ "updated_at" false TString;
            Prop_ "created_at" false TString ].

Definition AnalysisResult : ty :=
  TObject [ Prop_ "title" false TString;
            Prop_ "ideas" false (TArray TString);
            Prop_ "tasks" false (TArray Task);
            Prop_ "structured_notes" false (TArray StructuredNote);
            Prop_ "summary" false TString ].

(** *** The analysis orchestrator's schema, as the specification words it

    [title], [summary], [ideas] (list of strings), [tasks] (list of
    {title, description?, priority}), [structured_notes] (list of
    {title, content, tags, note_type}). *)

Definition OrchestratorTask : ty :=
  TObject [ Prop_ "title" false TString;
            Prop_ "description" true TString;
            Prop_ "priority" false Priority ].

Definition OrchestratorNote : ty :=
  TObject [ Prop_ "title" false TString;
            Prop_ "content" false TString;
            Prop_ "tags" false (TArray TString);
            Prop_ "note_type" false NoteType ].

Definition OrchestratorResult : ty :=
  TObject [ Prop_ "title" false TString;
            Prop_ "summary" false TString;
            Prop_ "ideas" false (TArray TString);
            Prop_ "tasks" false (TArray OrchestratorTask);
            Prop_ "structured_notes" false (TArray OrchestratorNote) ].

(** A structured note with exactly the orchestrator's four members. *)
Definition orchestrator_note_example : json :=
  JObj [ ("title", JStr "Kickoff");
         ("content", JStr "Agreed on the schedule");
         ("tags", JArr [JStr "planning"]);
         ("note_type", JStr "Meeting") ].

Definition orchestrator_result_example : json :=
  JObj [ ("title", JStr "Kickoff");
         ("summary", JStr "Schedule agreed");
         ("ideas", JArr []);
         ("tasks", JArr []);
         ("structured_notes", JArr [orchestrator_note_example]) ].

(** *** The HTTP client *)

Record ApiResponse (T : Type) := {
  data : T;
  message : option string;
  error : option string
}.
Arguments data {T} _.
Arguments message {T} _.
Arguments error {T} _.

(** What an axios call settles to before the response interceptor runs. *)
Inductive settled (T : Type) :=
| Responded (body : T)
| ErrorStatus (status : Z) (statusText : string)
| NoResponse
| RequestError (msg : string).
Arguments Responded {T} _.
Arguments ErrorStatus {T} _ _.
Arguments NoResponse {T}.
Arguments RequestError {T} _.

(** A promise's outcome: the value it resolves to or the message of the
    [Error] it rejects with. *)
Inductive promise (T : Type) :=
| Resolved (value : T)
| Thrown (msg : string).
Arguments Resolved {T} _.
Arguments Thrown {T} _.

(** [apiClient.interceptors.response.use]. *)
Definition intercept {T} (r : settled T) : promise T :=
  match r with
  | Responded body => Resolved body
  | ErrorStatus status statusText =>
      Thrown ("API Error: " +:+ JS.toString status +:+ " - " +:+ statusText)
  | NoResponse => Thrown "Network Error: No response from server"
  | RequestError msg => Thrown ("Request Error: " +:+ msg)
  end.

(** [startRecording]: [now] is the value of [Date.now()], [r] what
    [POST /record/start] settles to. *)
Definition startRecording (now : Z) (r : settled (ApiResponse unit)) : promise string :=
  match intercept r with
  | Resolved _response => Resolved ("session_" +:+ JS.toString now)
  | Thrown e => Thrown e
  end.

(** [stopRecording]. *)
Definition stopRecording (r : settled (ApiResponse unit)) : promise unit :=
  match intercept r with
  | Resolved _ => Resolved tt
  | Thrown e => Thrown e
  end.

(** [fetchSession]: returns [response.data.data]. *)
Definition fetchSession {S : Type} (r : settled (ApiResponse S)) : promise S :=
  match intercept r with
  | Resolved response => Resolved (data response)
  | Thrown e => Thrown e
  end.

(** [getAudioUrl]. *)
Definition API_BASE_URL : string := "http://localhost:3000/api".

Definition getAudioUrl (sessionId : string) : string :=
  API_BASE_URL +:+ "/sessions/" +:+ sessionId +:+ "/audio".

(** A backend that keeps its sessions under identifiers of its own (the
    schema's [id UUID PRIMARY KEY]) and answers [GET /sessions/:id]. *)
Definition get_session {S : Type} (store : list (string * S)) (id : string)
  : settled (ApiResponse S) :=
  match List.find (fun kv => String.eqb (fst kv) id) store with
  | Some kv => Responded {| data := snd kv; message := None; error := None |}
  | None => ErrorStatus 404 "Not Found"
  end.

(** *** Properties *)

Lemma forallb_impl {A} (f g : A -> bool) (l : list A) :
  (forall x, f x = true -> g x = true) -> forallb f l = true -> forallb g l = true.
Proof.
  intros Hfg. induction l as [|x l IH]; simpl; [reflexivity|].
  intros H. apply andb_prop in H as [Hx Hl].
  rewrite (Hfg _ Hx), (IH Hl). reflexivity.
Qed.

Lemma Task_is_OrchestratorTask (j : json) :
  conforms Task j = true -> conforms OrchestratorTask j = true.
Proof.
  destruct j as [| | | |items|o]; simpl; try discriminate.
  intros H.
  repeat (apply andb_prop in H as [? H]).
  repeat (apply andb_true_intro; split); assumption.
Qed.

Lemma StructuredNote_is_OrchestratorNote (j : json) :
  conforms StructuredNote j = true -> conforms OrchestratorNote j = true.
Proof.
  destruct j as [| | | |items|o]; simpl; try discriminate.
  intros H.
  repeat (apply andb_prop in H as [? H]).
  repeat (apply andb_true_intro; split); assumption.
Qed.

Lemma array_member_impl (t1 t2 : ty) (name : string) (o : list (string * json)) :
  (forall j, conforms t1 j = true -> conforms t2 j = true) ->
  match member name o with Some v => conforms (TArray t1) v | None => false end = true ->
  match member name o with Some v => conforms (TArray t2) v | None => false end = true.
Proof.
  intros Himpl. destruct (member name o) as [v|]; [|discriminate].
  destruct v; simpl; try discriminate.
  apply forallb_impl, Himpl.
Qed.

(** The wire shape is not the orchestrator's schema verbatim: the interface
    names two more required members in a structured note, so a note with
    exactly the orchestrator's four members is not a [StructuredNote]. *)
Lemma structured_note_shape_differs :
  prop_names StructuredNote
    = ["title"; "content"; "tags"; "note_type"; "updated_at"; "created_at"]%string /\
  prop_names OrchestratorNote = ["title"; "content"; "tags"; "note_type"]%string /\
  conforms OrchestratorNote orchestrator_note_example = true /\
  conforms StructuredNote orchestrator_note_example = false /\
  conforms OrchestratorResult orchestrator_result_example = true /\
  conforms AnalysisResult orchestrator_result_example = false.
Proof.
  repeat split; vm_compute; reflexivity.
Qed.

(** C8 (amended).  The [AnalysisResult] interface has the orchestrator's five
    top-level members; a task has [title], optional [description], [priority]
    and an optional [due_date]; a structured note has [title], [content],
    [tags], [note_type] and also the required [updated_at] and [created_at].
    Every value of the interface satisfies the orchestrator's schema. *)
Theorem AnalysisResult_wire_shape :
  prop_names AnalysisResult
    = ["title"; "ideas"; "tasks"; "structured_notes"; "summary"]%string /\
  (forall n, In n (prop_names AnalysisResult) <-> In n (prop_names OrchestratorResult)) /\
  required_names AnalysisResult = prop_names AnalysisResult /\
  prop_names Task = ["title"; "description"; "priority"; "due_date"]%string /\
  required_names Task = ["title"; "priority"]%string /\
  prop_names StructuredNote
    = ["title"; "content"; "tags"; "note_type"; "updated_at"; "created_at"]%string /\
  required_names StructuredNote = prop_names StructuredNote /\
  (forall j, conforms AnalysisResult j = true -> conforms OrchestratorResult j = true).
Proof.
  repeat split; try reflexivity.
  - simpl. intuition.
  - simpl. intuition.
  - destruct j as [| | | |items|o]; simpl; try discriminate.
    intros H.
    apply andb_prop in H as [Htitle H].
    apply andb_prop in H as [Hideas H].
    apply andb_prop in H as [Htasks H].
    apply andb_prop in H as [Hnotes H].
    apply andb_prop in H as [Hsummary _].
    apply (array_member_impl Task OrchestratorTask "tasks" o Task_is_OrchestratorTask)
      in Htasks.
    apply (array_member_impl StructuredNote OrchestratorNote "structured_notes" o
             StructuredNote_is_OrchestratorNote) in Hnotes.
    repeat (apply andb_true_intro; split); auto.
Qed.

(** A value of the exported interface. *)
Definition interface_result_example : json :=
  JObj [ ("title", JStr "Kickoff");
         ("ideas", JArr [JStr "pair on the parser"]);
         ("tasks", JArr [ JObj [ ("title", JStr "Book a room");
                                 ("priority", JStr "Low");
                                 ("due_date", JStr "2024-05-03") ] ]);
         ("structured_notes",
          JArr [ JObj [ ("title", JStr "Kickoff");
                        ("content", JStr "Agreed on the schedule");
                        ("tags", JArr [JStr "planning"]);
                        ("note_type", JStr "Meeting");
                        ("updated_at", JStr "2024-05-01T10:00:00Z");
                        ("created_at", JStr "2024-05-01T10:00:00Z") ] ]);
         ("summary", JStr "Schedule agreed") ].

Lemma AnalysisResult_wire_shape_witness :
  conforms AnalysisResult interface_result_example = true /\
  conforms OrchestratorResult interface_result_example = true.
Proof.
  assert (H : conforms AnalysisResult interface_result_example = true)
    by (vm_compute; reflexivity).
  split; [exact H|].
  destruct AnalysisResult_wire_shape as (_ & _ & _ & _ & _ & _ & _ & Hsub).
  exact (Hsub interface_result_example H).
Defined.

(** C9.  Whatever body the backend answers [POST /record/start] with, the
    identifier [startRecording] resolves to is built from the client's clock
    alone. *)
Theorem startRecording_fabricates_id (now : Z) (body : ApiResponse unit) :
  startRecording now (Responded body) = Resolved ("session_" +:+ JS.toString now).
Proof.
  unfold startRecording, intercept. reflexivity.
Qed.

(** At [Date.now() = 1700000000000], against a backend whose only session is
    stored under its own identifier, the identifier returned cannot be
    fetched. *)
Example startRecording_id_not_retrievable :
  let backend := [("3f2a9c1e-5b7d-4e8a-9c0f-1a2b3c4d5e6f"%string, tt)] in
  let started := startRecording 1700000000000
                   (Responded {| data := tt; message := None; error := None |}) in
  started = Resolved "session_1700000000000"%string /\
  fetchSession (get_session backend "session_1700000000000")
    = Thrown "API Error: 404 - Not Found"%string /\
  fetchSession (get_session backend "3f2a9c1e-5b7d-4e8a-9c0f-1a2b3c4d5e6f")
    = Resolved tt.
Proof.
  repeat split; vm_compute; reflexivity.
Qed.

End Api.

(** ** The Ollama service: prompts, language detection, [analyze_text] *)

Module Ollama.

Local Open Scope nat_scope.

Inductive Language := English | Chinese.

(** A transcript is the sequence of its Unicode code points ([str::chars]). *)
Definition codepoint := N.
Definition Text := list codepoint.

(** *** The prompt templates (the backup of [src/ollama/mod.rs]) *)

Definition get_english_prompt : string :=
"You are an AI assistant specialized in analyzing meeting transcripts and generating structured insights. Your goal is to process the provided transcript and extract the following information in a well-formatted JSON object:

1.  **Title**: A concise, descriptive title for the entire note, summarizing its main topic.
2.  **Summary**: A concise overview of the main points and outcomes discussed.
3.  **Ideas**: A list of potential ideas or suggestions that arose from the discussion.
4.  **Tasks**: A list of actionable tasks identified, including a title, optional description, and priority (Low, Medium, High, Urgent).
5.  **Structured Notes**: A list of key discussion points or decisions, formatted as structured notes with a title, content, relevant tags (as a list of strings), and a note type (Meeting, Brainstorm, Decision, Action, Reference).

Ensure the JSON output is valid and strictly follows the specified structure. Do not include any other text outside the JSON object.

If the provided transcript is empty or contains only whitespace, return an empty JSON object `{}`.".

Definition get_chinese_prompt : string :=
"你是一个专业的文本分析助手，专门处理各种类型的文本内容并生成结构化分析。请客观地分析提供的文本内容，并提取以下信息到一个格式良好的JSON对象中：

1.  **title（标题）**: 为文本内容提供一个简洁、描述性的标题，总结其主要话题。
2.  **summary（摘要）**: 对文本的主要观点和内容进行客观、简洁的概述。
3.  **ideas（观点）**: 文本中提到的主要观点、论述或见解列表。
4.  **tasks（要点）**: 文本中提及的重要事项或关键信息，包括标题、可选描述和重要程度（Low、Medium、High、Urgent）。
5.  **structured_notes（结构化笔记）**: 文本的关键信息点，格式化为结构化笔记，包含标题、内容、相关标签（字符串列表）和类型（Meeting、Brainstorm、Decision、Action、Reference）。

请确保：
- JSON输出格式正确且严格遵循指定结构
- 保持客观中立的分析态度
- 不要在JSON对象之外包含任何其他文本
- 如果文本为空或仅包含空白字符，返回空的JSON对象 `{}`

无论文本内容如何，都请进行客观的结构化分析。".

Definition get_prompt_for_language (language : Language) : string :=
  match language with
  | English => get_english_prompt
  | Chinese => get_chinese_prompt
  end.

(** [needle] occurs in [s]. *)
Fixpoint contains (needle s : string) : bool :=
  String.prefix needle s ||
  match s with
  | EmptyString => false
  | String _ rest => contains needle rest
  end.

(** *** Language detection *)

Section Detector.

(** Which code points count as CJK ideographs and which as whitespace, and
    the threshold in percent, are configuration. *)
Variable is_cjk : codepoint -> bool.
Variable is_whitespace : codepoint -> bool.
Variable threshold_percent : nat.

(** One pass over the text that keeps two counters: the CJK ideographs seen
    and the characters seen that are not whitespace. *)
Definition count_step (acc : nat * nat) (c : codepoint) : nat * nat :=
  let '(cjk, total) := acc in
  (if is_cjk c then S cjk else cjk,
   if is_whitespace c then total else S total).

Definition count_chars (text : Text) : nat * nat :=
  fold_left count_step text (0, 0).

(** Modelled from the spec: the body of [detect_language], which is in
    [src/ollama/mod.rs] and not among the sources.  The text is Chinese when
    the CJK ideographs are more than [threshold_percent] percent of the
    characters that are not whitespace, and English otherwise; the fraction
    is compared exactly, by cross-multiplication, so a text with no such
    character is English. *)
Definition detect_language (text : Text) : Language :=
  let '(cjk, total) := count_chars text in
  if threshold_percent * total <? 100 * cjk then Chinese else English.

(** The two quantities of the specification. *)
Definition cjk_count (text : Text) : nat :=
  length (List.filter is_cjk text).

Definition non_whitespace_count (text : Text) : nat :=
  length (List.filter (fun c => negb (is_whitespace c)) text).

Lemma fold_count_step (text : Text) (cjk total : nat) :
  fold_left count_step text (cjk, total)
  = (cjk + cjk_count text, total + non_whitespace_count text).
Proof.
  revert cjk total.
  induction text as [|c text IH]; intros cjk total.
  - unfold cjk_count, non_whitespace_count. simpl. f_equal; lia.
  - cbn [fold_left count_step]. rewrite IH.
    unfold cjk_count, non_whitespace_count. cbn [List.filter].
    destruct (is_cjk c), (is_whitespace c); cbn [negb length]; f_equal; lia.
Qed.

Lemma count_chars_spec (text : Text) :
  count_chars text = (cjk_count text, non_whitespace_count text).
Proof.
  unfold count_chars. rewrite fold_count_step. reflexivity.
Qed.

Lemma detect_language_Chinese_iff (text : Text) :
  detect_language text = Chinese
  <-> threshold_percent * non_whitespace_count text < 100 * cjk_count text.
Proof.
  unfold detect_language. rewrite count_chars_spec.
  destruct (Nat.ltb_spec (threshold_percent * non_whitespace_count text)
                         (100 * cjk_count text)); split; intros; try lia; congruence.
Qed.

Lemma detect_language_English_iff (text : Text) :
  detect_language text = English
  <-> 100 * cjk_count text <= threshold_percent * non_whitespace_count text.
Proof.
  unfold detect_language. rewrite count_chars_spec.
  destruct (Nat.ltb_spec (threshold_percent * non_whitespace_count text)
                         (100 * cjk_count text)); split; intros; try lia; congruence.
Qed.

End Detector.

(** The policy constant. *)
Definition CHINESE_THRESHOLD_PERCENT : nat := 30.

(** The CJK Unified Ideographs block and its extension A, the ideographs of
    the supplementary planes, and the compatibility ideographs. *)
Definition is_cjk_ideograph (c : codepoint) : bool :=
  ((0x4E00 <=? c) && (c <=? 0x9FFF)
   || (0x3400 <=? c) && (c <=? 0x4DBF)
   || (0x20000 <=? c) && (c <=? 0x323AF)
   || (0xF900 <=? c) && (c <=? 0xFAFF))%N.

(** [char::is_whitespace]: the code points with the [White_Space] property. *)
Definition char_is_whitespace (c : codepoint) : bool :=
  ((0x09 <=? c) && (c <=? 0x0D)
   || (c =? 0x20) || (c =? 0x85) || (c =? 0xA0) || (c =? 0x1680)
   || (0x2000 <=? c) && (c <=? 0x200A)
   || (c =? 0x2028) || (c =? 0x2029) || (c =? 0x202F) || (c =? 0x205F)
   || (c =? 0x3000))%N.

Definition default_detect_language : Text -> Language :=
  detect_language is_cjk_ideograph char_is_whitespace CHINESE_THRESHOLD_PERCENT.

(** *** [OllamaService::analyze_text] *)

Section AnalyzeText.

Variable AnalysisResult : Type.
Variable Error : Type.

(** [self.detect_language] and [self.get_prompt_for_language]. *)
Variable detect : Text -> Language.
Variable prompt_for : Language -> string.

(** The provider behind [send_request]: what the n-th request made of it
    (counting from 0) is answered with. *)
Variable provider : nat -> string -> Text -> result AnalysisResult Error.

(** What the service does to the outside world. *)
Inductive event :=
| SendRequest (prompt : string) (text : Text)
| Sleep (secs : nat).

Record world := {
  requests : nat;
  events : list event
}.

Definition send_request (prompt : string) (text : Text) (w : world)
  : result AnalysisResult Error * world :=
  (provider (requests w) prompt text,
   {| requests := S (requests w);
      events := events w ++ [SendRequest prompt text] |}).

(** [tokio::time::sleep(Duration::from_secs(secs))]. *)
Definition sleep (secs : nat) (w : world) : world :=
  {| requests := requests w; events := events w ++ [Sleep secs] |}.

Definition max_attempts : nat := 3.

(** How a call ends: it returns, or it reaches [unreachable!()]. *)
Inductive completion :=
| Return (r : result AnalysisResult Error)
| Unreachable.

(** The [while attempts < max_attempts] loop; one unit of fuel per
    iteration. *)
Fixpoint retry_loop (fuel : nat) (prompt : string) (text : Text)
    (attempts : nat) (w : world) : option (completion * world) :=
  match fuel with
  | O => None
  | S fuel' =>
      if attempts <? max_attempts then
        let '(response, w1) := send_request prompt text w in
        match response with
        | Ok result => Some (Return (Ok result), w1)
        | Err e =>
            if attempts <? max_attempts - 1 then
              let attempts' := attempts + 1 in
              let w2 := sleep (2 ^ attempts') w1 in
              retry_loop fuel' prompt text attempts' w2
            else Some (Return (Err e), w1)
        end
      else Some (Unreachable, w)
  end.

Definition analyze_text (fuel : nat) (text : Text) (w : world)
  : option (completion * world) :=
  let language := detect text in
  let prompt := prompt_for language in
  retry_loop fuel prompt text 0 w.

(** The requests among some events. *)
Definition is_request (e : event) : bool :=
  match e with
  | SendRequest _ _ => true
  | Sleep _ => false
  end.

Definition request_count (es : list event) : nat :=
  length (List.filter is_request es).

Definition sleep_count (es : list event) : nat :=
  length (List.filter (fun e => negb (is_request e)) es).

(** The world a call is started in. *)
Definition fresh : world := {| requests := 0; events := [] |}.

End AnalyzeText.

Arguments Return {AnalysisResult Error} _.
Arguments Unreachable {AnalysisResult Error}.

(** *** Properties of the language detector *)

(** The fraction of CJK ideographs among the characters that are not
    whitespace, as a rational number; it is defined when there is such a
    character. *)
Definition cjk_fraction (is_cjk is_whitespace : codepoint -> bool) (text : Text) : Q :=
  Z.of_nat (cjk_count is_cjk text)
  # Pos.of_nat (non_whitespace_count is_whitespace text).

Lemma cjk_fraction_exceeds (is_cjk is_whitespace : codepoint -> bool) (text : Text) :
  0 < non_whitespace_count is_whitespace text ->
  ((30 # 100) < cjk_fraction is_cjk is_whitespace text)%Q
  <-> 30 * non_whitespace_count is_whitespace text < 100 * cjk_count is_cjk text.
Proof.
  intros Hpos. unfold cjk_fraction, Qlt. cbn [Qnum Qden].
  rewrite <- (Nat2Pos.id (non_whitespace_count is_whitespace text)) at 2 by lia.
  rewrite <- positive_nat_Z, !Nat2Pos.id by lia.
  lia.
Qed.

(** Two ten-character transcripts: three ideographs and seven letters with
    spaces between, and four ideographs and six letters. *)
Definition text_at_threshold : Text :=
  [0x4F60; 0x597D; 0x5417; 0x20; 0x68; 0x65; 0x6C; 0x6C; 0x6F; 0x0A; 0x6F; 0x6B]%N.

Definition text_above_threshold : Text :=
  [0x4F60; 0x597D; 0x5417; 0x55CE; 0x20; 0x68; 0x65; 0x6C; 0x6C; 0x6F; 0x6F]%N.

(** C4.  Language detection is a function of the text: with [c] the number
    of CJK ideographs and [n] the number of characters that are not
    whitespace, the text is Chinese and gets the Chinese prompt when [c / n]
    exceeds 30 percent, and is English with the English prompt otherwise, in
    particular when [c / n] is exactly 30 percent.  The comparison of the
    fraction with 30/100 is exact. *)
Theorem detect_language_threshold (is_cjk is_whitespace : codepoint -> bool) (text : Text) :
  let language := detect_language is_cjk is_whitespace CHINESE_THRESHOLD_PERCENT text in
  let c := cjk_count is_cjk text in
  let n := non_whitespace_count is_whitespace text in
  (30 * n < 100 * c ->
     language = Chinese /\ get_prompt_for_language language = get_chinese_prompt) /\
  (100 * c <= 30 * n ->
     language = English /\ get_prompt_for_language language = get_english_prompt) /\
  (100 * c = 30 * n -> language = English) /\
  (0 < n ->
     (language = Chinese <-> ((30 # 100) < cjk_fraction is_cjk is_whitespace text)%Q)).
Proof.
  intros language c n.
  pose proof (detect_language_Chinese_iff is_cjk is_whitespace
                CHINESE_THRESHOLD_PERCENT text) as HC.
  pose proof (detect_language_English_iff is_cjk is_whitespace
                CHINESE_THRESHOLD_PERCENT text) as HE.
  fold language c n in HC, HE. unfold CHINESE_THRESHOLD_PERCENT in HC, HE.
  split; [|split; [|split]].
  - intros Habove. apply HC in Habove. rewrite Habove. split; reflexivity.
  - intros Hbelow. apply HE in Hbelow. rewrite Hbelow. split; reflexivity.
  - intros Heq. apply HE. lia.
  - intros Hpos. rewrite (cjk_fraction_exceeds is_cjk is_whitespace text Hpos).
    exact HC.
Qed.

Lemma detect_language_threshold_witness :
  default_detect_language text_at_threshold = English /\
  default_detect_language text_above_threshold = Chinese.
Proof.
  split.
  - destruct (detect_language_threshold is_cjk_ideograph char_is_whitespace
                text_at_threshold) as (_ & _ & Hexact & _).
    apply Hexact. vm_compute. reflexivity.
  - destruct (detect_language_threshold is_cjk_ideograph char_is_whitespace
                text_above_threshold) as (Habove & _).
    apply Habove. apply Nat.ltb_lt. vm_compute. reflexivity.
Defined.

(** *** Properties of [analyze_text] *)

Section AnalyzeTextProperties.

Context {AnalysisResult Error : Type}.
Variable detect : Text -> Language.
Variable prompt_for : Language -> string.
Variable provider : nat -> string -> Text -> result AnalysisResult Error.

(** The loop ends within [max_attempts] iterations: with that much fuel or
    more a call completes, and it never reaches [unreachable!()]. *)
Lemma analyze_text_completes (k : nat) (text : Text) :
  exists r w,
    analyze_text AnalysisResult Error detect prompt_for provider (max_attempts + k) text fresh
    = Some (Return r, w).
Proof.
  unfold analyze_text, max_attempts. cbn [Nat.add retry_loop].
  set (p := prompt_for (detect text)).
  unfold send_request, sleep, fresh; cbn.
  destruct (provider 0 p text); [eauto|].
  destruct (provider 1 p text); [eauto|].
  destruct (provider 2 p text); eauto.
Qed.

(** More fuel than [max_attempts] changes nothing. *)
Lemma analyze_text_fuel (k : nat) (text : Text) :
  analyze_text AnalysisResult Error detect prompt_for provider (max_attempts + k) text fresh
  = analyze_text AnalysisResult Error detect prompt_for provider max_attempts text fresh.
Proof.
  unfold analyze_text, max_attempts. cbn [Nat.add retry_loop].
  set (p := prompt_for (detect text)).
  unfold send_request, sleep, fresh; cbn.
  destruct (provider 0 p text); [reflexivity|].
  destruct (provider 1 p text); [reflexivity|].
  destruct (provider 2 p text); reflexivity.
Qed.

(** C2 (amended).  A call makes at most three requests.  When a request
    fails and fewer than three have been made it sleeps [2^attempt] seconds
    (2 after the first failure, 4 after the second) and tries again; a
    success ends the call at once; after the third failure the call fails
    with the error of that third request, and nothing follows it.  The
    error is handed on as the provider gave it ([Err(e) => return Err(e)]):
    whatever error a call returns is the one its third request failed
    with. *)
Theorem analyze_text_retry_policy (k : nat) (text : Text) :
  let p := prompt_for (detect text) in
  let request := SendRequest p text in
  exists r w,
    analyze_text AnalysisResult Error detect prompt_for provider (max_attempts + k) text fresh
    = Some (Return r, w) /\
    request_count (events w) <= 3 /\
    sleep_count (events w) = request_count (events w) - 1 /\
    (forall a, provider 0 p text = Ok a ->
       r = Ok a /\ events w = [request]) /\
    (forall e1 a, provider 0 p text = Err e1 -> provider 1 p text = Ok a ->
       r = Ok a /\ events w = [request; Sleep 2; request]) /\
    (forall e1 e2 a, provider 0 p text = Err e1 -> provider 1 p text = Err e2 ->
       provider 2 p text = Ok a ->
       r = Ok a /\ events w = [request; Sleep 2; request; Sleep 4; request]) /\
    (forall e1 e2 e3, provider 0 p text = Err e1 -> provider 1 p text = Err e2 ->
       provider 2 p text = Err e3 ->
       r = Err e3 /\ events w = [request; Sleep 2; request; Sleep 4; request]) /\
    (forall e, r = Err e ->
       provider 2 p text = Err e /\ request_count (events w) = 3).
Proof.
  intros p request.
  unfold analyze_text, max_attempts. cbn [Nat.add retry_loop].
  fold p. unfold send_request, sleep, fresh; cbn. fold request.
  destruct (provider 0 p text) as [a0|e0].
  { eexists _, _. split; [reflexivity|]. cbn.
    repeat split; intros; try congruence; lia. }
  destruct (provider 1 p text) as [a1|e1].
  { eexists _, _. split; [reflexivity|]. cbn.
    repeat split; intros; try congruence; lia. }
  destruct (provider 2 p text) as [a2|e2].
  { eexists _, _. split; [reflexivity|]. cbn.
    repeat split; intros; try congruence; lia. }
  eexists _, _. split; [reflexivity|]. cbn.
  repeat split; intros; try congruence; lia.
Qed.

(** C3 (amended).  [analyze_text] has no case of its own for an empty
    transcript: for every text it sends the provider the prompt of the
    detected language with the text, and when that first request succeeds
    its answer is the result, after exactly one request.  Both prompts tell
    the provider to answer an empty transcript with an empty JSON object. *)
Theorem analyze_text_always_asks_provider (k : nat) (text : Text) :
  let p := prompt_for (detect text) in
  exists r w,
    analyze_text AnalysisResult Error detect prompt_for provider (max_attempts + k) text fresh
    = Some (Return r, w) /\
    head (events w) = Some (SendRequest p text) /\
    1 <= request_count (events w) /\
    (forall a, provider 0 p text = Ok a ->
       r = Ok a /\ events w = [SendRequest p text]) /\
    contains "empty JSON object `{}`" get_english_prompt = true /\
    contains "返回空的JSON对象 `{}`" get_chinese_prompt = true.
Proof.
  intros p.
  unfold analyze_text, max_attempts. cbn [Nat.add retry_loop].
  fold p. unfold send_request, sleep, fresh; cbn -[contains get_english_prompt get_chinese_prompt].
  assert (He : contains "empty JSON object `{}`" get_english_prompt = true)
    by (vm_compute; reflexivity).
  assert (Hc : contains "返回空的JSON对象 `{}`" get_chinese_prompt = true)
    by (vm_compute; reflexivity).
  destruct (provider 0 p text) as [a0|e0].
  { eexists _, _. split; [reflexivity|]. cbn -[contains get_english_prompt get_chinese_prompt].
    repeat split; intros; try congruence; try lia; assumption. }
  destruct (provider 1 p text) as [a1|e1].
  { eexists _, _. split; [reflexivity|]. cbn -[contains get_english_prompt get_chinese_prompt].
    repeat split; intros; try congruence; try lia; assumption. }
  destruct (provider 2 p text) as [a2|e2].
  { eexists _, _. split; [reflexivity|]. cbn -[contains get_english_prompt get_chinese_prompt].
    repeat split; intros; try congruence; try lia; assumption. }
  eexists _, _. split; [reflexivity|]. cbn -[contains get_english_prompt get_chinese_prompt].
  repeat split; intros; try congruence; try lia; assumption.
Qed.

End AnalyzeTextProperties.

(** A provider that is down: every request fails, with the number of the
    request in the error. *)
Definition provider_down (n : nat) (_ : string) (_ : Text) : result Api.json string :=
  Err ("connection refused #" +:+ JS.toString (Z.of_nat (S n))).

(** A provider that answers every request with the same analysis. *)
Definition provider_up (_ : nat) (_ : string) (_ : Text) : result Api.json string :=
  Ok Api.orchestrator_result_example.

Definition english_text : Text := [0x68; 0x69]%N.

Lemma analyze_text_retry_policy_witness :
  exists w,
    analyze_text Api.json string default_detect_language get_prompt_for_language
      provider_down 3 english_text fresh
    = Some (Return (Err "connection refused #3"%string), w) /\
    events w = [ SendRequest get_english_prompt english_text; Sleep 2;
                 SendRequest get_english_prompt english_text; Sleep 4;
                 SendRequest get_english_prompt english_text ].
Proof.
  destruct (analyze_text_retry_policy default_detect_language get_prompt_for_language
              provider_down 0 english_text)
    as (r & w & Hrun & _ & _ & _ & _ & _ & Hfail & _).
  destruct (Hfail _ _ _ eq_refl eq_refl eq_refl) as [Hr Hev].
  subst r. exists w. split; [exact Hrun | exact Hev].
Defined.

(** The failures the specification names for the analysis stage: the
    retryable ones, and [AnalysisFailed], which carries its cause. *)
Inductive AnalysisError :=
| NetworkError (message : string)
| MalformedResponse (body : string)
| TransientError (message : string)
| AnalysisFailed (cause : AnalysisError).

(** What the specification asks of a call whose last request failed with
    [cause]. *)
Definition fails_with_AnalysisFailed (cause : AnalysisError)
  : result Api.json AnalysisError :=
  Err (AnalysisFailed cause).

(** A provider that cannot be reached. *)
Definition provider_unreachable (n : nat) (_ : string) (_ : Text)
  : result Api.json AnalysisError :=
  Err (NetworkError ("connection refused #" +:+ JS.toString (Z.of_nat (S n)))).

(** After three failed requests the call does not fail with
    [AnalysisFailed] carrying the cause: it fails with the cause itself. *)
Lemma analyze_text_error_not_wrapped :
  exists w,
    analyze_text Api.json AnalysisError default_detect_language get_prompt_for_language
      provider_unreachable 3 english_text fresh
    = Some (Return (Err (NetworkError "connection refused #3")), w) /\
    request_count (events w) = 3 /\
    Err (NetworkError "connection refused #3")
    <> fails_with_AnalysisFailed (NetworkError "connection refused #3").
Proof.
  eexists. split; [vm_compute; reflexivity|].
  split; [vm_compute; reflexivity | discriminate].
Qed.

(** On the empty transcript, and on one of blanks only, the provider is
    asked, and what it answers is returned: here a request is made and the
    result is not empty. *)
Lemma analyze_text_empty_transcript_reaches_provider :
  analyze_text Api.json string default_detect_language get_prompt_for_language
    provider_up 3 [] fresh
  = Some (Return (Ok Api.orchestrator_result_example),
          {| requests := 1; events := [SendRequest get_english_prompt []] |}) /\
  analyze_text Api.json string default_detect_language get_prompt_for_language
    provider_up 3 [0x20; 0x09; 0x0A]%N fresh
  = Some (Return (Ok Api.orchestrator_result_example),
          {| requests := 1;
             events := [SendRequest get_english_prompt [0x20; 0x09; 0x0A]%N] |}) /\
  forallb char_is_whitespace [0x20; 0x09; 0x0A]%N = true.
Proof.
  repeat split; vm_compute; reflexivity.
Qed.

Lemma analyze_text_always_asks_provider_witness :
  exists w,
    analyze_text Api.json string default_detect_language get_prompt_for_language
      provider_up 3 [] fresh
    = Some (Return (Ok Api.orchestrator_result_example), w) /\
    events w = [SendRequest get_english_prompt []].
Proof.
  destruct (analyze_text_always_asks_provider default_detect_language
              get_prompt_for_language provider_up 0 [])
    as (r & w & Hrun & _ & _ & Hfirst & _).
  destruct (Hfirst _ eq_refl) as [Hr Hev].
  subst r. exists w. split; [exact Hrun | exact Hev].
Defined.

End Ollama.

(** ** The audio capture controller *)

Module Capture.

Local Open Scope nat_scope.

Definition SessionId := nat.

(** [Idle -> Recording -> Stopping -> Stopped]. *)
Inductive RecorderState := Idle | Recording | Stopping | Stopped.

(** The causes of a [CaptureError]: no microphone, a recording already in
    progress, an empty recording; [NotRecording] answers a stop, finalize or
    cancel request for a session that is not in the state it needs. *)
Inductive CaptureError :=
| NoMicrophone
| ConcurrentRecording
| EmptyRecording
| NotRecording.

(** The state the pipeline coordinator holds: the recorder state of every
    session it has started, the guard (held by the session that is
    recording), and the next identifier to hand out. *)
Record coordinator := {
  recorders : gmap SessionId RecorderState;
  guard : option SessionId;
  next_session : SessionId
}.

Definition init : coordinator :=
  {| recorders := ∅; guard := None; next_session := 0 |}.

(** Modelled from the spec: [startSession], whose code (the backend's
    [src/audio.rs] and [src/web.rs]) is not among the sources.  It acquires
    the guard; when the guard is held the call fails with the
    concurrent-recording [CaptureError] and changes nothing; otherwise a new
    session enters [Recording]. *)
Definition startSession (c : coordinator) : result SessionId CaptureError * coordinator :=
  match guard c with
  | Some _ => (Err ConcurrentRecording, c)
  | None =>
      let id := next_session c in
      (Ok id,
       {| recorders := <[id := Recording]> (recorders c);
          guard := Some id;
          next_session := S id |})
  end.

(** Modelled from the spec: the stop request of [stopSession],
    [Recording -> Stopping], which releases the guard. *)
Definition requestStop (id : SessionId) (c : coordinator)
  : result unit CaptureError * coordinator :=
  match recorders c !! id with
  | Some Recording =>
      (Ok tt,
       {| recorders := <[id := Stopping]> (recorders c);
          guard := None;
          next_session := next_session c |})
  | _ => (Err NotRecording, c)
  end.

(** Modelled from the spec: the end of [stopSession].  Finalizing the audio
    artifact takes [Stopping] to [Stopped], or fails into [Idle]. *)
Definition finalize (id : SessionId) (flushed : bool) (c : coordinator)
  : result unit CaptureError * coordinator :=
  match recorders c !! id with
  | Some Stopping =>
      if flushed then
        (Ok tt,
         {| recorders := <[id := Stopped]> (recorders c);
            guard := guard c;
            next_session := next_session c |})
      else
        (Err EmptyRecording,
         {| recorders := <[id := Idle]> (recorders c);
            guard := guard c;
            next_session := next_session c |})
  | _ => (Err NotRecording, c)
  end.

(** Modelled from the spec: cancelling a recording returns it to [Idle] and
    discards the partial audio. *)
Definition cancel (id : SessionId) (c : coordinator)
  : result unit CaptureError * coordinator :=
  match recorders c !! id with
  | Some Recording =>
      (Ok tt,
       {| recorders := <[id := Idle]> (recorders c);
          guard := None;
          next_session := next_session c |})
  | _ => (Err NotRecording, c)
  end.

(** The calls a client can make. *)
Inductive call :=
| StartSession
| RequestStop (id : SessionId)
| Finalize (id : SessionId) (flushed : bool)
| Cancel (id : SessionId).

Definition perform (k : call) (c : coordinator) : coordinator :=
  match k with
  | StartSession => snd (startSession c)
  | RequestStop id => snd (requestStop id c)
  | Finalize id flushed => snd (finalize id flushed c)
  | Cancel id => snd (cancel id c)
  end.

(** The states the system can be in: those a sequence of calls leads to. *)
Inductive reachable : coordinator -> Prop :=
| reachable_init : reachable init
| reachable_step (k : call) (c : coordinator) :
    reachable c -> reachable (perform k c).

(** The guard is held by exactly the session that is recording, and
    identifiers are handed out in increasing order. *)
Record consistent (c : coordinator) : Prop := {
  guard_recording :
    forall id, recorders c !! id = Some Recording <-> guard c = Some id;
  ids_below_next :
    forall id, is_Some (recorders c !! id) -> id < next_session c
}.

Lemma consistent_init : consistent init.
Proof.
  split; simpl.
  - intros id. rewrite lookup_empty. split; discriminate.
  - intros id [s Hs]. rewrite lookup_empty in Hs. discriminate.
Qed.

Lemma consistent_startSession (c : coordinator) :
  consistent c -> consistent (snd (startSession c)).
Proof.
  intros Hc. unfold startSession.
  destruct (guard c) as [holder|] eqn:Hguard; simpl; [exact Hc|].
  destruct Hc as [Hg Hb]. split; simpl.
  - intros id. destruct (decide (next_session c = id)) as [->|Hne].
    + rewrite lookup_insert_eq. split; reflexivity.
    + rewrite lookup_insert_ne by assumption. rewrite Hg. split; congruence.
  - intros id. destruct (decide (next_session c = id)) as [->|Hne]; [lia|].
    rewrite lookup_insert_ne by assumption. intros H. apply Hb in H. lia.
Qed.

(** Moving the recording session out of [Recording] and dropping the guard,
    or moving a session that is not recording to a state other than
    [Recording], keeps the coordinator consistent. *)
Lemma consistent_leave (c : coordinator) (id : SessionId) (s' : RecorderState)
    (g' : option SessionId) :
  consistent c ->
  is_Some (recorders c !! id) ->
  s' <> Recording ->
  (recorders c !! id = Some Recording /\ g' = None
   \/ recorders c !! id <> Some Recording /\ g' = guard c) ->
  consistent {| recorders := <[id := s']> (recorders c);
                guard := g';
                next_session := next_session c |}.
Proof.
  intros [Hg Hb] Hin Hs' Hcase. split; simpl.
  - intros j. destruct (decide (id = j)) as [->|Hne].
    + rewrite lookup_insert_eq. split; [congruence|].
      intros Hj. destruct Hcase as [[_ ->]|[Hnot ->]]; [discriminate|].
      apply Hg in Hj. contradiction.
    + rewrite lookup_insert_ne by assumption.
      destruct Hcase as [[Hrec ->]|[_ ->]]; [|apply Hg].
      split; [|discriminate].
      intros Hj. apply Hg in Hj. apply Hg in Hrec. congruence.
  - intros j. destruct (decide (id = j)) as [->|Hne].
    + intros _. apply Hb. assumption.
    + rewrite lookup_insert_ne by assumption. apply Hb.
Qed.

Lemma consistent_perform (k : call) (c : coordinator) :
  consistent c -> consistent (perform k c).
Proof.
  intros Hc. destruct k as [|id|id flushed|id]; simpl.
  - apply consistent_startSession, Hc.
  - unfold requestStop.
    destruct (recorders c !! id) as [[]|] eqn:E; simpl; try exact Hc.
    apply consistent_leave;
      [exact Hc | rewrite E; eauto | discriminate | left; split; [exact E | reflexivity]].
  - unfold finalize.
    destruct (recorders c !! id) as [[]|] eqn:E; simpl; try exact Hc.
    destruct flushed; simpl;
      (apply consistent_leave;
       [exact Hc | rewrite E; eauto | discriminate
       | right; split; [rewrite E; discriminate | reflexivity]]).
  - unfold cancel.
    destruct (recorders c !! id) as [[]|] eqn:E; simpl; try exact Hc.
    apply consistent_leave;
      [exact Hc | rewrite E; eauto | discriminate | left; split; [exact E | reflexivity]].
Qed.

Lemma reachable_consistent (c : coordinator) : reachable c -> consistent c.
Proof.
  induction 1 as [|k c _ IH].
  - apply consistent_init.
  - apply consistent_perform, IH.
Qed.

(** When nothing is recording, [startSession] succeeds with an identifier
    that was not in use, and the sessions there were are as they were. *)
Lemma startSession_free (c : coordinator) :
  consistent c -> guard c = None ->
  exists id c',
    startSession c = (Ok id, c') /\
    recorders c !! id = None /\
    recorders c' !! id = Some Recording /\
    (forall j, j <> id -> recorders c' !! j = recorders c !! j).
Proof.
  intros [_ Hb] Hfree. unfold startSession. rewrite Hfree.
  eexists _, _. split; [reflexivity|]. simpl. split; [|split].
  - destruct (recorders c !! next_session c) eqn:E; [|reflexivity].
    assert (next_session c < next_session c) by (apply Hb; eexists; exact E). lia.
  - apply lookup_insert_eq.
  - intros j Hj. apply lookup_insert_ne. congruence.
Qed.

(** C5.  In a reachable state at most one session is [Recording]; and when
    one is, [startSession] fails with the concurrent-recording
    [CaptureError] and returns the state it was given: no session is
    created and the recording session is as it was. *)
Theorem single_recording (c : coordinator) :
  reachable c ->
  (forall i j, recorders c !! i = Some Recording ->
               recorders c !! j = Some Recording -> i = j) /\
  (forall i, recorders c !! i = Some Recording ->
             startSession c = (Err ConcurrentRecording, c)).
Proof.
  intros Hr. apply reachable_consistent in Hr as [Hg _]. split.
  - intros i j Hi Hj. apply Hg in Hi. apply Hg in Hj. congruence.
  - intros i Hi. apply Hg in Hi. unfold startSession. rewrite Hi. reflexivity.
Qed.

(** Two sessions: the first was stopped and finalized, the second is
    recording. *)
Definition second_recording : coordinator :=
  perform StartSession
    (perform (Finalize 0 true) (perform (RequestStop 0) (perform StartSession init))).

Lemma single_recording_witness :
  recorders second_recording !! 0 = Some Stopped /\
  recorders second_recording !! 1 = Some Recording /\
  startSession second_recording = (Err ConcurrentRecording, second_recording).
Proof.
  assert (Hr : reachable second_recording) by (repeat constructor).
  assert (H1 : recorders second_recording !! 1 = Some Recording)
    by (vm_compute; reflexivity).
  split; [vm_compute; reflexivity|].
  split; [exact H1|].
  destruct (single_recording second_recording Hr) as [_ Hstart].
  exact (Hstart 1 H1).
Defined.

End Capture.

(** ** The repository layer over the relational schema *)

Module Repository.

Local Open Scope nat_scope.

(** Identifiers ([UUID]) and instants ([TIMESTAMP WITH TIME ZONE], as the
    column keeps them: microseconds from 2000-01-01 00:00 UTC). *)
Definition Uuid := nat.
Definition Timestamp := Z.

Inductive SessionStatus := Active | Archived | Deleted.
Inductive Priority := Low | Medium | High | Urgent.
Inductive TaskStatus := Pending | InProgress | Completed | Cancelled.
Inductive NoteType := Meeting | Brainstorm | Decision | Action | Reference.

(** *** The tables of [migrations/001_initial_schema.sql]

    One record per table, one field per column; a column that is not
    [NOT NULL] is an [option].  The [CHECK (... IN ...)] constraints of
    [priority], [status] and [note_type] are the enumerations above. *)

Record session_row := {
  session_id : Uuid;
  session_title : string;
  session_created_at : Timestamp;
  session_updated_at : Timestamp;
  session_duration_ms : Z;
  session_status : SessionStatus;
  session_metadata : option string
}.

Record audio_file_row := {
  audio_id : Uuid;
  audio_session_id : Uuid;
  audio_file_path : string;
  audio_file_size : Z;
  audio_format : string;
  audio_sample_rate : option Z;
  audio_channels : option Z;
  audio_created_at : Timestamp;
  audio_checksum : option string
}.

Record transcript_row := {
  transcript_id : Uuid;
  transcript_session_id : Uuid;
  transcript_content : string;
  transcript_language : option string;
  transcript_confidence_score : option Z;
  transcript_provider : string;
  transcript_created_at : Timestamp;
  transcript_processing_time_ms : option Z
}.

Record analysis_row := {
  analysis_id : Uuid;
  analysis_session_id : Uuid;
  analysis_title : option string;
  analysis_summary : option string;
  analysis_provider : string;
  analysis_model_version : option string;
  analysis_created_at : Timestamp;
  analysis_processing_time_ms : option Z
}.

Record idea_row := {
  idea_id : Uuid;
  idea_analysis_id : Uuid;
  idea_content : string;
  idea_category : option string;
  idea_priority : option Z;
  idea_created_at : Timestamp
}.

Record task_row := {
  task_id : Uuid;
  task_analysis_id : Uuid;
  task_title : string;
  task_description : option string;
  task_priority : Priority;
  task_status : TaskStatus;
  task_due_date : option Timestamp;
  task_created_at : Timestamp;
  task_updated_at : Timestamp
}.

Record note_row := {
  note_id : Uuid;
  note_analysis_id : Uuid;
  note_title : string;
  note_content : string;
  note_type : NoteType;
  note_tags : list string;
  note_created_at : Timestamp;
  note_updated_at : Timestamp
}.

(** The database: each table in insertion order, and the supply of
    identifiers (every identifier handed out so far is below it). *)
Record db := {
  sessions : list session_row;
  audio_files : list audio_file_row;
  transcripts : list transcript_row;
  analysis_results : list analysis_row;
  ideas : list idea_row;
  tasks : list task_row;
  structured_notes : list note_row;
  uuid_supply : Uuid
}.

Definition empty : db :=
  {| sessions := []; audio_files := []; transcripts := []; analysis_results := [];
     ideas := []; tasks := []; structured_notes := []; uuid_supply := 0 |}.

(** *** Deletion and the [ON DELETE CASCADE] foreign keys *)

Definition of_session (sid : Uuid) (a : analysis_row) : bool :=
  analysis_session_id a =? sid.

Definition mem (id : Uuid) (ids : list Uuid) : bool :=
  existsb (Nat.eqb id) ids.

(** [DELETE FROM analysis_results WHERE doomed]: the rows go, and with them
    the rows of [ideas], [tasks] and [structured_notes] whose [analysis_id]
    [REFERENCES analysis_results(id) ON DELETE CASCADE] names one of them. *)
Definition delete_analyses (doomed : analysis_row -> bool) (d : db) : db :=
  let gone := map analysis_id (List.filter doomed (analysis_results d)) in
  {| sessions := sessions d;
     audio_files := audio_files d;
     transcripts := transcripts d;
     analysis_results := List.filter (fun a => negb (doomed a)) (analysis_results d);
     ideas := List.filter (fun r => negb (mem (idea_analysis_id r) gone)) (ideas d);
     tasks := List.filter (fun r => negb (mem (task_analysis_id r) gone)) (tasks d);
     structured_notes :=
       List.filter (fun r => negb (mem (note_analysis_id r) gone)) (structured_notes d);
     uuid_supply := uuid_supply d |}.

(** [SessionRepository::delete], declared in [docs/REFACTOR_PLAN.md], deletes
    the row of the session, [DELETE FROM sessions WHERE id = sid]; the rest
    is the schema's doing.  The row goes, and with it the rows of
    [audio_files], [transcripts] and [analysis_results] whose [session_id]
    [REFERENCES sessions(id) ON DELETE CASCADE] names it; the deletion of
    the analysis rows cascades in turn. *)
Definition deleteSession (sid : Uuid) (d : db) : db :=
  let d1 := delete_analyses (of_session sid) d in
  {| sessions := List.filter (fun s => negb (session_id s =? sid)) (sessions d1);
     audio_files := List.filter (fun r => negb (audio_session_id r =? sid)) (audio_files d1);
     transcripts :=
       List.filter (fun r => negb (transcript_session_id r =? sid)) (transcripts d1);
     analysis_results := analysis_results d1;
     ideas := ideas d1;
     tasks := tasks d1;
     structured_notes := structured_notes d1;
     uuid_supply := uuid_supply d1 |}.

(** Everything the database holds about one session: its row, and the rows
    that reach it through the foreign keys. *)
Record session_graph := {
  g_sessions : list session_row;
  g_audio_files : list audio_file_row;
  g_transcripts : list transcript_row;
  g_analysis_results : list analysis_row;
  g_ideas : list idea_row;
  g_tasks : list task_row;
  g_structured_notes : list note_row
}.

Definition analysis_ids_of (sid : Uuid) (d : db) : list Uuid :=
  map analysis_id (List.filter (of_session sid) (analysis_results d)).

Definition graph_of (sid : Uuid) (d : db) : session_graph :=
  let mine := analysis_ids_of sid d in
  {| g_sessions := List.filter (fun s => session_id s =? sid) (sessions d);
     g_audio_files := List.filter (fun r => audio_session_id r =? sid) (audio_files d);
     g_transcripts :=
       List.filter (fun r => transcript_session_id r =? sid) (transcripts d);
     g_analysis_results := List.filter (of_session sid) (analysis_results d);
     g_ideas := List.filter (fun r => mem (idea_analysis_id r) mine) (ideas d);
     g_tasks := List.filter (fun r => mem (task_analysis_id r) mine) (tasks d);
     g_structured_notes :=
       List.filter (fun r => mem (note_analysis_id r) mine) (structured_notes d) |}.

Definition empty_graph : session_graph :=
  {| g_sessions := []; g_audio_files := []; g_transcripts := [];
     g_analysis_results := []; g_ideas := []; g_tasks := [];
     g_structured_notes := [] |}.

(** *** The values the analysis orchestrator produces *)

Record Idea := {
  i_content : string;
  i_category : option string;
  i_priority : option Z
}.

Record Task := {
  t_title : string;
  t_description : option string;
  t_priority : Priority;
  t_status : TaskStatus;
  t_due_date : option Timestamp
}.

Record StructuredNote := {
  n_title : string;
  n_content : string;
  n_tags : list string;
  n_note_type : NoteType
}.

(** [AnalysisResult] of [models/analysis.rs], without the fields the
    repository assigns ([id], [session_id], [created_at]). *)
Record AnalysisResult := {
  a_title : option string;
  a_summary : option string;
  a_provider : string;
  a_model_version : option string;
  a_processing_time_ms : option Z;
  a_ideas : list Idea;
  a_tasks : list Task;
  a_structured_notes : list StructuredNote
}.

(** From values to rows and back. *)
Definition analysis_row_of (aid sid : Uuid) (now : Timestamp) (r : AnalysisResult)
  : analysis_row :=
  {| analysis_id := aid;
     analysis_session_id := sid;
     analysis_title := a_title r;
     analysis_summary := a_summary r;
     analysis_provider := a_provider r;
     analysis_model_version := a_model_version r;
     analysis_created_at := now;
     analysis_processing_time_ms := a_processing_time_ms r |}.

Definition idea_row_of (aid : Uuid) (now : Timestamp) (id : Uuid) (i : Idea) : idea_row :=
  {| idea_id := id;
     idea_analysis_id := aid;
     idea_content := i_content i;
     idea_category := i_category i;
     idea_priority := i_priority i;
     idea_created_at := now |}.

Definition task_row_of (aid : Uuid) (now : Timestamp) (id : Uuid) (t : Task) : task_row :=
  {| task_id := id;
     task_analysis_id := aid;
     task_title := t_title t;
     task_description := t_description t;
     task_priority := t_priority t;
     task_status := t_status t;
     task_due_date := t_due_date t;
     task_created_at := now;
     task_updated_at := now |}.

Definition note_row_of (aid : Uuid) (now : Timestamp) (id : Uuid) (n : StructuredNote)
  : note_row :=
  {| note_id := id;
     note_analysis_id := aid;
     note_title := n_title n;
     note_content := n_content n;
     note_type := n_note_type n;
     note_tags := n_tags n;
     note_created_at := now;
     note_updated_at := now |}.

Definition idea_of_row (r : idea_row) : Idea :=
  {| i_content := idea_content r;
     i_category := idea_category r;
     i_priority := idea_priority r |}.

Definition task_of_row (r : task_row) : Task :=
  {| t_title := task_title r;
     t_description := task_description r;
     t_priority := task_priority r;
     t_status := task_status r;
     t_due_date := task_due_date r |}.

Definition note_of_row (r : note_row) : StructuredNote :=
  {| n_title := note_title r;
     n_content := note_content r;
     n_tags := note_tags r;
     n_note_type := note_type r |}.

(** Rows for the items of a collection, in order, with consecutive
    identifiers from [start]. *)
Fixpoint assign {A R : Type} (mk : Uuid -> A -> R) (start : Uuid) (items : list A)
  : list R :=
  match items with
  | [] => []
  | x :: rest => mk start x :: assign mk (S start) rest
  end.

(** *** What the columns take

    A value assigned to a column is stored as it is, stored changed, or
    refused: [col v] is the value the column keeps, [None] when the
    statement is refused.  These are PostgreSQL's rules for the column
    types of the schema, in a database encoded in UTF-8.  The limits of
    storage itself (a single value of at most 1 GB, an index entry of at
    most a third of a page) are not part of them. *)

Definition byte (c : Ascii.ascii) : N := Ascii.N_of_ascii c.

Definition between (lo hi b : N) : bool := ((lo <=? b) && (b <=? hi))%N.

(** A continuation byte of UTF-8, [10xxxxxx]. *)
Definition continuation (c : Ascii.ascii) : bool := between 0x80 0xBF (byte c).

(** Well-formed UTF-8: no stray continuation byte, no truncated or overlong
    sequence, no surrogate, nothing above U+10FFFF. *)
Fixpoint utf8 (s : string) : bool :=
  match s with
  | EmptyString => true
  | String c0 rest =>
      let b0 := byte c0 in
      if (b0 <? 0x80)%N then utf8 rest
      else if (b0 <? 0xC2)%N then false
      else if (b0 <? 0xE0)%N then
        match rest with
        | String c1 rest1 => continuation c1 && utf8 rest1
        | _ => false
        end
      else if (b0 <? 0xF0)%N then
        match rest with
        | String c1 (String c2 rest2) =>
            between (if (b0 =? 0xE0)%N then 0xA0 else 0x80)
                    (if (b0 =? 0xED)%N then 0x9F else 0xBF) (byte c1)
            && continuation c2 && utf8 rest2
        | _ => false
        end
      else if (b0 <? 0xF5)%N then
        match rest with
        | String c1 (String c2 (String c3 rest3)) =>
            between (if (b0 =? 0xF0)%N then 0x90 else 0x80)
                    (if (b0 =? 0xF4)%N then 0x8F else 0xBF) (byte c1)
            && continuation c2 && continuation c3 && utf8 rest3
        | _ => false
        end
      else false
  end.

Fixpoint has_nul (s : string) : bool :=
  match s with
  | EmptyString => false
  | String c rest => (byte c =? 0)%N || has_nul rest
  end.

(** [TEXT]: any well-formed text without the character U+0000. *)
Definition text (s : string) : option string :=
  if utf8 s && negb (has_nul s) then Some s else None.

(** The number of characters of a UTF-8 string: its bytes other than
    continuation bytes. *)
Fixpoint chars (s : string) : nat :=
  match s with
  | EmptyString => 0
  | String c rest => (if continuation c then 0 else 1) + chars rest
  end.

(** The first [n] characters of a string, and what follows them. *)
Fixpoint clip (n : nat) (s : string) : string * string :=
  match s with
  | EmptyString => (EmptyString, EmptyString)
  | String c rest =>
      if continuation c then
        let (kept, excess) := clip n rest in (String c kept, excess)
      else
        match n with
        | O => (EmptyString, s)
        | S k => let (kept, excess) := clip k rest in (String c kept, excess)
        end
  end.

Fixpoint all_spaces (s : string) : bool :=
  match s with
  | EmptyString => true
  | String c rest => (byte c =? 0x20)%N && all_spaces rest
  end.

(** [VARCHAR(n)]: text of at most [n] characters is stored as it is; longer
    text is cut to [n] characters when what is cut off is spaces only, and
    refused otherwise. *)
Definition varchar (n : nat) (s : string) : option string :=
  match text s with
  | Some _ =>
      let (kept, excess) := clip n s in
      if all_spaces excess then Some kept else None
  | None => None
  end.

Example varchar_examples :
  varchar 3 "日本語" = Some "日本語"%string /\
  varchar 2 "日本語" = None /\
  varchar 2 "ab   " = Some "ab"%string /\
  varchar 2 "ab c" = None /\
  chars "日本語" = 3 /\
  text (String (Ascii.ascii_of_nat 0) "") = None /\
  text (String (Ascii.ascii_of_nat 200) "") = None.
Proof.
  repeat split; vm_compute; reflexivity.
Qed.

(** [INTEGER] and [BIGINT]. *)
Definition integer (v : Z) : option Z :=
  if ((-2147483648 <=? v) && (v <=? 2147483647))%Z then Some v else None.

Definition bigint (v : Z) : option Z :=
  if ((-9223372036854775808 <=? v) && (v <=? 9223372036854775807))%Z
  then Some v else None.

(** [TIMESTAMP WITH TIME ZONE]: from 4713 BC to the end of the year 294276. *)
Definition timestamptz (t : Timestamp) : option Timestamp :=
  if ((-211813488000000000 <=? t) && (t <? 9223371331200000000))%Z
  then Some t else None.

(** [TEXT[]]. *)
Definition text_array (values : list string) : option (list string) :=
  mapM text values.

(** A column that is not [NOT NULL]. *)
Definition nullable {A : Type} (col : A -> option A) (v : option A)
  : option (option A) :=
  match v with
  | Some x => Some <$> col x
  | None => Some None
  end.

(** The rows as the tables keep them. *)
Definition store_analysis_row (row : analysis_row) : option analysis_row :=
  title ← nullable (varchar 255) (analysis_title row);
  summary ← nullable text (analysis_summary row);
  provider ← varchar 50 (analysis_provider row);
  model_version ← nullable (varchar 100) (analysis_model_version row);
  created_at ← timestamptz (analysis_created_at row);
  processing_time_ms ← nullable integer (analysis_processing_time_ms row);
  Some {| analysis_id := analysis_id row;
          analysis_session_id := analysis_session_id row;
          analysis_title := title;
          analysis_summary := summary;
          analysis_provider := provider;
          analysis_model_version := model_version;
          analysis_created_at := created_at;
          analysis_processing_time_ms := processing_time_ms |}.

Definition store_idea_row (row : idea_row) : option idea_row :=
  content ← text (idea_content row);
  category ← nullable (varchar 100) (idea_category row);
  priority ← nullable integer (idea_priority row);
  created_at ← timestamptz (idea_created_at row);
  Some {| idea_id := idea_id row;
          idea_analysis_id := idea_analysis_id row;
          idea_content := content;
          idea_category := category;
          idea_priority := priority;
          idea_created_at := created_at |}.

Definition store_task_row (row : task_row) : option task_row :=
  title ← varchar 255 (task_title row);
  description ← nullable text (task_description row);
  due_date ← nullable timestamptz (task_due_date row);
  created_at ← timestamptz (task_created_at row);
  updated_at ← timestamptz (task_updated_at row);
  Some {| task_id := task_id row;
          task_analysis_id := task_analysis_id row;
          task_title := title;
          task_description := description;
          task_priority := task_priority row;
          task_status := task_status row;
          task_due_date := due_date;
          task_created_at := created_at;
          task_updated_at := updated_at |}.

Definition store_note_row (row : note_row) : option note_row :=
  title ← varchar 255 (note_title row);
  content ← text (note_content row);
  tags ← text_array (note_tags row);
  created_at ← timestamptz (note_created_at row);
  updated_at ← timestamptz (note_updated_at row);
  Some {| note_id := note_id row;
          note_analysis_id := note_analysis_id row;
          note_title := title;
          note_content := content;
          note_type := note_type row;
          note_tags := tags;
          note_created_at := created_at;
          note_updated_at := updated_at |}.

(** The values as the columns keep them. *)
Definition store_idea (i : Idea) : option Idea :=
  content ← text (i_content i);
  category ← nullable (varchar 100) (i_category i);
  priority ← nullable integer (i_priority i);
  Some {| i_content := content; i_category := category; i_priority := priority |}.

Definition store_task (t : Task) : option Task :=
  title ← varchar 255 (t_title t);
  description ← nullable text (t_description t);
  due_date ← nullable timestamptz (t_due_date t);
  Some {| t_title := title; t_description := description;
          t_priority := t_priority t; t_status := t_status t;
          t_due_date := due_date |}.

Definition store_note (n : StructuredNote) : option StructuredNote :=
  title ← varchar 255 (n_title n);
  content ← text (n_content n);
  tags ← text_array (n_tags n);
  Some {| n_title := title; n_content := content; n_tags := tags;
          n_note_type := n_note_type n |}.

(** The columns of the analysis row, the collections left as they are. *)
Definition store_scalars (r : AnalysisResult) : option AnalysisResult :=
  title ← nullable (varchar 255) (a_title r);
  summary ← nullable text (a_summary r);
  provider ← varchar 50 (a_provider r);
  model_version ← nullable (varchar 100) (a_model_version r);
  processing_time_ms ← nullable integer (a_processing_time_ms r);
  Some {| a_title := title;
          a_summary := summary;
          a_provider := provider;
          a_model_version := model_version;
          a_processing_time_ms := processing_time_ms;
          a_ideas := a_ideas r;
          a_tasks := a_tasks r;
          a_structured_notes := a_structured_notes r |}.

(** An analysis as the tables keep it, [None] when one of its values is
    refused. *)
Definition store (r : AnalysisResult) : option AnalysisResult :=
  scalars ← store_scalars r;
  ideas ← mapM store_idea (a_ideas r);
  tasks ← mapM store_task (a_tasks r);
  notes ← mapM store_note (a_structured_notes r);
  Some {| a_title := a_title scalars;
          a_summary := a_summary scalars;
          a_provider := a_provider scalars;
          a_model_version := a_model_version scalars;
          a_processing_time_ms := a_processing_time_ms scalars;
          a_ideas := ideas;
          a_tasks := tasks;
          a_structured_notes := notes |}.

(** Values that are stored as they are: text within the length of its
    column, numbers and instants within the range of theirs. *)
Definition kept {A : Type} (col : A -> option A) (v : A) : bool :=
  match col v with
  | Some _ => true
  | None => false
  end.








(** *** Writes and transactions *)

(** The kinds of [StorageError]: a statement the database refuses (a value
    its column does not take, a foreign key that names no row, a primary
    key that is taken), and a connection that fails. *)
Inductive StorageError :=
| ConstraintViolation
| ConnectionFailure.

Inductive write :=
| DeleteAnalysesOf (sid : Uuid)
| InsertAnalysis (row : analysis_row)
| InsertIdea (row : idea_row)
| InsertTask (row : task_row)
| InsertNote (row : note_row).

Definition has_session (sid : Uuid) (d : db) : bool :=
  existsb (fun s => session_id s =? sid) (sessions d).

Definition has_analysis (aid : Uuid) (d : db) : bool :=
  existsb (fun a => analysis_id a =? aid) (analysis_results d).

Definition add_analysis (row : analysis_row) (d : db) : db :=
  {| sessions := sessions d; audio_files := audio_files d; transcripts := transcripts d;
     analysis_results := analysis_results d ++ [row];
     ideas := ideas d; tasks := tasks d; structured_notes := structured_notes d;
     uuid_supply := uuid_supply d |}.

Definition add_ideas (rows : list idea_row) (d : db) : db :=
  {| sessions := sessions d; audio_files := audio_files d; transcripts := transcripts d;
     analysis_results := analysis_results d;
     ideas := ideas d ++ rows; tasks := tasks d; structured_notes := structured_notes d;
     uuid_supply := uuid_supply d |}.

Definition add_tasks (rows : list task_row) (d : db) : db :=
  {| sessions := sessions d; audio_files := audio_files d; transcripts := transcripts d;
     analysis_results := analysis_results d;
     ideas := ideas d; tasks := tasks d ++ rows; structured_notes := structured_notes d;
     uuid_supply := uuid_supply d |}.

Definition add_notes (rows : list note_row) (d : db) : db :=
  {| sessions := sessions d; audio_files := audio_files d; transcripts := transcripts d;
     analysis_results := analysis_results d;
     ideas := ideas d; tasks := tasks d; structured_notes := structured_notes d ++ rows;
     uuid_supply := uuid_supply d |}.

Definition with_supply (next : Uuid) (d : db) : db :=
  {| sessions := sessions d; audio_files := audio_files d; transcripts := transcripts d;
     analysis_results := analysis_results d;
     ideas := ideas d; tasks := tasks d; structured_notes := structured_notes d;
     uuid_supply := next |}.

(** One statement against the database.  An insert is refused when a
    column does not take its value, when its foreign key names no row, or
    when its primary key is taken; the row written is the row as the
    columns keep it. *)
Definition apply_write (d : db) (w : write) : result db StorageError :=
  match w with
  | DeleteAnalysesOf sid => Ok (delete_analyses (of_session sid) d)
  | InsertAnalysis row =>
      match store_analysis_row row with
      | Some stored =>
          if has_session (analysis_session_id stored) d
             && negb (has_analysis (analysis_id stored) d)
          then Ok (add_analysis stored d) else Err ConstraintViolation
      | None => Err ConstraintViolation
      end
  | InsertIdea row =>
      match store_idea_row row with
      | Some stored =>
          if has_analysis (idea_analysis_id stored) d
             && negb (existsb (fun r => idea_id r =? idea_id stored) (ideas d))
          then Ok (add_ideas [stored] d) else Err ConstraintViolation
      | None => Err ConstraintViolation
      end
  | InsertTask row =>
      match store_task_row row with
      | Some stored =>
          if has_analysis (task_analysis_id stored) d
             && negb (existsb (fun r => task_id r =? task_id stored) (tasks d))
          then Ok (add_tasks [stored] d) else Err ConstraintViolation
      | None => Err ConstraintViolation
      end
  | InsertNote row =>
      match store_note_row row with
      | Some stored =>
          if has_analysis (note_analysis_id stored) d
             && negb (existsb (fun r => note_id r =? note_id stored) (structured_notes d))
          then Ok (add_notes [stored] d) else Err ConstraintViolation
      | None => Err ConstraintViolation
      end
  end.

(** The statements of a transaction run in order on a working copy;
    [fault n] says whether the n-th statement (counting from [idx]) is lost
    to a connection failure. *)
Fixpoint run_writes (fault : nat -> bool) (idx : nat) (ws : list write) (d : db)
  : result db StorageError :=
  match ws with
  | [] => Ok d
  | w :: rest =>
      if fault idx then Err ConnectionFailure
      else match apply_write d w with
           | Ok d1 => run_writes fault (S idx) rest d1
           | Err e => Err e
           end
  end.

(** Modelled from the spec: the transactional unit of the repository layer,
    whose implementation is not among the sources.  The working copy
    replaces the database on commit and is dropped on rollback. *)
Definition transaction (fault : nat -> bool) (ws : list write) (d : db)
  : result db StorageError * db :=
  match run_writes fault 0 ws d with
  | Ok d' => (Ok d', d')
  | Err e => (Err e, d)
  end.

(** Modelled from the spec: the statements of [saveAnalysis].  The analyses
    the session had are superseded, then the new analysis row is written,
    then its ideas, its tasks and its structured notes, each in order.  An
    insert names every column of its table: a value that is absent is
    written as [NULL], and no [DEFAULT] takes its place. *)
Definition saveAnalysis_writes (now : Timestamp) (sid : Uuid) (r : AnalysisResult)
    (d : db) : list write :=
  let aid := uuid_supply d in
  let first_idea := S aid in
  let first_task := first_idea + length (a_ideas r) in
  let first_note := first_task + length (a_tasks r) in
  DeleteAnalysesOf sid
  :: InsertAnalysis (analysis_row_of aid sid now r)
  :: map InsertIdea (assign (idea_row_of aid now) first_idea (a_ideas r))
  ++ map InsertTask (assign (task_row_of aid now) first_task (a_tasks r))
  ++ map InsertNote (assign (note_row_of aid now) first_note (a_structured_notes r)).

Definition identifiers_used (r : AnalysisResult) : nat :=
  1 + length (a_ideas r) + length (a_tasks r) + length (a_structured_notes r).

(** Modelled from the spec: [saveAnalysis], whose implementation is not among
    the sources ([AnalysisRepository::create] is declared only). *)
Definition saveAnalysis (fault : nat -> bool) (now : Timestamp) (sid : Uuid)
    (r : AnalysisResult) (d : db) : result Uuid StorageError * db :=
  match transaction fault (saveAnalysis_writes now sid r d) d with
  | (Ok _, d') =>
      (Ok (uuid_supply d), with_supply (uuid_supply d + identifiers_used r) d')
  | (Err e, d') => (Err e, d')
  end.

Definition no_fault (_ : nat) : bool := false.

(** The database that holds [r], row for row, after the analyses the
    session had. *)
Definition saved (now : Timestamp) (sid : Uuid) (r : AnalysisResult) (d : db) : db :=
  let aid := uuid_supply d in
  let d0 := delete_analyses (of_session sid) d in
  {| sessions := sessions d;
     audio_files := audio_files d;
     transcripts := transcripts d;
     analysis_results := analysis_results d0 ++ [analysis_row_of aid sid now r];
     ideas := ideas d0 ++ assign (idea_row_of aid now) (S aid) (a_ideas r);
     tasks :=
       tasks d0 ++ assign (task_row_of aid now) (S aid + length (a_ideas r)) (a_tasks r);
     structured_notes :=
       structured_notes d0
       ++ assign (note_row_of aid now)
            (S aid + length (a_ideas r) + length (a_tasks r)) (a_structured_notes r);
     uuid_supply := aid + identifiers_used r |}.

(** Modelled from the spec: a session row is created, with a fresh
    identifier, when a recording has been stopped. *)
Definition createSession (title : string) (now : Timestamp) (duration : Z) (d : db)
  : result Uuid StorageError * db :=
  let sid := uuid_supply d in
  match varchar 255 title, timestamptz now, bigint duration with
  | Some title', Some now', Some duration' =>
      (Ok sid,
       {| sessions := sessions d
                      ++ [ {| session_id := sid;
                              session_title := title';
                              session_created_at := now';
                              session_updated_at := now';
                              session_duration_ms := duration';
                              session_status := Active;
                              session_metadata := None |} ];
          audio_files := audio_files d;
          transcripts := transcripts d;
          analysis_results := analysis_results d;
          ideas := ideas d;
          tasks := tasks d;
          structured_notes := structured_notes d;
          uuid_supply := S sid |})
  | _, _, _ => (Err ConstraintViolation, d)
  end.

(** *** Reading a session back *)

Definition assemble (a : analysis_row) (d : db) : AnalysisResult :=
  {| a_title := analysis_title a;
     a_summary := analysis_summary a;
     a_provider := analysis_provider a;
     a_model_version := analysis_model_version a;
     a_processing_time_ms := analysis_processing_time_ms a;
     a_ideas :=
       map idea_of_row
         (List.filter (fun r => idea_analysis_id r =? analysis_id a) (ideas d));
     a_tasks :=
       map task_of_row
         (List.filter (fun r => task_analysis_id r =? analysis_id a) (tasks d));
     a_structured_notes :=
       map note_of_row
         (List.filter (fun r => note_analysis_id r =? analysis_id a) (structured_notes d)) |}.

(** Modelled from the spec: the analysis of a session as [findSession]
    returns it ([AnalysisRepository::find_by_session_id] is declared only):
    the session's analysis row with the rows of its collections, each in
    the order of the table. *)
Definition findAnalysis (sid : Uuid) (d : db) : option AnalysisResult :=
  match List.filter (of_session sid) (analysis_results d) with
  | [] => None
  | a :: _ => Some (assemble a d)
  end.

Record Session := {
  session : session_row;
  audio : option audio_file_row;
  transcript : option transcript_row;
  analysis : option AnalysisResult
}.

(** Modelled from the spec: [findSession], whose implementation is not among
    the sources.  The transcript of a session is the latest written. *)
Definition findSession (sid : Uuid) (d : db) : option Session :=
  match List.find (fun s => session_id s =? sid) (sessions d) with
  | None => None
  | Some s =>
      Some {| session := s;
              audio := List.find (fun r => audio_session_id r =? sid) (audio_files d);
              transcript :=
                last (List.filter (fun r => transcript_session_id r =? sid) (transcripts d));
              analysis := findAnalysis sid d |}
  end.

(** The schema has no column that orders the rows of a collection: their
    keys are [UUID]s and they share one [created_at].  A query returns the
    rows it selects in an order of its own. *)
Definition row_order := forall A : Type, list A -> list A.


(** The order of the tables, which [findSession] reads in. *)
Definition table_order : row_order := fun _ rows => rows.




(** All the rows that carry the identifier of an analysis. *)
Definition rows_of_analysis (aid : Uuid) (d : db) : nat :=
  length (List.filter (fun a => analysis_id a =? aid) (analysis_results d))
  + length (List.filter (fun r => idea_analysis_id r =? aid) (ideas d))
  + length (List.filter (fun r => task_analysis_id r =? aid) (tasks d))
  + length (List.filter (fun r => note_analysis_id r =? aid) (structured_notes d)).

(** *** Well-formed databases *)

(** Identifiers in use are below the supply, and the primary key of
    [analysis_results] determines the row. *)
Record wf (d : db) : Prop := {
  wf_analysis_id :
    forall a, In a (analysis_results d) -> analysis_id a < uuid_supply d;
  wf_analysis_key :
    forall a b, In a (analysis_results d) -> In b (analysis_results d) ->
                analysis_id a = analysis_id b -> a = b;
  wf_idea :
    forall r, In r (ideas d) ->
              idea_id r < uuid_supply d /\ idea_analysis_id r < uuid_supply d;
  wf_task :
    forall r, In r (tasks d) ->
              task_id r < uuid_supply d /\ task_analysis_id r < uuid_supply d;
  wf_note :
    forall r, In r (structured_notes d) ->
              note_id r < uuid_supply d /\ note_analysis_id r < uuid_supply d
}.

(** *** Lists *)

Lemma filter_none {A} (f : A -> bool) (l : list A) :
  (forall x, In x l -> f x = false) -> List.filter f l = [].
Proof.
  induction l as [|x l IH]; intros H; simpl; [reflexivity|].
  rewrite (H x) by (left; reflexivity).
  apply IH. intros y Hy. apply H. right. exact Hy.
Qed.

Lemma filter_all {A} (f : A -> bool) (l : list A) :
  (forall x, In x l -> f x = true) -> List.filter f l = l.
Proof.
  induction l as [|x l IH]; intros H; simpl; [reflexivity|].
  rewrite (H x) by (left; reflexivity).
  f_equal. apply IH. intros y Hy. apply H. right. exact Hy.
Qed.

(** A filter absorbs an earlier, weaker one. *)
Lemma filter_filter_weaker {A} (f g : A -> bool) (l : list A) :
  (forall x, In x l -> f x = true -> g x = true) ->
  List.filter f (List.filter g l) = List.filter f l.
Proof.
  induction l as [|x l IH]; intros H; simpl; [reflexivity|].
  assert (IH' : List.filter f (List.filter g l) = List.filter f l).
  { apply IH. intros y Hy. apply H. right. exact Hy. }
  destruct (g x) eqn:Eg; simpl.
  - rewrite IH'. reflexivity.
  - destruct (f x) eqn:Ef; [|exact IH'].
    rewrite (H x (or_introl eq_refl) Ef) in Eg. discriminate.
Qed.

Lemma filter_filter_disjoint {A} (f g : A -> bool) (l : list A) :
  (forall x, In x l -> g x = true -> f x = false) ->
  List.filter f (List.filter g l) = [].
Proof.
  intros H. apply filter_none. intros x Hx.
  apply List.filter_In in Hx as [Hin Hg]. apply H; assumption.
Qed.

Lemma find_filter_weaker {A} (f g : A -> bool) (l : list A) :
  (forall x, In x l -> f x = true -> g x = true) ->
  List.find f (List.filter g l) = List.find f l.
Proof.
  induction l as [|x l IH]; intros H; simpl; [reflexivity|].
  assert (IH' : List.find f (List.filter g l) = List.find f l).
  { apply IH. intros y Hy. apply H. right. exact Hy. }
  destruct (g x) eqn:Eg; simpl.
  - rewrite IH'. reflexivity.
  - destruct (f x) eqn:Ef; [|exact IH'].
    rewrite (H x (or_introl eq_refl) Ef) in Eg. discriminate.
Qed.

Lemma mem_In (id : Uuid) (ids : list Uuid) : mem id ids = true <-> In id ids.
Proof.
  unfold mem. rewrite existsb_exists. split.
  - intros (x & Hx & Heq). apply Nat.eqb_eq in Heq. subst. exact Hx.
  - intros H. exists id. split; [exact H | apply Nat.eqb_refl].
Qed.

Lemma negb_eqb_true (a b : nat) : negb (a =? b) = true <-> a <> b.
Proof.
  rewrite negb_true_iff. apply Nat.eqb_neq.
Qed.

(** *** Deleting a session *)

Lemma analysis_ids_of_In (sid id : Uuid) (d : db) :
  In id (analysis_ids_of sid d)
  <-> exists a, In a (analysis_results d) /\ analysis_session_id a = sid
                /\ analysis_id a = id.
Proof.
  unfold analysis_ids_of. rewrite in_map_iff. split.
  - intros (a & Hid & Ha). apply List.filter_In in Ha as [Hin Hs].
    apply Nat.eqb_eq in Hs. eauto.
  - intros (a & Hin & Hs & Hid). exists a. split; [exact Hid|].
    apply List.filter_In. split; [exact Hin|]. apply Nat.eqb_eq. exact Hs.
Qed.

(** The analyses of one session and those of another share no identifier. *)
Lemma other_session_not_gone (sid : Uuid) (d : db) (a : analysis_row) :
  wf d -> In a (analysis_results d) -> analysis_session_id a <> sid ->
  mem (analysis_id a) (analysis_ids_of sid d) = false.
Proof.
  intros Hwf Ha Hne.
  destruct (mem (analysis_id a) (analysis_ids_of sid d)) eqn:E; [|reflexivity].
  apply mem_In, analysis_ids_of_In in E as (b & Hb & Hs & Hid).
  rewrite (wf_analysis_key d Hwf a b Ha Hb (eq_sym Hid)) in Hne. contradiction.
Qed.

Lemma analysis_ids_of_deleteSession (sid sid' : Uuid) (d : db) :
  sid' <> sid ->
  analysis_ids_of sid' (deleteSession sid d) = analysis_ids_of sid' d.
Proof.
  intros Hne. unfold analysis_ids_of. simpl. f_equal.
  apply filter_filter_weaker. intros a _ Ha.
  unfold of_session in *. apply Nat.eqb_eq in Ha.
  apply negb_eqb_true. congruence.
Qed.

Lemma kept_child (sid sid' fk : Uuid) (d : db) :
  wf d -> sid' <> sid ->
  mem fk (analysis_ids_of sid' d) = true ->
  negb (mem fk (map analysis_id (List.filter (of_session sid) (analysis_results d))))
  = true.
Proof.
  intros Hwf Hne Hmine.
  apply mem_In, analysis_ids_of_In in Hmine as (a & Ha & Hs & <-).
  apply negb_true_iff.
  apply (other_session_not_gone sid d a Hwf Ha). congruence.
Qed.

Lemma assemble_deleteSession (sid : Uuid) (d : db) (a : analysis_row) :
  wf d -> In a (analysis_results d) -> analysis_session_id a <> sid ->
  assemble a (deleteSession sid d) = assemble a d.
Proof.
  intros Hwf Ha Hne.
  pose proof (other_session_not_gone sid d a Hwf Ha Hne) as Hkeep.
  unfold analysis_ids_of in Hkeep.
  unfold assemble. simpl.
  f_equal; f_equal; apply filter_filter_weaker; intros r _ Hr;
    apply Nat.eqb_eq in Hr; rewrite Hr, Hkeep; reflexivity.
Qed.

Lemma findAnalysis_deleteSession (sid sid' : Uuid) (d : db) :
  wf d -> sid' <> sid ->
  findAnalysis sid' (deleteSession sid d) = findAnalysis sid' d.
Proof.
  intros Hwf Hne. unfold findAnalysis.
  assert (Hsame :
    List.filter (of_session sid') (analysis_results (deleteSession sid d))
    = List.filter (of_session sid') (analysis_results d)).
  { simpl. apply filter_filter_weaker. intros a _ Ha.
    unfold of_session in *. apply Nat.eqb_eq in Ha.
    apply negb_eqb_true. congruence. }
  rewrite Hsame.
  destruct (List.filter (of_session sid') (analysis_results d)) as [|a rest] eqn:E;
    [reflexivity|].
  assert (Hin : In a (List.filter (of_session sid') (analysis_results d)))
    by (rewrite E; left; reflexivity).
  apply List.filter_In in Hin as [Hin Hs]. apply Nat.eqb_eq in Hs.
  rewrite assemble_deleteSession; [reflexivity | exact Hwf | exact Hin | congruence].
Qed.

Lemma wf_deleteSession (sid : Uuid) (d : db) : wf d -> wf (deleteSession sid d).
Proof.
  intros [Hid Hkey Hi Ht Hn]. split; simpl.
  - intros a Ha. apply List.filter_In in Ha as [Ha _]. auto.
  - intros a b Ha Hb. apply List.filter_In in Ha as [Ha _].
    apply List.filter_In in Hb as [Hb _]. auto.
  - intros r Hr. apply List.filter_In in Hr as [Hr _]. auto.
  - intros r Hr. apply List.filter_In in Hr as [Hr _]. auto.
  - intros r Hr. apply List.filter_In in Hr as [Hr _]. auto.
Qed.

Lemma graph_of_deleted (sid : Uuid) (d : db) :
  graph_of sid (deleteSession sid d) = empty_graph.
Proof.
  assert (Hnone : analysis_ids_of sid (deleteSession sid d) = []).
  { unfold analysis_ids_of. simpl. rewrite filter_filter_disjoint; [reflexivity|].
    intros a _ Ha. apply negb_true_iff in Ha. exact Ha. }
  unfold graph_of. rewrite Hnone. unfold empty_graph. simpl.
  f_equal;
    try (apply filter_filter_disjoint; intros x _ Hx; apply negb_true_iff in Hx; exact Hx);
    apply filter_none; reflexivity.
Qed.

Lemma graph_of_other (sid sid' : Uuid) (d : db) :
  wf d -> sid' <> sid ->
  graph_of sid' (deleteSession sid d) = graph_of sid' d.
Proof.
  intros Hwf Hne. unfold graph_of.
  rewrite (analysis_ids_of_deleteSession sid sid' d Hne). simpl.
  f_equal.
  - apply filter_filter_weaker. intros x _ Hx. apply Nat.eqb_eq in Hx.
    apply negb_eqb_true. congruence.
  - apply filter_filter_weaker. intros x _ Hx. apply Nat.eqb_eq in Hx.
    apply negb_eqb_true. congruence.
  - apply filter_filter_weaker. intros x _ Hx. apply Nat.eqb_eq in Hx.
    apply negb_eqb_true. congruence.
  - apply filter_filter_weaker. intros x _ Hx. unfold of_session in *.
    apply Nat.eqb_eq in Hx. apply negb_eqb_true. congruence.
  - apply filter_filter_weaker. intros r _ Hr. apply (kept_child sid sid'); assumption.
  - apply filter_filter_weaker. intros r _ Hr. apply (kept_child sid sid'); assumption.
  - apply filter_filter_weaker. intros r _ Hr. apply (kept_child sid sid'); assumption.
Qed.

Lemma findSession_other (sid sid' : Uuid) (d : db) :
  wf d -> sid' <> sid ->
  findSession sid' (deleteSession sid d) = findSession sid' d.
Proof.
  intros Hwf Hne. unfold findSession.
  rewrite (findAnalysis_deleteSession sid sid' d Hwf Hne). simpl.
  rewrite !find_filter_weaker, filter_filter_weaker;
    try (intros x _ Hx; apply Nat.eqb_eq in Hx; apply negb_eqb_true; congruence).
  reflexivity.
Qed.

Lemma findSession_deleted (sid : Uuid) (d : db) :
  findSession sid (deleteSession sid d) = None.
Proof.
  unfold findSession. simpl.
  destruct (List.find _ _) as [s|] eqn:E; [|reflexivity].
  apply List.find_some in E as [Hin Hs].
  apply List.filter_In in Hin as [_ Hn]. rewrite Hs in Hn. discriminate.
Qed.

(** *** Saving an analysis *)

Lemma In_assign {A R} (mk : Uuid -> A -> R) (start : Uuid) (items : list A) (x : R) :
  In x (assign mk start items) ->
  exists i y, x = mk i y /\ start <= i < start + length items.
Proof.
  revert start. induction items as [|y items IH]; intros start; simpl; [tauto|].
  intros [<-|Hx].
  - exists start, y. split; [reflexivity | lia].
  - apply IH in Hx as (i & z & -> & Hi). exists i, z. split; [reflexivity | lia].
Qed.

Lemma map_assign {A R} (mk : Uuid -> A -> R) (back : R -> A) (start : Uuid)
    (items : list A) :
  (forall i y, back (mk i y) = y) -> map back (assign mk start items) = items.
Proof.
  intros Hback. revert start.
  induction items as [|y items IH]; intros start; simpl; [reflexivity|].
  rewrite Hback, IH. reflexivity.
Qed.

Lemma length_assign {A R} (mk : Uuid -> A -> R) (start : Uuid) (items : list A) :
  length (assign mk start items) = length items.
Proof.
  revert start. induction items as [|y items IH]; intros start; simpl; [reflexivity|].
  rewrite IH. reflexivity.
Qed.

Lemma existsb_false {A} (f : A -> bool) (l : list A) :
  (forall x, In x l -> f x = false) -> existsb f l = false.
Proof.
  intros H. destruct (existsb f l) eqn:E; [|reflexivity].
  apply existsb_exists in E as (x & Hx & Hf). rewrite (H x Hx) in Hf. discriminate.
Qed.

Lemma run_writes_app (fault : nat -> bool) (ws1 ws2 : list write) (idx : nat) (d : db) :
  run_writes fault idx (ws1 ++ ws2) d =
  match run_writes fault idx ws1 d with
  | Ok d1 => run_writes fault (idx + length ws1) ws2 d1
  | Err e => Err e
  end.
Proof.
  revert idx d. induction ws1 as [|w ws1 IH]; intros idx d; simpl.
  - rewrite Nat.add_0_r. reflexivity.
  - destruct (fault idx); [reflexivity|].
    destruct (apply_write d w) as [d1|e]; [|reflexivity].
    rewrite IH. replace (S idx + length ws1) with (idx + S (length ws1)) by lia.
    reflexivity.
Qed.

(** A statement lost to a connection failure fails the run. *)
Lemma run_writes_fault (fault : nat -> bool) (ws : list write) (idx i : nat) (d : db) :
  idx <= i < idx + length ws -> fault i = true ->
  exists e, run_writes fault idx ws d = Err e.
Proof.
  revert idx d. induction ws as [|w ws IH]; intros idx d Hi Hf; simpl in *; [lia|].
  destruct (fault idx) eqn:E; [eauto|].
  destruct (apply_write d w) as [d1|e]; [|eauto].
  apply IH; [|exact Hf].
  assert (i <> idx) by congruence. lia.
Qed.

(** A run that completes lost no statement. *)
Lemma run_writes_completed (fault : nat -> bool) (ws : list write) (idx : nat)
    (d d' : db) :
  run_writes fault idx ws d = Ok d' -> run_writes no_fault idx ws d = Ok d'.
Proof.
  revert idx d. induction ws as [|w ws IH]; intros idx d; simpl; [auto|].
  destruct (fault idx); [discriminate|].
  destruct (apply_write d w) as [d1|e]; [apply IH | auto].
Qed.

(** Only the statements of the run matter to it. *)
Lemma run_writes_agree (fault : nat -> bool) (ws : list write) (idx : nat) (d : db) :
  (forall i, idx <= i < idx + length ws -> fault i = false) ->
  run_writes fault idx ws d = run_writes no_fault idx ws d.
Proof.
  revert idx d. induction ws as [|w ws IH]; intros idx d Hf; simpl in *; [reflexivity|].
  rewrite (Hf idx) by lia.
  destruct (apply_write d w) as [d1|e]; [|reflexivity].
  apply IH. intros i Hi. apply Hf. lia.
Qed.

(** **** Columns *)



Lemma timestamptz_Some (t t' : Timestamp) : timestamptz t = Some t' -> t' = t.
Proof.
  unfold timestamptz. destruct (_ && _); congruence.
Qed.




Lemma clip_spec (n : nat) (s : string) :
  s = fst (clip n s) +:+ snd (clip n s) /\ chars (fst (clip n s)) <= n.
Proof.
  revert n. induction s as [|c s IH]; intros n; simpl; [split; [reflexivity | lia]|].
  destruct (continuation c) eqn:Hc.
  - destruct (IH n) as [Hs Hn]. destruct (clip n s) as [kept excess]. simpl in *.
    rewrite Hc. split; [rewrite Hs at 1; reflexivity | exact Hn].
  - destruct n as [|k]; [split; [reflexivity | simpl; lia]|].
    destruct (IH k) as [Hs Hn]. destruct (clip k s) as [kept excess]. simpl in *.
    rewrite Hc. split; [rewrite Hs at 1; reflexivity | lia].
Qed.

(** What [VARCHAR(n)] keeps of a text is the text itself, or the text
    without spaces it ended with. *)
Lemma varchar_Some (n : nat) (s kept : string) :
  varchar n s = Some kept ->
  exists excess, s = kept +:+ excess /\ all_spaces excess = true /\ chars kept <= n.
Proof.
  unfold varchar. destruct (text s); [|discriminate].
  destruct (clip_spec n s) as [Hs Hn]. destruct (clip n s) as [k excess]. simpl in *.
  destruct (all_spaces excess) eqn:He; [|discriminate].
  intros [= <-]. exists excess. auto.
Qed.




(** **** Values that fit are stored as they are *)






(** **** Rows and values *)

Lemma store_idea_row_of (aid : Uuid) (now : Timestamp) (id : Uuid) (i : Idea) :
  timestamptz now = Some now ->
  store_idea_row (idea_row_of aid now id i) = idea_row_of aid now id <$> store_idea i.
Proof.
  intros Hnow. unfold store_idea_row, store_idea. simpl.
  destruct (text (i_content i)); simpl; [|reflexivity].
  destruct (nullable (varchar 100) (i_category i)); simpl; [|reflexivity].
  destruct (nullable integer (i_priority i)); simpl; [|reflexivity].
  rewrite Hnow. reflexivity.
Qed.

Lemma store_task_row_of (aid : Uuid) (now : Timestamp) (id : Uuid) (t : Task) :
  timestamptz now = Some now ->
  store_task_row (task_row_of aid now id t) = task_row_of aid now id <$> store_task t.
Proof.
  intros Hnow. unfold store_task_row, store_task. simpl.
  destruct (varchar 255 (t_title t)); simpl; [|reflexivity].
  destruct (nullable text (t_description t)); simpl; [|reflexivity].
  destruct (nullable timestamptz (t_due_date t)); simpl; [|reflexivity].
  rewrite Hnow. reflexivity.
Qed.

Lemma store_note_row_of (aid : Uuid) (now : Timestamp) (id : Uuid) (n : StructuredNote) :
  timestamptz now = Some now ->
  store_note_row (note_row_of aid now id n) = note_row_of aid now id <$> store_note n.
Proof.
  intros Hnow. unfold store_note_row, store_note. simpl.
  destruct (varchar 255 (n_title n)); simpl; [|reflexivity].
  destruct (text (n_content n)); simpl; [|reflexivity].
  destruct (text_array (n_tags n)); simpl; [|reflexivity].
  rewrite Hnow. reflexivity.
Qed.

Lemma store_analysis_row_of (aid sid : Uuid) (now : Timestamp) (r : AnalysisResult) :
  store_analysis_row (analysis_row_of aid sid now r)
  = timestamptz now ≫= fun now' => analysis_row_of aid sid now' <$> store_scalars r.
Proof.
  unfold store_analysis_row, store_scalars. simpl.
  destruct (nullable (varchar 255) (a_title r)); simpl;
    [|destruct (timestamptz now); reflexivity].
  destruct (nullable text (a_summary r)); simpl;
    [|destruct (timestamptz now); reflexivity].
  destruct (varchar 50 (a_provider r)); simpl;
    [|destruct (timestamptz now); reflexivity].
  destruct (nullable (varchar 100) (a_model_version r)); simpl;
    [|destruct (timestamptz now); reflexivity].
  destruct (timestamptz now); simpl; [|reflexivity].
  destruct (nullable integer (a_processing_time_ms r)); reflexivity.
Qed.

(** **** Inserting the rows of a collection

    Without failures, rows with fresh consecutive identifiers that refer to
    an analysis that is there are all inserted, in order and as the columns
    keep them, unless a column refuses one of them. *)
Lemma insert_ideas (aid : Uuid) (now : Timestamp) (items : list Idea)
    (start idx : nat) (d : db) :
  timestamptz now = Some now ->
  has_analysis aid d = true ->
  (forall r, In r (ideas d) -> idea_id r < start) ->
  run_writes no_fault idx (map InsertIdea (assign (idea_row_of aid now) start items)) d
  = match mapM store_idea items with
    | Some stored => Ok (add_ideas (assign (idea_row_of aid now) start stored) d)
    | None => Err ConstraintViolation
    end.
Proof.
  intros Hnow. revert start idx d.
  induction items as [|y items IH]; intros start idx d Ha Hfresh.
  - simpl. unfold add_ideas. simpl. rewrite app_nil_r. destruct d; reflexivity.
  - cbn [assign map run_writes no_fault apply_write].
    rewrite (store_idea_row_of aid now start y Hnow).
    cbn [mapM]. destruct (store_idea y) as [y'|]; simpl; [|reflexivity].
    rewrite Ha. rewrite existsb_false.
    2:{ intros r Hr. apply Hfresh in Hr. apply Nat.eqb_neq. lia. }
    simpl. rewrite IH.
    + destruct (mapM store_idea items) as [stored|]; simpl; [|reflexivity].
      unfold add_ideas. simpl. rewrite <- app_assoc. reflexivity.
    + exact Ha.
    + simpl. intros r Hr. apply in_app_iff in Hr as [Hr|[<-|[]]].
      * apply Hfresh in Hr. lia.
      * simpl. lia.
Qed.

Lemma insert_tasks (aid : Uuid) (now : Timestamp) (items : list Task)
    (start idx : nat) (d : db) :
  timestamptz now = Some now ->
  has_analysis aid d = true ->
  (forall r, In r (tasks d) -> task_id r < start) ->
  run_writes no_fault idx (map InsertTask (assign (task_row_of aid now) start items)) d
  = match mapM store_task items with
    | Some stored => Ok (add_tasks (assign (task_row_of aid now) start stored) d)
    | None => Err ConstraintViolation
    end.
Proof.
  intros Hnow. revert start idx d.
  induction items as [|y items IH]; intros start idx d Ha Hfresh.
  - simpl. unfold add_tasks. simpl. rewrite app_nil_r. destruct d; reflexivity.
  - cbn [assign map run_writes no_fault apply_write].
    rewrite (store_task_row_of aid now start y Hnow).
    cbn [mapM]. destruct (store_task y) as [y'|]; simpl; [|reflexivity].
    rewrite Ha. rewrite existsb_false.
    2:{ intros r Hr. apply Hfresh in Hr. apply Nat.eqb_neq. lia. }
    simpl. rewrite IH.
    + destruct (mapM store_task items) as [stored|]; simpl; [|reflexivity].
      unfold add_tasks. simpl. rewrite <- app_assoc. reflexivity.
    + exact Ha.
    + simpl. intros r Hr. apply in_app_iff in Hr as [Hr|[<-|[]]].
      * apply Hfresh in Hr. lia.
      * simpl. lia.
Qed.

Lemma insert_notes (aid : Uuid) (now : Timestamp) (items : list StructuredNote)
    (start idx : nat) (d : db) :
  timestamptz now = Some now ->
  has_analysis aid d = true ->
  (forall r, In r (structured_notes d) -> note_id r < start) ->
  run_writes no_fault idx (map InsertNote (assign (note_row_of aid now) start items)) d
  = match mapM store_note items with
    | Some stored => Ok (add_notes (assign (note_row_of aid now) start stored) d)
    | None => Err ConstraintViolation
    end.
Proof.
  intros Hnow. revert start idx d.
  induction items as [|y items IH]; intros start idx d Ha Hfresh.
  - simpl. unfold add_notes. simpl. rewrite app_nil_r. destruct d; reflexivity.
  - cbn [assign map run_writes no_fault apply_write].
    rewrite (store_note_row_of aid now start y Hnow).
    cbn [mapM]. destruct (store_note y) as [y'|]; simpl; [|reflexivity].
    rewrite Ha. rewrite existsb_false.
    2:{ intros r Hr. apply Hfresh in Hr. apply Nat.eqb_neq. lia. }
    simpl. rewrite IH.
    + destruct (mapM store_note items) as [stored|]; simpl; [|reflexivity].
      unfold add_notes. simpl. rewrite <- app_assoc. reflexivity.
    + exact Ha.
    + simpl. intros r Hr. apply in_app_iff in Hr as [Hr|[<-|[]]].
      * apply Hfresh in Hr. lia.
      * simpl. lia.
Qed.

(** **** The database that holds an analysis *)

Lemma wf_saved (now : Timestamp) (sid : Uuid) (r : AnalysisResult) (d : db) :
  wf d -> wf (saved now sid r d).
Proof.
  intros [Hid Hkey Hi Ht Hn]. split; simpl; unfold identifiers_used.
  - intros a Ha. apply in_app_iff in Ha as [Ha|[<-|[]]].
    + apply List.filter_In in Ha as [Ha _]. apply Hid in Ha. lia.
    + simpl. lia.
  - intros a b Ha Hb Heq.
    apply in_app_iff in Ha as [Ha|[<-|[]]]; apply in_app_iff in Hb as [Hb|[<-|[]]].
    + apply List.filter_In in Ha as [Ha _]. apply List.filter_In in Hb as [Hb _]. auto.
    + apply List.filter_In in Ha as [Ha _]. apply Hid in Ha. simpl in Heq. lia.
    + apply List.filter_In in Hb as [Hb _]. apply Hid in Hb. simpl in Heq. lia.
    + reflexivity.
  - intros x Hx. apply in_app_iff in Hx as [Hx|Hx].
    + apply List.filter_In in Hx as [Hx _]. apply Hi in Hx. lia.
    + apply In_assign in Hx as (i & y & -> & Hrange). simpl. lia.
  - intros x Hx. apply in_app_iff in Hx as [Hx|Hx].
    + apply List.filter_In in Hx as [Hx _]. apply Ht in Hx. lia.
    + apply In_assign in Hx as (i & y & -> & Hrange). simpl. lia.
  - intros x Hx. apply in_app_iff in Hx as [Hx|Hx].
    + apply List.filter_In in Hx as [Hx _]. apply Hn in Hx. lia.
    + apply In_assign in Hx as (i & y & -> & Hrange). simpl. lia.
Qed.

(** The rows of the new analysis are the rows made from [r], in order. *)
Lemma rows_of_saved (now : Timestamp) (sid : Uuid) (r : AnalysisResult) (d : db) :
  wf d ->
  List.filter (fun a => analysis_id a =? uuid_supply d)
    (analysis_results (saved now sid r d))
  = [analysis_row_of (uuid_supply d) sid now r] /\
  List.filter (fun x => idea_analysis_id x =? uuid_supply d) (ideas (saved now sid r d))
  = assign (idea_row_of (uuid_supply d) now) (S (uuid_supply d)) (a_ideas r) /\
  List.filter (fun x => task_analysis_id x =? uuid_supply d) (tasks (saved now sid r d))
  = assign (task_row_of (uuid_supply d) now)
      (S (uuid_supply d) + length (a_ideas r)) (a_tasks r) /\
  List.filter (fun x => note_analysis_id x =? uuid_supply d)
    (structured_notes (saved now sid r d))
  = assign (note_row_of (uuid_supply d) now)
      (S (uuid_supply d) + length (a_ideas r) + length (a_tasks r))
      (a_structured_notes r).
Proof.
  intros Hwf. simpl. rewrite !List.filter_app.
  rewrite (filter_none _ (List.filter _ (analysis_results d))).
  2:{ intros x Hx. apply List.filter_In in Hx as [Hx _].
      apply (wf_analysis_id d Hwf) in Hx. apply Nat.eqb_neq. lia. }
  rewrite (filter_none _ (List.filter _ (ideas d))).
  2:{ intros x Hx. apply List.filter_In in Hx as [Hx _].
      apply (wf_idea d Hwf) in Hx. apply Nat.eqb_neq. lia. }
  rewrite (filter_none _ (List.filter _ (tasks d))).
  2:{ intros x Hx. apply List.filter_In in Hx as [Hx _].
      apply (wf_task d Hwf) in Hx. apply Nat.eqb_neq. lia. }
  rewrite (filter_none _ (List.filter _ (structured_notes d))).
  2:{ intros x Hx. apply List.filter_In in Hx as [Hx _].
      apply (wf_note d Hwf) in Hx. apply Nat.eqb_neq. lia. }
  rewrite !filter_all;
    try (intros x Hx; apply In_assign in Hx as (i & y & -> & _); apply Nat.eqb_refl).
  - repeat split; reflexivity.
  - intros x [<-|[]]. apply Nat.eqb_refl.
Qed.

Lemma session_rows_of_saved (now : Timestamp) (sid : Uuid) (r : AnalysisResult) (d : db) :
  List.filter (of_session sid) (analysis_results (saved now sid r d))
  = [analysis_row_of (uuid_supply d) sid now r].
Proof.
  simpl. rewrite List.filter_app.
  rewrite filter_filter_disjoint.
  2:{ intros a _ Ha. apply negb_true_iff in Ha. exact Ha. }
  simpl. unfold of_session. simpl. rewrite Nat.eqb_refl. reflexivity.
Qed.

Lemma assemble_saved (now : Timestamp) (sid : Uuid) (r : AnalysisResult) (d : db) :
  wf d ->
  assemble (analysis_row_of (uuid_supply d) sid now r) (saved now sid r d) = r.
Proof.
  intros Hwf.
  destruct (rows_of_saved now sid r d Hwf) as (_ & Hi & Ht & Hn).
  unfold assemble. cbn [analysis_id analysis_row_of analysis_title analysis_summary
    analysis_provider analysis_model_version analysis_processing_time_ms].
  rewrite Hi, Ht, Hn.
  rewrite (map_assign _ idea_of_row) by (intros i []; reflexivity).
  rewrite (map_assign _ task_of_row) by (intros i []; reflexivity).
  rewrite (map_assign _ note_of_row) by (intros i []; reflexivity).
  destruct r; reflexivity.
Qed.

Lemma findAnalysis_saved (now : Timestamp) (sid : Uuid) (r : AnalysisResult) (d : db) :
  wf d -> findAnalysis sid (saved now sid r d) = Some r.
Proof.
  intros Hwf. unfold findAnalysis. rewrite session_rows_of_saved.
  rewrite assemble_saved by exact Hwf. reflexivity.
Qed.


(** Every row of the new analysis is there. *)
Lemma rows_of_analysis_saved (now : Timestamp) (sid : Uuid) (r : AnalysisResult) (d : db) :
  wf d -> rows_of_analysis (uuid_supply d) (saved now sid r d) = identifiers_used r.
Proof.
  intros Hwf.
  destruct (rows_of_saved now sid r d Hwf) as (Ha & Hi & Ht & Hn).
  unfold rows_of_analysis. rewrite Ha, Hi, Ht, Hn, !length_assign.
  unfold identifiers_used. simpl. lia.
Qed.


(** No row of a well-formed database carries the next identifier. *)
Lemma rows_of_next_analysis (d : db) :
  wf d -> rows_of_analysis (uuid_supply d) d = 0.
Proof.
  intros Hwf. unfold rows_of_analysis. rewrite !filter_none; [reflexivity|..].
  - intros x Hx. apply (wf_note d Hwf) in Hx. apply Nat.eqb_neq. lia.
  - intros x Hx. apply (wf_task d Hwf) in Hx. apply Nat.eqb_neq. lia.
  - intros x Hx. apply (wf_idea d Hwf) in Hx. apply Nat.eqb_neq. lia.
  - intros x Hx. apply (wf_analysis_id d Hwf) in Hx. apply Nat.eqb_neq. lia.
Qed.

(** **** The statements of [saveAnalysis] *)

(** The first two statements: the analyses of the session go, and the new
    analysis row is written as the columns keep it. *)
Lemma run_analysis_row (now : Timestamp) (sid : Uuid) (r h : AnalysisResult) (d : db) :
  wf d -> has_session sid d = true -> timestamptz now = Some now ->
  store_scalars r = Some h ->
  run_writes no_fault 0
    [DeleteAnalysesOf sid; InsertAnalysis (analysis_row_of (uuid_supply d) sid now r)] d
  = Ok (add_analysis (analysis_row_of (uuid_supply d) sid now h)
          (delete_analyses (of_session sid) d)).
Proof.
  intros Hwf Hs Hnow Hh.
  cbn [run_writes no_fault apply_write].
  rewrite store_analysis_row_of, Hnow, Hh. simpl.
  change (has_session sid (delete_analyses (of_session sid) d))
    with (has_session sid d).
  rewrite Hs. unfold has_analysis. rewrite existsb_false; [reflexivity|].
  intros a Ha. simpl in Ha. apply List.filter_In in Ha as [Ha _].
  apply (wf_analysis_id d Hwf) in Ha. apply Nat.eqb_neq. lia.
Qed.

(** The working copy after the analysis row. *)
Lemma after_analysis_row (now : Timestamp) (sid : Uuid) (h : AnalysisResult) (d : db) :
  wf d ->
  let d1 := add_analysis (analysis_row_of (uuid_supply d) sid now h)
              (delete_analyses (of_session sid) d) in
  has_analysis (uuid_supply d) d1 = true /\
  (forall x, In x (ideas d1) -> idea_id x < S (uuid_supply d)) /\
  (forall x, In x (tasks d1) -> task_id x < S (uuid_supply d)) /\
  (forall x, In x (structured_notes d1) -> note_id x < S (uuid_supply d)).
Proof.
  intros Hwf d1. split; [|split; [|split]].
  - unfold has_analysis, d1. simpl. rewrite existsb_app. simpl.
    rewrite Nat.eqb_refl. apply orb_true_iff. right. reflexivity.
  - intros x Hx. simpl in Hx. apply List.filter_In in Hx as [Hx _].
    apply (wf_idea d Hwf) in Hx. lia.
  - intros x Hx. simpl in Hx. apply List.filter_In in Hx as [Hx _].
    apply (wf_task d Hwf) in Hx. lia.
  - intros x Hx. simpl in Hx. apply List.filter_In in Hx as [Hx _].
    apply (wf_note d Hwf) in Hx. lia.
Qed.

(** What [saveAnalysis] does when no statement is lost: on a session that
    exists, at an instant and with values the columns take, it commits the
    analysis as the columns keep it; otherwise it is refused. *)
Lemma saveAnalysis_no_fault (now : Timestamp) (sid : Uuid) (r : AnalysisResult) (d : db) :
  wf d ->
  saveAnalysis no_fault now sid r d
  = match (if has_session sid d then timestamptz now ≫= fun _ => store r else None) with
    | Some stored => (Ok (uuid_supply d), saved now sid stored d)
    | None => (Err ConstraintViolation, d)
    end.
Proof.
  intros Hwf. unfold saveAnalysis, transaction, saveAnalysis_writes.
  destruct (has_session sid d) eqn:Hs.
  2:{ cbn [run_writes no_fault apply_write].
      rewrite store_analysis_row_of.
      destruct (timestamptz now); simpl; [|reflexivity].
      destruct (store_scalars r); simpl; [|reflexivity].
      change (has_session sid (delete_analyses (of_session sid) d))
        with (has_session sid d).
      rewrite Hs. reflexivity. }
  destruct (timestamptz now) as [now'|] eqn:Hnow.
  2:{ cbn [run_writes no_fault apply_write].
      rewrite store_analysis_row_of, Hnow. reflexivity. }
  apply timestamptz_Some in Hnow as Heq. subst now'.
  cbn [mbind option_bind]. unfold store.
  destruct (store_scalars r) as [h|] eqn:Hh.
  2:{ cbn [run_writes no_fault apply_write].
      rewrite store_analysis_row_of, Hnow, Hh. reflexivity. }
  cbn [mbind option_bind].
  destruct (after_analysis_row now sid h d Hwf) as (Ha1 & Hfi & Hft & Hfn).
  match goal with
  | |- context [run_writes no_fault 0 (?a :: ?b :: ?rest) d] =>
      change (a :: b :: rest) with ([a; b] ++ rest)
  end.
  rewrite run_writes_app, (run_analysis_row now sid r h d Hwf Hs Hnow Hh).
  rewrite run_writes_app, insert_ideas; [|exact Hnow|exact Ha1|exact Hfi].
  destruct (mapM store_idea (a_ideas r)) as [ideas'|] eqn:Hi; [|reflexivity].
  cbn [mbind option_bind].
  rewrite run_writes_app, insert_tasks; [|exact Hnow|exact Ha1|].
  2:{ intros x Hx. apply Hft in Hx. lia. }
  destruct (mapM store_task (a_tasks r)) as [tasks'|] eqn:Ht; [|reflexivity].
  cbn [mbind option_bind].
  rewrite insert_notes; [|exact Hnow|exact Ha1|].
  2:{ intros x Hx. apply Hfn in Hx. lia. }
  destruct (mapM store_note (a_structured_notes r)) as [notes'|] eqn:Hn; [|reflexivity].
  cbn [mbind option_bind].
  apply length_mapM in Hi, Ht, Hn.
  unfold saved, with_supply, identifiers_used, add_notes, add_tasks, add_ideas,
    add_analysis.
  cbn [sessions audio_files transcripts analysis_results ideas tasks structured_notes
    uuid_supply a_ideas a_tasks a_structured_notes delete_analyses].
  rewrite <- Hi, <- Ht, <- Hn. reflexivity.
Qed.

Lemma saveAnalysis_rollback (fault : nat -> bool) (now : Timestamp) (sid : Uuid)
    (r : AnalysisResult) (d d' : db) (e : StorageError) :
  saveAnalysis fault now sid r d = (Err e, d') -> d' = d.
Proof.
  unfold saveAnalysis, transaction.
  destruct (run_writes fault 0 (saveAnalysis_writes now sid r d) d); intros H;
    inversion H; reflexivity.
Qed.

Lemma identifiers_used_store (r stored : AnalysisResult) :
  store r = Some stored -> identifiers_used stored = identifiers_used r.
Proof.
  unfold store. destruct (store_scalars r) as [h|]; [|discriminate].
  cbn [mbind option_bind].
  destruct (mapM store_idea (a_ideas r)) as [ideas'|] eqn:Hi; [|discriminate].
  cbn [mbind option_bind].
  destruct (mapM store_task (a_tasks r)) as [tasks'|] eqn:Ht; [|discriminate].
  cbn [mbind option_bind].
  destruct (mapM store_note (a_structured_notes r)) as [notes'|] eqn:Hn; [|discriminate].
  cbn [mbind option_bind]. intros [= <-].
  apply length_mapM in Hi, Ht, Hn.
  unfold identifiers_used. cbn [a_ideas a_tasks a_structured_notes]. lia.
Qed.

(** A call that succeeds lost no statement. *)
Lemma saveAnalysis_completed (fault : nat -> bool) (now : Timestamp) (sid : Uuid)
    (r : AnalysisResult) (d d' : db) (aid : Uuid) :
  saveAnalysis fault now sid r d = (Ok aid, d') ->
  saveAnalysis no_fault now sid r d = (Ok aid, d').
Proof.
  unfold saveAnalysis, transaction.
  destruct (run_writes fault 0 (saveAnalysis_writes now sid r d) d) as [d1|e] eqn:Hrun;
    [|discriminate].
  rewrite (run_writes_completed _ _ _ _ _ Hrun). auto.
Qed.

Lemma saveAnalysis_agree (fault : nat -> bool) (now : Timestamp) (sid : Uuid)
    (r : AnalysisResult) (d : db) :
  (forall i, i < length (saveAnalysis_writes now sid r d) -> fault i = false) ->
  saveAnalysis fault now sid r d = saveAnalysis no_fault now sid r d.
Proof.
  intros Hf. unfold saveAnalysis, transaction.
  rewrite (run_writes_agree fault); [reflexivity|].
  intros i Hi. apply Hf. lia.
Qed.

(** The statements up to the last idea. *)
Lemma writes_up_to_ideas (now : Timestamp) (sid : Uuid) (r : AnalysisResult) (d : db) :
  firstn (2 + length (a_ideas r)) (saveAnalysis_writes now sid r d)
  = [DeleteAnalysesOf sid; InsertAnalysis (analysis_row_of (uuid_supply d) sid now r)]
    ++ map InsertIdea
         (assign (idea_row_of (uuid_supply d) now) (S (uuid_supply d)) (a_ideas r)).
Proof.
  unfold saveAnalysis_writes. cbn [Nat.add firstn app]. do 2 f_equal.
  apply take_app_length'. rewrite length_map, length_assign. reflexivity.
Qed.

(** The working copy when the ideas have been written. *)
Lemma staged_ideas (now : Timestamp) (sid : Uuid) (r stored : AnalysisResult) (d : db) :
  wf d -> has_session sid d = true -> timestamptz now = Some now ->
  store r = Some stored ->
  exists staged,
    run_writes no_fault 0
      (firstn (2 + length (a_ideas r)) (saveAnalysis_writes now sid r d)) d
    = Ok staged /\
    rows_of_analysis (uuid_supply d) staged = 1 + length (a_ideas r).
Proof.
  intros Hwf Hs Hnow Hstore. unfold store in Hstore.
  destruct (store_scalars r) as [h|] eqn:Hh; [|discriminate].
  cbn [mbind option_bind] in Hstore.
  destruct (mapM store_idea (a_ideas r)) as [ideas'|] eqn:Hi; [|discriminate].
  clear Hstore.
  destruct (after_analysis_row now sid h d Hwf) as (Ha1 & Hfi & _ & _).
  rewrite writes_up_to_ideas, run_writes_app.
  rewrite (run_analysis_row now sid r h d Hwf Hs Hnow Hh).
  rewrite insert_ideas, Hi; [|exact Hnow|exact Ha1|exact Hfi].
  eexists. split; [reflexivity|].
  pose (partial := {| a_title := a_title h; a_summary := a_summary h;
                      a_provider := a_provider h;
                      a_model_version := a_model_version h;
                      a_processing_time_ms := a_processing_time_ms h;
                      a_ideas := ideas'; a_tasks := []; a_structured_notes := [] |}).
  apply length_mapM in Hi. rewrite Hi.
  transitivity (rows_of_analysis (uuid_supply d) (saved now sid partial d)).
  - unfold rows_of_analysis, saved.
    cbn [analysis_results ideas tasks structured_notes add_ideas add_analysis
      delete_analyses assign a_ideas a_tasks a_structured_notes partial].
    rewrite !app_nil_r. reflexivity.
  - rewrite rows_of_analysis_saved by exact Hwf.
    unfold identifiers_used, partial. simpl. lia.
Qed.

Lemma wf_empty : wf empty.
Proof.
  split; simpl; intros; contradiction.
Qed.

Lemma wf_createSession (title : string) (now : Timestamp) (duration : Z) (d : db) :
  wf d -> wf (snd (createSession title now duration d)).
Proof.
  intros Hwf. unfold createSession.
  destruct (varchar 255 title); [|exact Hwf].
  destruct (timestamptz now); [|exact Hwf].
  destruct (bigint duration); [|exact Hwf].
  destruct Hwf as [Hid Hkey Hi Ht Hn]. split; simpl; auto.
  - intros a Ha. apply Hid in Ha. lia.
  - intros x Hx. apply Hi in Hx. lia.
  - intros x Hx. apply Ht in Hx. lia.
  - intros x Hx. apply Hn in Hx. lia.
Qed.

(** C1.  [saveAnalysis] is all or nothing.  When it succeeds, the database
    holds the analysis as the columns keep it, with every one of its ideas,
    tasks and structured notes: reading the session gives it back, and as
    many rows carry its identifier as it has parts.  When it fails, for
    whatever reason, the database is the one it was given, which holds no
    row with that identifier.  It fails when any one of its statements is
    lost, and succeeds when none is, the session exists and the columns
    take the values.  In particular, when the statement after the last idea
    is lost, the analysis row and the ideas had been written to the working
    copy, and none of them is in the database afterwards. *)
Theorem saveAnalysis_atomic (fault : nat -> bool) (now : Timestamp) (sid : Uuid)
    (r : AnalysisResult) (d : db) :
  wf d ->
  (forall aid d', saveAnalysis fault now sid r d = (Ok aid, d') ->
     exists stored,
       store r = Some stored /\
       aid = uuid_supply d /\
       d' = saved now sid stored d /\
       findAnalysis sid d' = Some stored /\
       rows_of_analysis aid d' = identifiers_used r) /\
  (forall e d', saveAnalysis fault now sid r d = (Err e, d') ->
     d' = d /\ rows_of_analysis (uuid_supply d) d' = 0) /\
  (forall i, i < length (saveAnalysis_writes now sid r d) -> fault i = true ->
     exists e, saveAnalysis fault now sid r d = (Err e, d)) /\
  (forall stored,
     (forall i, i < length (saveAnalysis_writes now sid r d) -> fault i = false) ->
     has_session sid d = true -> timestamptz now = Some now -> store r = Some stored ->
     saveAnalysis fault now sid r d = (Ok (uuid_supply d), saved now sid stored d)) /\
  (forall stored,
     has_session sid d = true -> timestamptz now = Some now -> store r = Some stored ->
     2 + length (a_ideas r) < length (saveAnalysis_writes now sid r d) ->
     fault (2 + length (a_ideas r)) = true ->
     (forall i, i < 2 + length (a_ideas r) -> fault i = false) ->
     exists staged,
       run_writes fault 0
         (firstn (2 + length (a_ideas r)) (saveAnalysis_writes now sid r d)) d
       = Ok staged /\
       rows_of_analysis (uuid_supply d) staged = 1 + length (a_ideas r) /\
       saveAnalysis fault now sid r d = (Err ConnectionFailure, d) /\
       rows_of_analysis (uuid_supply d) d = 0).
Proof.
  intros Hwf. split; [|split; [|split; [|split]]].
  - intros aid d' H. apply saveAnalysis_completed in H.
    rewrite (saveAnalysis_no_fault now sid r d Hwf) in H.
    destruct (has_session sid d); [|discriminate].
    destruct (timestamptz now); [|discriminate].
    cbn [mbind option_bind] in H.
    destruct (store r) as [stored|] eqn:Hstore; [|discriminate].
    injection H as <- <-. exists stored.
    split; [reflexivity|]. split; [reflexivity|]. split; [reflexivity|].
    split; [apply findAnalysis_saved, Hwf|].
    rewrite rows_of_analysis_saved by exact Hwf.
    apply identifiers_used_store, Hstore.
  - intros e d' H. apply saveAnalysis_rollback in H. subst d'.
    split; [reflexivity | apply rows_of_next_analysis, Hwf].
  - intros i Hi Hf.
    destruct (run_writes_fault fault (saveAnalysis_writes now sid r d) 0 i d)
      as [e He]; [lia | exact Hf |].
    exists e. unfold saveAnalysis, transaction. rewrite He. reflexivity.
  - intros stored Hf Hs Hnow Hstore.
    rewrite (saveAnalysis_agree fault now sid r d Hf).
    rewrite (saveAnalysis_no_fault now sid r d Hwf), Hs, Hnow.
    cbn [mbind option_bind]. rewrite Hstore. reflexivity.
  - intros stored Hs Hnow Hstore Hk Hlost Hbefore.
    destruct (staged_ideas now sid r stored d Hwf Hs Hnow Hstore) as (staged & Hrun & Hrows).
    assert (Hlen : length (firstn (2 + length (a_ideas r))
                             (saveAnalysis_writes now sid r d))
                   = 2 + length (a_ideas r)).
    { apply firstn_length_le. lia. }
    assert (Hprefix :
      run_writes fault 0
        (firstn (2 + length (a_ideas r)) (saveAnalysis_writes now sid r d)) d
      = Ok staged).
    { rewrite (run_writes_agree fault); [exact Hrun|].
      intros i Hi. apply Hbefore. lia. }
    exists staged. split; [exact Hprefix|]. split; [exact Hrows|].
    split; [|apply rows_of_next_analysis, Hwf].
    unfold saveAnalysis, transaction.
    rewrite <- (firstn_skipn (2 + length (a_ideas r)) (saveAnalysis_writes now sid r d))
      at 1.
    rewrite run_writes_app, Hprefix, Hlen.
    destruct (skipn (2 + length (a_ideas r)) (saveAnalysis_writes now sid r d))
      as [|w rest] eqn:Hrest.
    + exfalso.
      pose proof (length_skipn (2 + length (a_ideas r))
                    (saveAnalysis_writes now sid r d)) as Hl.
      rewrite Hrest in Hl. cbn [length] in Hl. lia.
    + cbn [run_writes]. rewrite Nat.add_0_l, Hlost. reflexivity.
Qed.


(** C7.  Deleting a session removes its row and every row that reaches it
    through the foreign keys: its audio files, transcripts and analyses, and
    the ideas, tasks and structured notes of those analyses.  What the
    database holds about any other session is unchanged. *)
Theorem deleteSession_cascade_frame (sid : Uuid) (d : db) :
  wf d ->
  graph_of sid (deleteSession sid d) = empty_graph /\
  findSession sid (deleteSession sid d) = None /\
  (forall r, In r (g_ideas (graph_of sid d)) ->
             ~ In r (ideas (deleteSession sid d))) /\
  (forall r, In r (g_tasks (graph_of sid d)) ->
             ~ In r (tasks (deleteSession sid d))) /\
  (forall r, In r (g_structured_notes (graph_of sid d)) ->
             ~ In r (structured_notes (deleteSession sid d))) /\
  (forall sid', sid' <> sid ->
     graph_of sid' (deleteSession sid d) = graph_of sid' d /\
     findSession sid' (deleteSession sid d) = findSession sid' d) /\
  wf (deleteSession sid d).
Proof.
  intros Hwf.
  split; [apply graph_of_deleted|].
  split; [apply findSession_deleted|].
  split; [|split; [|split]].
  - intros r Hr Hin. simpl in Hr, Hin.
    apply List.filter_In in Hr as [_ Hmine].
    apply List.filter_In in Hin as [_ Hkept].
    unfold analysis_ids_of in Hmine. rewrite Hmine in Hkept. discriminate.
  - intros r Hr Hin. simpl in Hr, Hin.
    apply List.filter_In in Hr as [_ Hmine].
    apply List.filter_In in Hin as [_ Hkept].
    unfold analysis_ids_of in Hmine. rewrite Hmine in Hkept. discriminate.
  - intros r Hr Hin. simpl in Hr, Hin.
    apply List.filter_In in Hr as [_ Hmine].
    apply List.filter_In in Hin as [_ Hkept].
    unfold analysis_ids_of in Hmine. rewrite Hmine in Hkept. discriminate.
  - split.
    + intros sid' Hne. split.
      * apply graph_of_other; assumption.
      * apply findSession_other; assumption.
    + apply wf_deleteSession, Hwf.
Qed.

(** *** A worked database *)

Definition standup : AnalysisResult :=
  {| a_title := Some "Standup";
     a_summary := Some "Parser work continues; release on Friday";
     a_provider := "ollama";
     a_model_version := Some "llama3";
     a_processing_time_ms := Some 1200%Z;
     a_ideas := [ {| i_content := "pair on the parser"; i_category := None;
                     i_priority := None |};
                  {| i_content := "cache the prompts"; i_category := Some "perf";
                     i_priority := Some 2%Z |} ];
     a_tasks := [ {| t_title := "Tag the release"; t_description := None;
                     t_priority := High; t_status := Pending; t_due_date := None |} ];
     a_structured_notes :=
       [ {| n_title := "Release"; n_content := "Friday";
            n_tags := ["release"; "date"]; n_note_type := Decision |} ] |}.

Definition retro : AnalysisResult :=
  {| a_title := Some "Retro";
     a_summary := Some "Fewer meetings";
     a_provider := "ollama";
     a_model_version := None;
     a_processing_time_ms := None;
     a_ideas := [ {| i_content := "no-meeting Wednesday"; i_category := None;
                     i_priority := None |} ];
     a_tasks := [];
     a_structured_notes := [] |}.

(** One session (identifier 0) and nothing else. *)
Definition db_one_session : db :=
  snd (createSession "Standup" 1000%Z 60000%Z empty).

(** Two sessions, 0 and 6, each with an analysis. *)
Definition db_two_sessions : db :=
  saved 4000%Z 6 retro
    (snd (createSession "Retro" 3000%Z 90000%Z (saved 2000%Z 0 standup db_one_session))).

Lemma wf_db_one_session : wf db_one_session.
Proof.
  apply wf_createSession, wf_empty.
Qed.

Lemma wf_db_two_sessions : wf db_two_sessions.
Proof.
  apply wf_saved, wf_createSession, wf_saved, wf_db_one_session.
Qed.

(** The connection is lost at the first statement after the ideas. *)
Definition lose_after_ideas (r : AnalysisResult) (n : nat) : bool :=
  n =? 2 + length (a_ideas r).

Lemma saveAnalysis_atomic_witness :
  saveAnalysis no_fault 2000%Z 0 standup db_one_session
  = (Ok 1, saved 2000%Z 0 standup db_one_session) /\
  rows_of_analysis 1 (saved 2000%Z 0 standup db_one_session) = 5 /\
  exists staged,
    run_writes (lose_after_ideas standup) 0
      (firstn 4 (saveAnalysis_writes 2000%Z 0 standup db_one_session)) db_one_session
    = Ok staged /\
    rows_of_analysis 1 staged = 3 /\
    saveAnalysis (lose_after_ideas standup) 2000%Z 0 standup db_one_session
    = (Err ConnectionFailure, db_one_session) /\
    rows_of_analysis 1 db_one_session = 0.
Proof.
  destruct (saveAnalysis_atomic no_fault 2000%Z 0 standup db_one_session
              wf_db_one_session) as (Hall & _ & _ & Hsaved & _).
  destruct (saveAnalysis_atomic (lose_after_ideas standup) 2000%Z 0 standup db_one_session
              wf_db_one_session) as (_ & _ & _ & _ & Hlost).
  assert (Hcommit : saveAnalysis no_fault 2000%Z 0 standup db_one_session
                    = (Ok 1, saved 2000%Z 0 standup db_one_session)).
  { apply (Hsaved standup); [reflexivity | | |]; vm_compute; reflexivity. }
  split; [exact Hcommit|]. split.
  - destruct (Hall _ _ Hcommit) as (stored & _ & _ & _ & _ & Hrows). exact Hrows.
  - apply (Hlost standup).
    + vm_compute. reflexivity.
    + vm_compute. reflexivity.
    + vm_compute. reflexivity.
    + apply Nat.ltb_lt. vm_compute. reflexivity.
    + vm_compute. reflexivity.
    + intros i Hi. apply Nat.eqb_neq. simpl in *. lia.
Defined.









Lemma deleteSession_cascade_frame_witness :
  graph_of 0 (deleteSession 0 db_two_sessions) = empty_graph /\
  graph_of 6 (deleteSession 0 db_two_sessions) = graph_of 6 db_two_sessions /\
  findSession 6 (deleteSession 0 db_two_sessions) = findSession 6 db_two_sessions.
Proof.
  destruct (deleteSession_cascade_frame 0 db_two_sessions wf_db_two_sessions)
    as (Hgone & _ & _ & _ & _ & Hother & _).
  destruct (Hother 6) as [Hgraph Hfind]; [discriminate|].
  split; [exact Hgone|]. split; [exact Hgraph | exact Hfind].
Defined.

Example db_two_sessions_content :
  map session_id (sessions db_two_sessions) = [0; 6] /\
  findAnalysis 0 db_two_sessions = Some standup /\
  findAnalysis 6 db_two_sessions = Some retro /\
  length (ideas db_two_sessions) = 3 /\
  length (ideas (deleteSession 0 db_two_sessions)) = 1 /\
  length (tasks (deleteSession 0 db_two_sessions)) = 0 /\
  findAnalysis 6 (deleteSession 0 db_two_sessions) = Some retro.
Proof.
  repeat split; vm_compute; reflexivity.
Qed.

End Repository.

(** ** More of [web/src/utils/index.ts]: what [formatTime] displays *)

Module UtilsIndex.

Import DataTransform.

(** Reading back a field of decimal digits, leading zeros allowed. *)
Definition read_digits (s : string) : Z :=
  match NilZero.int_of_string s with
  | Some d => Z.of_int d
  | None => 0
  end.

(** The seconds field of [formatTime]. *)
Definition seconds_field (timeInSeconds : Z) : string :=
  JS.padStart0 2 (JS.toString (Z.rem timeInSeconds 60)).

Lemma toString_inj (a b : Z) : JS.toString a = JS.toString b -> a = b.
Proof.
  unfold JS.toString. intros H.
  assert (Hnil : forall z, Z.to_int z <> Decimal.Pos Decimal.Nil
                           /\ Z.to_int z <> Decimal.Neg Decimal.Nil).
  { intros [|p|p]; simpl; split; try discriminate;
      intros [= Hp]; exact (DecimalPos.Unsigned.to_uint_nonnil p Hp). }
  apply DecimalZ.to_int_inj.
  assert (Some (Z.to_int a) = Some (Z.to_int b)) as [= ->]; [|reflexivity].
  rewrite <- (NilZero.isi (Z.to_int a)) by apply Hnil.
  rewrite <- (NilZero.isi (Z.to_int b)) by apply Hnil.
  rewrite H. reflexivity.
Qed.

Lemma length_append (s t : string) :
  String.length (s +:+ t) = (String.length s + String.length t)%nat.
Proof.
  induction s as [|c s IH]; simpl; [reflexivity|]. rewrite IH. reflexivity.
Qed.

(** Two concatenations whose first parts are as long as each other are
    equal part by part. *)
Lemma append_inj_length (s1 s2 t1 t2 : string) :
  String.length s1 = String.length s2 -> s1 +:+ t1 = s2 +:+ t2 ->
  s1 = s2 /\ t1 = t2.
Proof.
  revert s2. induction s1 as [|c s1 IH]; intros [|c2 s2]; simpl;
    try discriminate.
  - intros _ H. split; [reflexivity | exact H].
  - intros [= Hlen] [= -> Happ]. destruct (IH s2 Hlen Happ) as [-> ->].
    split; reflexivity.
Qed.

(** The seconds of a minute, 0 to 59, are shown with two characters, from
    which they can be read back. *)
Lemma seconds_two_digits (n : nat) :
  (n < 60)%nat ->
  String.length (JS.padStart0 2 (JS.toString (Z.of_nat n))) = 2%nat /\
  read_digits (JS.padStart0 2 (JS.toString (Z.of_nat n))) = Z.of_nat n.
Proof.
  intros Hn.
  do 60 (destruct n as [|n]; [split; vm_compute; reflexivity|]).
  lia.
Qed.

Lemma seconds_field_nonneg (t : Z) :
  0 <= t ->
  String.length (seconds_field t) = 2%nat /\ read_digits (seconds_field t) = t mod 60.
Proof.
  intros Ht. unfold seconds_field.
  rewrite Z.rem_mod_nonneg by lia.
  pose proof (Z.mod_pos_bound t 60 ltac:(lia)) as Hb.
  rewrite <- (Z2Nat.id (t mod 60)) by lia.
  apply seconds_two_digits. lia.
Qed.

(** For a duration in whole seconds that is not negative and is a safe
    integer, [formatTime] shows the whole minutes, a colon, and the
    remaining seconds in exactly two characters; and two such durations
    that are displayed alike are equal. *)
Theorem formatTime_nonneg (a b : Z) :
  0 <= a <= JS.MAX_SAFE_INTEGER -> 0 <= b <= JS.MAX_SAFE_INTEGER ->
  formatTime a = JS.toString (a / 60) +:+ ":" +:+ seconds_field a /\
  String.length (seconds_field a) = 2%nat /\
  read_digits (seconds_field a) = a mod 60 /\
  (formatTime a = formatTime b -> a = b).
Proof.
  intros [Ha _] [Hb _].
  destruct (seconds_field_nonneg a Ha) as [Hla Hra].
  destruct (seconds_field_nonneg b Hb) as [Hlb Hrb].
  split; [reflexivity|]. split; [exact Hla|]. split; [exact Hra|].
  change (formatTime a) with (JS.toString (a / 60) +:+ ":" +:+ seconds_field a).
  change (formatTime b) with (JS.toString (b / 60) +:+ ":" +:+ seconds_field b).
  intros Heq.
  assert (Hlen : String.length (JS.toString (a / 60))
                 = String.length (JS.toString (b / 60))).
  { apply (f_equal String.length) in Heq.
    rewrite !length_append in Heq. simpl in Heq. lia. }
  destruct (append_inj_length _ _ _ _ Hlen Heq) as [Hmin Hrest].
  apply toString_inj in Hmin.
  simpl in Hrest. injection Hrest as Hsec.
  change (seconds_field a = seconds_field b) in Hsec.
  assert (Hmod : a mod 60 = b mod 60) by (rewrite <- Hra, <- Hrb, Hsec; reflexivity).
  rewrite (Z.div_mod a 60), (Z.div_mod b 60) by lia.
  rewrite Hmin, Hmod. reflexivity.
Qed.

Lemma formatTime_nonneg_witness :
  formatTime 125 = "2:05"%string /\ (formatTime 125 = formatTime 125 -> 125 = 125).
Proof.
  destruct (formatTime_nonneg 125 125) as (Hshape & _ & _ & Hinj);
    [unfold JS.MAX_SAFE_INTEGER; lia | unfold JS.MAX_SAFE_INTEGER; lia |].
  split; [rewrite Hshape; vm_compute; reflexivity | exact Hinj].
Defined.

End UtilsIndex.

(** ** More of [web/src/utils/dataTransform.ts]: sections and categories *)

Module DataTransformMore.

Import DataTransform.

(** *** [getCategoriesFromSessions] *)

(** The body of the [forEach]: the category a session contributes. *)
Definition categoryOf (session : VoiceSession) : string :=
  match vs_analysis session with
  | None => "Ideas"
  | Some a =>
      match ar_structured_notes a with
      | [] => "Ideas"
      | first :: _ =>
          let noteType := sn_note_type first in
          if String.eqb noteType "Meeting" then "Meeting"
          else if String.eqb noteType "Brainstorm" then "Ideas"
          else if String.eqb noteType "Decision" then "Decision"
          else if String.eqb noteType "Action" then "Tasks"
          else if String.eqb noteType "Reference" then "Reference"
          else "Ideas"
      end
  end.

(** [Set.prototype.add]: a [Set] keeps its members in insertion order. *)
Definition set_add (x : string) (members : list string) : list string :=
  if existsb (String.eqb x) members then members else members ++ [x].

(** [Array.prototype.sort] without a comparator: ascending order of the
    code units, which for the labels above is the order of their bytes. *)
Fixpoint insert_sorted (x : string) (l : list string) : list string :=
  match l with
  | [] => [x]
  | y :: rest => if String.leb x y then x :: l else y :: insert_sorted x rest
  end.

Definition sort_strings (l : list string) : list string :=
  fold_right insert_sorted [] l.

Definition getCategoriesFromSessions (sessions : list VoiceSession) : list string :=
  let categories :=
    fold_left (fun set session => set_add (categoryOf session) set) sessions [] in
  sort_strings categories.

Lemma set_add_In (x y : string) (l : list string) :
  In y (set_add x l) <-> y = x \/ In y l.
Proof.
  unfold set_add. destruct (existsb (String.eqb x) l) eqn:E.
  - split; [auto|]. intros [->|H]; [|exact H].
    apply existsb_exists in E as (z & Hz & Heq).
    apply String.eqb_eq in Heq. subst. exact Hz.
  - rewrite in_app_iff. simpl. intuition.
Qed.

Lemma set_add_NoDup (x : string) (l : list string) :
  NoDup l -> NoDup (set_add x l).
Proof.
  intros Hl. unfold set_add. destruct (existsb (String.eqb x) l) eqn:E; [exact Hl|].
  apply NoDup_app. split; [exact Hl|]. split.
  - intros y Hy Hin. apply list_elem_of_In in Hy, Hin. destruct Hin as [Heq|[]].
    subst y.
    assert (existsb (String.eqb x) l = true).
    { apply existsb_exists. exists x. split; [exact Hy | apply String.eqb_refl]. }
    congruence.
  - apply NoDup_singleton.
Qed.

Lemma fold_set_add_In (sessions : list VoiceSession) (acc : list string) (c : string) :
  In c (fold_left (fun set session => set_add (categoryOf session) set) sessions acc)
  <-> In c acc \/ exists s, In s sessions /\ categoryOf s = c.
Proof.
  revert acc. induction sessions as [|s sessions IH]; intros acc; simpl.
  - split; [auto | intros [H|(s & [] & _)]; exact H].
  - rewrite IH, set_add_In. split.
    + intros [[->|H]|(s' & Hs' & Hc)]; eauto.
    + intros [H|(s' & [->|Hs'] & Hc)]; eauto.
Qed.

Lemma fold_set_add_NoDup (sessions : list VoiceSession) (acc : list string) :
  NoDup acc ->
  NoDup (fold_left (fun set session => set_add (categoryOf session) set) sessions acc).
Proof.
  revert acc. induction sessions as [|s sessions IH]; intros acc Hacc; simpl.
  - exact Hacc.
  - apply IH, set_add_NoDup, Hacc.
Qed.

Lemma insert_sorted_perm (x : string) (l : list string) :
  Permutation (insert_sorted x l) (x :: l).
Proof.
  induction l as [|y l IH]; simpl; [reflexivity|].
  destruct (String.leb x y); [reflexivity|].
  rewrite IH. apply perm_swap.
Qed.

Lemma sort_strings_perm (l : list string) : Permutation (sort_strings l) l.
Proof.
  induction l as [|x l IH]; simpl; [reflexivity|].
  rewrite insert_sorted_perm, IH. reflexivity.
Qed.

Lemma insert_sorted_Sorted (x : string) (l : list string) :
  Sorted (fun a b => String.leb a b = true) l ->
  Sorted (fun a b => String.leb a b = true) (insert_sorted x l).
Proof.
  induction 1 as [|y l Hl IH Hhd]; simpl.
  - repeat constructor.
  - destruct (String.leb x y) eqn:E.
    + constructor; [constructor; assumption | constructor; exact E].
    + constructor; [exact IH|].
      assert (Hyx : String.leb y x = true)
        by (destruct (String.leb_total x y); congruence).
      destruct l as [|z l]; simpl; [constructor; exact Hyx|].
      destruct (String.leb x z); constructor; [exact Hyx|].
      inversion Hhd; assumption.
Qed.

Lemma sort_strings_Sorted (l : list string) :
  Sorted (fun a b => String.leb a b = true) (sort_strings l).
Proof.
  induction l as [|x l IH]; simpl; [constructor|].
  apply insert_sorted_Sorted, IH.
Qed.

(** The two copies of the note-type switch agree. *)
Lemma categoryOf_getTag (s : VoiceSession) : categoryOf s = getTag (vs_analysis s).
Proof.
  unfold categoryOf, getTag, tagOfNoteType.
  destruct (vs_analysis s) as [a|]; [|reflexivity].
  destruct (ar_structured_notes a); reflexivity.
Qed.

(** What a note keeps of its session. *)
Lemma voiceSessionToNote_Some (isoDay : string -> option string) (s : VoiceSession)
    (note : Note) :
  voiceSessionToNote isoDay s = Some note ->
  isoDay (vs_timestamp s) = Some (note_date note) /\
  note_id note = vs_id s /\
  note_tag note = getTag (vs_analysis s).
Proof.
  unfold voiceSessionToNote. destruct (isoDay (vs_timestamp s)); [|discriminate].
  intros [= <-]. repeat split.
Qed.

(** The notes of a list of sessions, when they are made, are the notes of
    the sessions one by one. *)
Lemma voiceSessionsToNotes_Some (isoDay : string -> option string)
    (sessions : list VoiceSession) (notes : list Note) :
  voiceSessionsToNotes isoDay sessions = Some notes ->
  Forall2 (fun s note => voiceSessionToNote isoDay s = Some note) sessions notes.
Proof.
  revert notes. induction sessions as [|s sessions IH]; intros notes; simpl.
  - intros [= <-]. constructor.
  - destruct (voiceSessionToNote isoDay s) as [note|] eqn:Hs; [|discriminate].
    destruct (voiceSessionsToNotes isoDay sessions) as [rest|]; [|discriminate].
    intros [= <-]. constructor; [exact Hs | apply IH; reflexivity].
Qed.

(** The tags of the notes are the tags of the sessions. *)
Lemma tags_of_notes (isoDay : string -> option string) (sessions : list VoiceSession)
    (notes : list Note) (c : string) :
  Forall2 (fun s note => voiceSessionToNote isoDay s = Some note) sessions notes ->
  (exists s, In s sessions /\ getTag (vs_analysis s) = c)
  <-> (exists n, In n notes /\ note_tag n = c).
Proof.
  intros Hnotes. induction Hnotes as [|s note sessions' notes' Hs _ IH].
  - split; intros (x & [] & _).
  - apply voiceSessionToNote_Some in Hs as (_ & _ & Htag). split.
    + intros (x & [<-|Hx] & Hc).
      * exists note. split; [left; reflexivity | congruence].
      * destruct IH as [IH _]. destruct IH as (n & Hn & Hnc); [eauto|].
        exists n. split; [right; exact Hn | exact Hnc].
    + intros (n & [<-|Hn] & Hc).
      * exists s. split; [left; reflexivity | congruence].
      * destruct IH as [_ IH]. destruct IH as (x & Hx & Hxc); [eauto|].
        exists x. split; [right; exact Hx | exact Hxc].
Qed.

(** They are made exactly when every timestamp parses. *)
Lemma voiceSessionsToNotes_None (isoDay : string -> option string)
    (sessions : list VoiceSession) :
  voiceSessionsToNotes isoDay sessions = None
  <-> exists s, In s sessions /\ isoDay (vs_timestamp s) = None.
Proof.
  induction sessions as [|s sessions IH]; simpl.
  - split; [discriminate | intros (s & [] & _)].
  - unfold voiceSessionToNote at 1.
    destruct (isoDay (vs_timestamp s)) as [date|] eqn:Hs.
    + destruct (voiceSessionsToNotes isoDay sessions) as [rest|].
      * split; [discriminate|]. intros (x & [<-|Hx] & Hnone); [congruence|].
        destruct IH as [_ IH]. discriminate IH. eauto.
      * split; [|reflexivity]. intros _.
        destruct IH as [IH _]. destruct (IH eq_refl) as (x & Hx & Hnone). eauto.
    + split; [|reflexivity]. intros _. exists s. auto.
Qed.

(** The categories offered for a list of sessions are, each once and in
    ascending order, the tags [getTag] gives the sessions.  The notes of the
    sessions are made exactly when every timestamp parses, and then the
    categories are exactly the tags of those notes. *)
Theorem getCategoriesFromSessions_are_note_tags (isoDay : string -> option string)
    (sessions : list VoiceSession) :
  (forall c, In c (getCategoriesFromSessions sessions)
             <-> exists s, In s sessions /\ getTag (vs_analysis s) = c) /\
  (voiceSessionsToNotes isoDay sessions = None
   <-> exists s, In s sessions /\ isoDay (vs_timestamp s) = None) /\
  (forall notes, voiceSessionsToNotes isoDay sessions = Some notes ->
     forall c, In c (getCategoriesFromSessions sessions)
               <-> exists n, In n notes /\ note_tag n = c) /\
  NoDup (getCategoriesFromSessions sessions) /\
  Sorted (fun a b => String.leb a b = true) (getCategoriesFromSessions sessions).
Proof.
  assert (Hcat : forall c, In c (getCategoriesFromSessions sessions)
                           <-> exists s, In s sessions /\ getTag (vs_analysis s) = c).
  { intros c. unfold getCategoriesFromSessions.
    assert (Hsort : forall l, In c (sort_strings l) <-> In c l).
    { intros l. split; apply Permutation_in;
        [apply sort_strings_perm | symmetry; apply sort_strings_perm]. }
    rewrite Hsort, fold_set_add_In. split.
    - intros [[]|(s & Hs & Hc)]. exists s. rewrite <- categoryOf_getTag. auto.
    - intros (s & Hs & Hc). right. exists s. rewrite categoryOf_getTag. auto. }
  split; [exact Hcat|]. split; [apply voiceSessionsToNotes_None|].
  split; [|split].
  - intros notes Hnotes c. rewrite Hcat.
    apply tags_of_notes with (isoDay := isoDay), voiceSessionsToNotes_Some, Hnotes.
  - unfold getCategoriesFromSessions. rewrite sort_strings_perm.
    apply fold_set_add_NoDup. constructor.
  - apply sort_strings_Sorted.
Qed.

(** *** [convertToNoteSections] *)

(** The titles of the sections an analysis gives rise to. *)
Definition section_titles (a : AnalysisResult) : list string :=
  (match ar_ideas a with [] => [] | _ => ["Ideas"%string] end)
  ++ (match ar_tasks a with [] => [] | _ => ["Tasks"%string] end)
  ++ map sn_title (ar_structured_notes a).

(** There are no sections ([undefined]) exactly when there is no analysis
    or the analysis has no idea, no task and no structured note; otherwise
    the sections are, in this order, "Ideas" when there are ideas, "Tasks"
    when there are tasks, and one section per structured note under the
    note's title; an empty array is never returned. *)
Theorem convertToNoteSections_sections (analysis : option AnalysisResult) :
  (convertToNoteSections analysis = None
   <-> analysis = None
       \/ exists a, analysis = Some a /\ ar_ideas a = [] /\ ar_tasks a = []
                    /\ ar_structured_notes a = []) /\
  (forall sections, convertToNoteSections analysis = Some sections ->
     sections <> [] /\
     exists a, analysis = Some a /\ map section sections = section_titles a).
Proof.
  split.
  - destruct analysis as [[t ideas tasks notes summ]|]; simpl.
    + destruct ideas, tasks, notes; simpl; split; intros H;
        try discriminate H;
        try (right; eexists; repeat split; reflexivity);
        try reflexivity;
        destruct H as [H|(a & [= <-] & Hi & Ht & Hn)]; simpl in *; congruence.
    + split; auto.
  - intros sections H.
    destruct analysis as [[t ideas tasks notes summ]|]; simpl in H; [|discriminate].
    unfold section_titles; simpl.
    destruct ideas, tasks, notes; simpl in *; inversion H; subst;
      (split; [discriminate|]); eexists; (split; [reflexivity|]);
      simpl; rewrite ?map_map; reflexivity.
Qed.

End DataTransformMore.

(** ** The pages: [Home] (in [web/src/pages/Detail.tsx]), [Ideas] and [Tasks] *)

Module Pages.

Import DataTransform.

Local Open Scope nat_scope.

(** [String.prototype.includes]. *)
Definition includes (s needle : string) : bool := Ollama.contains needle s.

(** [array?.length || 0] on the optional analysis of a session. *)
Definition ideaCount (session : VoiceSession) : nat :=
  match vs_analysis session with
  | Some a => length (ar_ideas a)
  | None => 0
  end.

Definition taskCount (session : VoiceSession) : nat :=
  match vs_analysis session with
  | Some a => length (ar_tasks a)
  | None => 0
  end.

(** *** [Home] *)

(** [sessions.reduce((count, session) => count + ..., 0)]. *)
Definition totalIdeas (sessions : list VoiceSession) : nat :=
  fold_left (fun count session => count + ideaCount session) sessions 0.

Definition totalTasks (sessions : list VoiceSession) : nat :=
  fold_left (fun count session => count + taskCount session) sessions 0.

(** [getNoteCounts]: [sessions.find(s => s.id === noteId)]. *)
Definition getNoteCounts (sessions : list VoiceSession) (noteId : string) : nat * nat :=
  match List.find (fun s => String.eqb (vs_id s) noteId) sessions with
  | Some session => (ideaCount session, taskCount session)
  | None => (0, 0)
  end.

(** *** [Ideas] and [Tasks] *)

Record IdeaEntry := {
  ie_id : string;
  ie_content : string;
  ie_sessionId : string;
  ie_sessionTitle : string;
  ie_date : string
}.

(** A task entry is the task's own properties ([...task]) and the source. *)
Record TaskEntry := {
  te_id : string;
  te_task : Task;
  te_sessionId : string;
  te_sessionTitle : string;
  te_date : string
}.

(** [session.analysis?.ideas || []]. *)
Definition ideasOf (session : VoiceSession) : list string :=
  match vs_analysis session with
  | Some a => ar_ideas a
  | None => []
  end.

Definition tasksOf (session : VoiceSession) : list Task :=
  match vs_analysis session with
  | Some a => ar_tasks a
  | None => []
  end.

Definition allIdeas (sessions : list VoiceSession) : list IdeaEntry :=
  flat_map (fun session =>
              map (fun idea => {| ie_id := vs_id session +:+ "-" +:+ idea;
                                  ie_content := idea;
                                  ie_sessionId := vs_id session;
                                  ie_sessionTitle := vs_title session;
                                  ie_date := vs_timestamp session |})
                  (ideasOf session))
           sessions.

Definition allTasks (sessions : list VoiceSession) : list TaskEntry :=
  flat_map (fun session =>
              map (fun task => {| te_id := vs_id session +:+ "-" +:+ task_title task;
                                  te_task := task;
                                  te_sessionId := vs_id session;
                                  te_sessionTitle := vs_title session;
                                  te_date := vs_timestamp session |})
                  (tasksOf session))
           sessions.

(** [priorityOrder]: a priority outside the table has no rank. *)
Definition priorityOrder (priority : string) : option Z :=
  if String.eqb priority "Urgent" then Some 4%Z
  else if String.eqb priority "High" then Some 3%Z
  else if String.eqb priority "Medium" then Some 2%Z
  else if String.eqb priority "Low" then Some 1%Z
  else None.

(** The comparator [(a, b) => priorityOrder[b.priority] -
    priorityOrder[a.priority]]; the difference with [undefined] is [NaN],
    which [sort] takes for 0. *)
Definition comparePriority (a b : TaskEntry) : Z :=
  match priorityOrder (task_priority (te_task b)),
        priorityOrder (task_priority (te_task a)) with
  | Some rb, Some ra => (rb - ra)%Z
  | _, _ => 0%Z
  end.

(** [Array.prototype.sort] is stable: an element goes before the first one
    it does not compare greater than. *)
Fixpoint insertTask (x : TaskEntry) (l : list TaskEntry) : list TaskEntry :=
  match l with
  | [] => [x]
  | y :: rest =>
      if (comparePriority x y <=? 0)%Z then x :: l else y :: insertTask x rest
  end.

Definition sortTasks (l : list TaskEntry) : list TaskEntry :=
  fold_right insertTask [] l.

Section WithLowerCase.

(** [String.prototype.toLowerCase], left to the runtime. *)
Variable toLowerCase : string -> string.

Definition filteredIdeas (searchQuery : string) (sessions : list VoiceSession)
  : list IdeaEntry :=
  List.filter (fun idea =>
                 includes (toLowerCase (ie_content idea)) (toLowerCase searchQuery)
                 || includes (toLowerCase (ie_sessionTitle idea)) (toLowerCase searchQuery))
              (allIdeas sessions).

Definition matchesTask (searchQuery priorityFilter : string) (task : TaskEntry) : bool :=
  let matchesSearch :=
    includes (toLowerCase (task_title (te_task task))) (toLowerCase searchQuery)
    || (match task_description (te_task task) with
        | Some description =>
            negb (String.eqb description "")
            && includes (toLowerCase description) (toLowerCase searchQuery)
        | None => false
        end)
    || includes (toLowerCase (te_sessionTitle task)) (toLowerCase searchQuery) in
  let matchesPriority :=
    String.eqb priorityFilter "All"
    || String.eqb (task_priority (te_task task)) priorityFilter in
  matchesSearch && matchesPriority.

Definition filteredTasks (searchQuery priorityFilter : string)
    (sessions : list VoiceSession) : list TaskEntry :=
  List.filter (matchesTask searchQuery priorityFilter) (allTasks sessions).

Definition sortedTasks (searchQuery priorityFilter : string)
    (sessions : list VoiceSession) : list TaskEntry :=
  sortTasks (filteredTasks searchQuery priorityFilter sessions).

(** [filteredNotes] of [Home]. *)
Definition filteredNotes (searchQuery selectedCategory : string) (notes : list Note)
  : list Note :=
  List.filter (fun note =>
                 let matchesSearch :=
                   String.eqb searchQuery ""
                   || includes (toLowerCase (note_title note)) (toLowerCase searchQuery)
                   || includes (toLowerCase (note_content note)) (toLowerCase searchQuery)
                   || (match note_transcript note with
                       | Some transcript =>
                           negb (String.eqb transcript "")
                           && includes (toLowerCase transcript) (toLowerCase searchQuery)
                       | None => false
                       end) in
                 let matchesCategory :=
                   String.eqb selectedCategory "All"
                   || String.eqb (note_tag note) selectedCategory in
                 matchesSearch && matchesCategory)
              notes.

End WithLowerCase.

(** The rank a task is sorted by. *)
Definition rankOf (t : TaskEntry) : Z :=
  default 0%Z (priorityOrder (task_priority (te_task t))).

Definition knownPriority (t : TaskEntry) : Prop :=
  is_Some (priorityOrder (task_priority (te_task t))).

(** *** Counting *)

Lemma totalIdeas_from (sessions : list VoiceSession) (acc : nat) :
  fold_left (fun count session => count + ideaCount session) sessions acc
  = acc + length (allIdeas sessions).
Proof.
  revert acc. induction sessions as [|s l IH]; intros acc; simpl; [lia|].
  rewrite IH. fold (allIdeas l). rewrite length_app, length_map.
  unfold ideaCount, ideasOf. destruct (vs_analysis s); simpl; lia.
Qed.

Lemma totalTasks_from (sessions : list VoiceSession) (acc : nat) :
  fold_left (fun count session => count + taskCount session) sessions acc
  = acc + length (allTasks sessions).
Proof.
  revert acc. induction sessions as [|s l IH]; intros acc; simpl; [lia|].
  rewrite IH. fold (allTasks l). rewrite length_app, length_map.
  unfold taskCount, tasksOf. destruct (vs_analysis s); simpl; lia.
Qed.

(** The counts on the tabs of [Home] are the numbers of entries the [Ideas]
    and [Tasks] pages aggregate from the same sessions, and every entry
    comes from one of those sessions. *)
Theorem totals_match_pages (sessions : list VoiceSession) :
  totalIdeas sessions = length (allIdeas sessions) /\
  totalTasks sessions = length (allTasks sessions) /\
  (forall e, In e (allIdeas sessions) ->
     exists s, In s sessions /\ ie_sessionId e = vs_id s /\
               ie_sessionTitle e = vs_title s /\ In (ie_content e) (ideasOf s)) /\
  (forall e, In e (allTasks sessions) ->
     exists s, In s sessions /\ te_sessionId e = vs_id s /\
               te_sessionTitle e = vs_title s /\ In (te_task e) (tasksOf s)).
Proof.
  split; [|split; [|split]].
  - unfold totalIdeas. rewrite totalIdeas_from. reflexivity.
  - unfold totalTasks. rewrite totalTasks_from. reflexivity.
  - intros e He. apply in_flat_map in He as (s & Hs & He).
    apply in_map_iff in He as (idea & <- & Hidea). exists s. simpl. auto.
  - intros e He. apply in_flat_map in He as (s & Hs & He).
    apply in_map_iff in He as (task & <- & Htask). exists s. simpl. auto.
Qed.

(** *** Notes and their sessions *)

Lemma find_by_id (sessions : list VoiceSession) (s : VoiceSession) :
  NoDup (map vs_id sessions) -> In s sessions ->
  List.find (fun x => String.eqb (vs_id x) (vs_id s)) sessions = Some s.
Proof.
  induction sessions as [|x l IH]; simpl; [tauto|].
  intros Hnd Hin. apply NoDup_cons in Hnd as [Hx Hl].
  destruct (String.eqb_spec (vs_id x) (vs_id s)) as [Heq|Hne].
  - destruct Hin as [->|Hin]; [reflexivity|].
    exfalso. apply Hx. rewrite Heq. apply list_elem_of_In, in_map, Hin.
  - destruct Hin as [->|Hin]; [congruence|]. apply IH; assumption.
Qed.

(** The notes of [Home], when they are made, are the notes of the sessions
    one by one and carry their identifiers, in order; so when the
    identifiers are distinct, the counts shown on a note's card are those
    of the session the note was built from, and an identifier that belongs
    to no session gives zero for both. *)
Theorem getNoteCounts_of_note (isoDay : string -> option string)
    (sessions : list VoiceSession) :
  NoDup (map vs_id sessions) ->
  (forall notes, voiceSessionsToNotes isoDay sessions = Some notes ->
     Forall2 (fun s note => voiceSessionToNote isoDay s = Some note) sessions notes /\
     map note_id notes = map vs_id sessions) /\
  (forall s note, In s sessions -> voiceSessionToNote isoDay s = Some note ->
     getNoteCounts sessions (note_id note) = (length (ideasOf s), length (tasksOf s))) /\
  (forall id, ~ In id (map vs_id sessions) -> getNoteCounts sessions id = (0, 0)).
Proof.
  intros Hnd. split; [|split].
  - intros notes Hnotes.
    apply DataTransformMore.voiceSessionsToNotes_Some in Hnotes.
    split; [exact Hnotes|]. clear Hnd.
    induction Hnotes as [|s note sessions' notes' Hs _ IH]; [reflexivity|].
    apply DataTransformMore.voiceSessionToNote_Some in Hs as (_ & Hid & _).
    simpl. rewrite Hid, IH. reflexivity.
  - intros s note Hs Hnote.
    apply DataTransformMore.voiceSessionToNote_Some in Hnote as (_ & Hid & _).
    rewrite Hid. unfold getNoteCounts.
    rewrite (find_by_id sessions s Hnd Hs).
    unfold ideaCount, taskCount, ideasOf, tasksOf.
    destruct (vs_analysis s); reflexivity.
  - intros id Hid. unfold getNoteCounts.
    destruct (List.find _ sessions) as [x|] eqn:E; [|reflexivity].
    apply List.find_some in E as [Hx Heq]. apply String.eqb_eq in Heq.
    exfalso. apply Hid. rewrite <- Heq. apply in_map, Hx.
Qed.

Definition two_sessions : list VoiceSession :=
  [ session_example;
    {| vs_id := "s2"; vs_timestamp := "2024-05-02T09:00:00Z";
       vs_audio_file_path := "/audio/s2.wav"; vs_transcript := None;
       vs_analysis := None; vs_title := "Untitled"; vs_duration_ms := 0;
       vs_audio_url := None |} ].

Lemma getNoteCounts_of_note_witness :
  (exists notes, voiceSessionsToNotes example_isoDay two_sessions = Some notes /\
                 map note_id notes = ["s1"; "s2"]%string) /\
  getNoteCounts two_sessions "s1" = (1, 1) /\
  getNoteCounts two_sessions "s9" = (0, 0).
Proof.
  assert (Hnd : NoDup (map vs_id two_sessions)).
  { simpl. repeat constructor; rewrite ?list_elem_of_In; simpl; intuition discriminate. }
  destruct (getNoteCounts_of_note example_isoDay two_sessions Hnd) as (Hnotes & Hin & Hout).
  split; [|split].
  - eexists. split; [reflexivity|].
    exact (proj2 (Hnotes _ eq_refl)).
  - exact (Hin session_example _ (or_introl eq_refl) eq_refl).
  - apply Hout. simpl. intuition discriminate.
Defined.

(** *** Sorting the tasks *)

Lemma insertTask_perm (x : TaskEntry) (l : list TaskEntry) :
  Permutation (insertTask x l) (x :: l).
Proof.
  induction l as [|y l IH]; simpl; [reflexivity|].
  destruct (comparePriority x y <=? 0)%Z; [reflexivity|].
  rewrite IH. apply perm_swap.
Qed.

Lemma sortTasks_perm (l : list TaskEntry) : Permutation (sortTasks l) l.
Proof.
  induction l as [|x l IH]; simpl; [reflexivity|].
  rewrite insertTask_perm, IH. reflexivity.
Qed.

(** Tasks that compare as different have different priorities. *)
Lemma comparePriority_pos (x y : TaskEntry) :
  (0 < comparePriority x y)%Z ->
  task_priority (te_task x) <> task_priority (te_task y).
Proof.
  unfold comparePriority. intros H Heq. rewrite Heq in H.
  destruct (priorityOrder (task_priority (te_task y))); lia.
Qed.

Definition hasPriority (priority : string) (t : TaskEntry) : bool :=
  String.eqb (task_priority (te_task t)) priority.

Lemma insertTask_stable (priority : string) (x : TaskEntry) (l : list TaskEntry) :
  List.filter (hasPriority priority) (insertTask x l)
  = List.filter (hasPriority priority) (x :: l).
Proof.
  induction l as [|y l IH]; [reflexivity|].
  cbn [insertTask]. destruct (Z.leb_spec (comparePriority x y) 0); [reflexivity|].
  cbn [List.filter] in *. rewrite IH.
  pose proof (comparePriority_pos x y ltac:(lia)) as Hne.
  unfold hasPriority.
  destruct (String.eqb_spec (task_priority (te_task x)) priority);
    destruct (String.eqb_spec (task_priority (te_task y)) priority);
    try reflexivity; congruence.
Qed.

Lemma sortTasks_stable (priority : string) (l : list TaskEntry) :
  List.filter (hasPriority priority) (sortTasks l) = List.filter (hasPriority priority) l.
Proof.
  induction l as [|x l IH]; [reflexivity|].
  cbn [sortTasks fold_right]. fold (sortTasks l).
  rewrite insertTask_stable. cbn [List.filter]. rewrite IH. reflexivity.
Qed.

Lemma comparePriority_known (x y : TaskEntry) :
  knownPriority x -> knownPriority y -> comparePriority x y = (rankOf y - rankOf x)%Z.
Proof.
  unfold knownPriority, comparePriority, rankOf. intros [rx ->] [ry ->]. reflexivity.
Qed.

Lemma insertTask_Sorted (x : TaskEntry) (l : list TaskEntry) :
  knownPriority x -> Forall knownPriority l ->
  Sorted (fun a b => (rankOf b <= rankOf a)%Z) l ->
  Sorted (fun a b => (rankOf b <= rankOf a)%Z) (insertTask x l).
Proof.
  intros Hx Hl Hs. induction Hs as [|y l Hs IH Hhd]; simpl.
  - repeat constructor.
  - apply Forall_cons in Hl as [Hy Hl].
    rewrite (comparePriority_known x y Hx Hy).
    destruct (Z.leb_spec (rankOf y - rankOf x) 0).
    + constructor; [constructor; assumption | constructor; lia].
    + constructor; [apply IH, Hl|].
      destruct l as [|z l]; simpl; [constructor; lia|].
      apply Forall_cons in Hl as [Hz _].
      rewrite (comparePriority_known x z Hx Hz).
      destruct (Z.leb_spec (rankOf z - rankOf x) 0); constructor; [lia|].
      inversion Hhd; assumption.
Qed.

Lemma sortTasks_Sorted (l : list TaskEntry) :
  Forall knownPriority l -> Sorted (fun a b => (rankOf b <= rankOf a)%Z) (sortTasks l).
Proof.
  induction l as [|x l IH]; intros Hl; simpl; [constructor|].
  apply Forall_cons in Hl as [Hx Hl].
  apply insertTask_Sorted; [exact Hx | | apply IH, Hl].
  rewrite sortTasks_perm. exact Hl.
Qed.

(** The tasks shown are the matching tasks rearranged; when every matching
    task has one of the four priorities they are in descending order of
    priority, and tasks of the same priority keep the order they were
    aggregated in; and with a priority filter set, only tasks of that
    priority are shown. *)
Theorem sortedTasks_order (toLowerCase : string -> string)
    (searchQuery priorityFilter : string) (sessions : list VoiceSession) :
  Permutation (sortedTasks toLowerCase searchQuery priorityFilter sessions)
              (filteredTasks toLowerCase searchQuery priorityFilter sessions) /\
  (Forall knownPriority (filteredTasks toLowerCase searchQuery priorityFilter sessions) ->
   Sorted (fun a b => (rankOf b <= rankOf a)%Z)
          (sortedTasks toLowerCase searchQuery priorityFilter sessions) /\
   forall priority,
     List.filter (hasPriority priority)
       (sortedTasks toLowerCase searchQuery priorityFilter sessions)
     = List.filter (hasPriority priority)
         (filteredTasks toLowerCase searchQuery priorityFilter sessions)) /\
  (priorityFilter <> "All"%string ->
   Forall (fun t => task_priority (te_task t) = priorityFilter)
          (sortedTasks toLowerCase searchQuery priorityFilter sessions)).
Proof.
  unfold sortedTasks. split; [apply sortTasks_perm|].
  split.
  { intros Hk. split; [apply sortTasks_Sorted, Hk|].
    intros priority. apply sortTasks_stable. }
  intros Hp. rewrite sortTasks_perm. unfold filteredTasks.
  apply Forall_forall. intros t Ht. apply list_elem_of_In, List.filter_In in Ht as [_ Hm].
  unfold matchesTask in Hm. apply andb_prop in Hm as [_ Hm].
  apply Bool.orb_prop in Hm as [Hm|Hm]; apply String.eqb_eq in Hm; congruence.
Qed.

(** *** Empty searches *)

(** With an empty search, and no priority or category selected, every page
    shows all of its entries. *)
Theorem empty_search_shows_all (toLowerCase : string -> string)
    (sessions : list VoiceSession) (notes : list Note) :
  toLowerCase "" = ""%string ->
  filteredIdeas toLowerCase "" sessions = allIdeas sessions /\
  filteredTasks toLowerCase "" "All" sessions = allTasks sessions /\
  filteredNotes toLowerCase "" "All" notes = notes.
Proof.
  intros Hlow.
  assert (Hinc : forall s, includes s (toLowerCase "") = true).
  { intros s. rewrite Hlow. unfold includes. destruct s; reflexivity. }
  split; [|split].
  - unfold filteredIdeas. apply Repository.filter_all. intros e _.
    rewrite Hinc. reflexivity.
  - unfold filteredTasks. apply Repository.filter_all. intros e _.
    unfold matchesTask. rewrite Hinc. reflexivity.
  - unfold filteredNotes. apply Repository.filter_all. intros n _. reflexivity.
Qed.

(** Lower case for the letters A to Z, other bytes unchanged. *)
Fixpoint asciiLowerCase (s : string) : string :=
  match s with
  | EmptyString => EmptyString
  | String c rest =>
      let n := Ascii.nat_of_ascii c in
      String (if (65 <=? n) && (n <=? 90) then Ascii.ascii_of_nat (n + 32) else c)
             (asciiLowerCase rest)
  end.

Lemma empty_search_shows_all_witness :
  filteredIdeas asciiLowerCase "" two_sessions = allIdeas two_sessions /\
  length (allIdeas two_sessions) = 1.
Proof.
  destruct (empty_search_shows_all asciiLowerCase two_sessions [] eq_refl) as (Hideas & _).
  split; [exact Hideas | reflexivity].
Defined.

End Pages.

(** ** More of [OllamaService::analyze_text]: termination and backoff *)

Module OllamaMore.

Import Ollama.

Local Open Scope nat_scope.

(** The seconds slept in the course of some events. *)
Fixpoint total_sleep (es : list event) : nat :=
  match es with
  | [] => 0
  | Sleep secs :: rest => secs + total_sleep rest
  | SendRequest _ _ :: rest => total_sleep rest
  end.

Section Backoff.

Context {AnalysisResult Error : Type}.
Variable detect : Text -> Language.
Variable prompt_for : Language -> string.
Variable provider : nat -> string -> Text -> result AnalysisResult Error.

(** With fuel for three iterations or more, [analyze_text] returns: the loop
    is left by a [return] and [unreachable!()] is not reached.  The language
    is detected once: every request carries the same prompt and the text.
    The call sleeps 6 seconds at most, and it fails only after three
    requests and the full 6 seconds of backoff. *)
Theorem analyze_text_returns_within_backoff (k : nat) (text : Text) :
  exists r w,
    analyze_text AnalysisResult Error detect prompt_for provider (max_attempts + k) text fresh
    = Some (Return r, w) /\
    analyze_text AnalysisResult Error detect prompt_for provider max_attempts text fresh
    = Some (Return r, w) /\
    requests w = request_count (events w) /\
    Forall (fun e => is_request e = true ->
                     e = SendRequest (prompt_for (detect text)) text) (events w) /\
    total_sleep (events w) <= 6 /\
    (forall e, r = Err e ->
       request_count (events w) = 3 /\ total_sleep (events w) = 6) /\
    (forall a, r = Ok a ->
       total_sleep (events w) = 2 ^ request_count (events w) - 2).
Proof.
  unfold analyze_text, max_attempts. cbn [Nat.add retry_loop].
  set (p := prompt_for (detect text)).
  unfold send_request, sleep, fresh; cbn.
  destruct (provider 0 p text) as [a0|e0].
  { eexists _, _. split; [reflexivity|]. split; [reflexivity|]. cbn.
    repeat split; intros; try discriminate; try lia;
      repeat constructor; intros; try reflexivity; discriminate. }
  destruct (provider 1 p text) as [a1|e1].
  { eexists _, _. split; [reflexivity|]. split; [reflexivity|]. cbn.
    repeat split; intros; try discriminate; try lia;
      repeat constructor; intros; try reflexivity; discriminate. }
  destruct (provider 2 p text) as [a2|e2].
  { eexists _, _. split; [reflexivity|]. split; [reflexivity|]. cbn.
    repeat split; intros; try discriminate; try lia;
      repeat constructor; intros; try reflexivity; discriminate. }
  eexists _, _. split; [reflexivity|]. split; [reflexivity|]. cbn.
  repeat split; intros; try discriminate; try lia;
    repeat constructor; intros; try reflexivity; discriminate.
Qed.

End Backoff.

End OllamaMore.

(** ** The recorder component ([web/src/components/Recorder.tsx]) *)

Module Recorder.

Local Open Scope nat_scope.

(** A blob is the sequence of the chunks it was made of, each given by its
    size; an object URL stands for the blob it was created from. *)
Definition Blob := list nat.

(** What the component does to the outside world. *)
Inductive effect :=
| PostRecordStart
| PostRecordStop
| PostSessionsUpload (fileName : string) (file : Blob)
| OnUpload (session : DataTransform.VoiceSession).

(** The React state ([useState]), the refs ([useRef]; for the media recorder
    whether it is still recording), and the browser resources the component
    holds: the intervals that are running and the microphone streams that
    are open. *)
Record state := {
  recordingState : option string;
  duration : Z;
  audioBlob : option Blob;
  audioUrl : option Blob;
  isPlaying : bool;
  playbackTime : Z;
  totalDuration : Z;
  isUploading : bool;
  isStoppingRecording : bool;
  error : option string;
  mediaRecorderRef : option bool;
  intervalRef : option nat;
  chunksRef : Blob;
  recordingSessionRef : option string;
  timers : list nat;
  nextTimer : nat;
  openStreams : nat;
  effects : list effect
}.

(** The state the component mounts in: [useState<string | null>()] leaves
    [recordingState] undefined. *)
Definition mounted : state :=
  {| recordingState := None; duration := 0; audioBlob := None; audioUrl := None;
     isPlaying := false; playbackTime := 0; totalDuration := 0; isUploading := false;
     isStoppingRecording := false; error := None; mediaRecorderRef := None;
     intervalRef := None; chunksRef := []; recordingSessionRef := None;
     timers := []; nextTimer := 0; openStreams := 0; effects := [] |}.

Definition setRecordingState (v : option string) (st : state) : state :=
  {| recordingState := v; duration := duration st; audioBlob := audioBlob st;
     audioUrl := audioUrl st; isPlaying := isPlaying st; playbackTime :=
     playbackTime st; totalDuration := totalDuration st; isUploading := isUploading
     st; isStoppingRecording := isStoppingRecording st; error := error st;
     mediaRecorderRef := mediaRecorderRef st; intervalRef := intervalRef st;
     chunksRef := chunksRef st; recordingSessionRef := recordingSessionRef st;
     timers := timers st; nextTimer := nextTimer st; openStreams := openStreams st;
     effects := effects st |}.

Definition setDuration (v : Z) (st : state) : state :=
  {| recordingState := recordingState st; duration := v; audioBlob := audioBlob st;
     audioUrl := audioUrl st; isPlaying := isPlaying st; playbackTime :=
     playbackTime st; totalDuration := totalDuration st; isUploading := isUploading
     st; isStoppingRecording := isStoppingRecording st; error := error st;
     mediaRecorderRef := mediaRecorderRef st; intervalRef := intervalRef st;
     chunksRef := chunksRef st; recordingSessionRef := recordingSessionRef st;
     timers := timers st; nextTimer := nextTimer st; openStreams := openStreams st;
     effects := effects st |}.

Definition setAudioBlob (v : option Blob) (st : state) : state :=
  {| recordingState := recordingState st; duration := duration st; audioBlob := v;
     audioUrl := audioUrl st; isPlaying := isPlaying st; playbackTime :=
     playbackTime st; totalDuration := totalDuration st; isUploading := isUploading
     st; isStoppingRecording := isStoppingRecording st; error := error st;
     mediaRecorderRef := mediaRecorderRef st; intervalRef := intervalRef st;
     chunksRef := chunksRef st; recordingSessionRef := recordingSessionRef st;
     timers := timers st; nextTimer := nextTimer st; openStreams := openStreams st;
     effects := effects st |}.

Definition setAudioUrl (v : option Blob) (st : state) : state :=
  {| recordingState := recordingState st; duration := duration st; audioBlob :=
     audioBlob st; audioUrl := v; isPlaying := isPlaying st; playbackTime :=
     playbackTime st; totalDuration := totalDuration st; isUploading := isUploading
     st; isStoppingRecording := isStoppingRecording st; error := error st;
     mediaRecorderRef := mediaRecorderRef st; intervalRef := intervalRef st;
     chunksRef := chunksRef st; recordingSessionRef := recordingSessionRef st;
     timers := timers st; nextTimer := nextTimer st; openStreams := openStreams st;
     effects := effects st |}.

Definition setIsPlaying (v : bool) (st : state) : state :=
  {| recordingState := recordingState st; duration := duration st; audioBlob :=
     audioBlob st; audioUrl := audioUrl st; isPlaying := v; playbackTime :=
     playbackTime st; totalDuration := totalDuration st; isUploading := isUploading
     st; isStoppingRecording := isStoppingRecording st; error := error st;
     mediaRecorderRef := mediaRecorderRef st; intervalRef := intervalRef st;
     chunksRef := chunksRef st; recordingSessionRef := recordingSessionRef st;
     timers := timers st; nextTimer := nextTimer st; openStreams := openStreams st;
     effects := effects st |}.

Definition setPlaybackTime (v : Z) (st : state) : state :=
  {| recordingState := recordingState st; duration := duration st; audioBlob :=
     audioBlob st; audioUrl := audioUrl st; isPlaying := isPlaying st; playbackTime
     := v; totalDuration := totalDuration st; isUploading := isUploading st;
     isStoppingRecording := isStoppingRecording st; error := error st;
     mediaRecorderRef := mediaRecorderRef st; intervalRef := intervalRef st;
     chunksRef := chunksRef st; recordingSessionRef := recordingSessionRef st;
     timers := timers st; nextTimer := nextTimer st; openStreams := openStreams st;
     effects := effects st |}.

Definition setTotalDuration (v : Z) (st : state) : state :=
  {| recordingState := recordingState st; duration := duration st; audioBlob :=
     audioBlob st; audioUrl := audioUrl st; isPlaying := isPlaying st; playbackTime
     := playbackTime st; totalDuration := v; isUploading := isUploading st;
     isStoppingRecording := isStoppingRecording st; error := error st;
     mediaRecorderRef := mediaRecorderRef st; intervalRef := intervalRef st;
     chunksRef := chunksRef st; recordingSessionRef := recordingSessionRef st;
     timers := timers st; nextTimer := nextTimer st; openStreams := openStreams st;
     effects := effects st |}.

Definition setIsUploading (v : bool) (st : state) : state :=
  {| recordingState := recordingState st; duration := duration st; audioBlob :=
     audioBlob st; audioUrl := audioUrl st; isPlaying := isPlaying st; playbackTime
     := playbackTime st; totalDuration := totalDuration st; isUploading := v;
     isStoppingRecording := isStoppingRecording st; error := error st;
     mediaRecorderRef := mediaRecorderRef st; intervalRef := intervalRef st;
     chunksRef := chunksRef st; recordingSessionRef := recordingSessionRef st;
     timers := timers st; nextTimer := nextTimer st; openStreams := openStreams st;
     effects := effects st |}.

Definition setIsStoppingRecording (v : bool) (st : state) : state :=
  {| recordingState := recordingState st; duration := duration st; audioBlob :=
     audioBlob st; audioUrl := audioUrl st; isPlaying := isPlaying st; playbackTime
     := playbackTime st; totalDuration := totalDuration st; isUploading :=
     isUploading st; isStoppingRecording := v; error := error st; mediaRecorderRef
     := mediaRecorderRef st; intervalRef := intervalRef st; chunksRef := chunksRef
     st; recordingSessionRef := recordingSessionRef st; timers := timers st;
     nextTimer := nextTimer st; openStreams := openStreams st; effects := effects st |}.

Definition setError (v : option string) (st : state) : state :=
  {| recordingState := recordingState st; duration := duration st; audioBlob :=
     audioBlob st; audioUrl := audioUrl st; isPlaying := isPlaying st; playbackTime
     := playbackTime st; totalDuration := totalDuration st; isUploading :=
     isUploading st; isStoppingRecording := isStoppingRecording st; error := v;
     mediaRecorderRef := mediaRecorderRef st; intervalRef := intervalRef st;
     chunksRef := chunksRef st; recordingSessionRef := recordingSessionRef st;
     timers := timers st; nextTimer := nextTimer st; openStreams := openStreams st;
     effects := effects st |}.

Definition setMediaRecorderRef (v : option bool) (st : state) : state :=
  {| recordingState := recordingState st; duration := duration st; audioBlob :=
     audioBlob st; audioUrl := audioUrl st; isPlaying := isPlaying st; playbackTime
     := playbackTime st; totalDuration := totalDuration st; isUploading :=
     isUploading st; isStoppingRecording := isStoppingRecording st; error := error
     st; mediaRecorderRef := v; intervalRef := intervalRef st; chunksRef :=
     chunksRef st; recordingSessionRef := recordingSessionRef st; timers := timers
     st; nextTimer := nextTimer st; openStreams := openStreams st; effects :=
     effects st |}.

Definition setIntervalRef (v : option nat) (st : state) : state :=
  {| recordingState := recordingState st; duration := duration st; audioBlob :=
     audioBlob st; audioUrl := audioUrl st; isPlaying := isPlaying st; playbackTime
     := playbackTime st; totalDuration := totalDuration st; isUploading :=
     isUploading st; isStoppingRecording := isStoppingRecording st; error := error
     st; mediaRecorderRef := mediaRecorderRef st; intervalRef := v; chunksRef :=
     chunksRef st; recordingSessionRef := recordingSessionRef st; timers := timers
     st; nextTimer := nextTimer st; openStreams := openStreams st; effects :=
     effects st |}.

Definition setChunksRef (v : Blob) (st : state) : state :=
  {| recordingState := recordingState st; duration := duration st; audioBlob :=
     audioBlob st; audioUrl := audioUrl st; isPlaying := isPlaying st; playbackTime
     := playbackTime st; totalDuration := totalDuration st; isUploading :=
     isUploading st; isStoppingRecording := isStoppingRecording st; error := error
     st; mediaRecorderRef := mediaRecorderRef st; intervalRef := intervalRef st;
     chunksRef := v; recordingSessionRef := recordingSessionRef st; timers := timers
     st; nextTimer := nextTimer st; openStreams := openStreams st; effects :=
     effects st |}.

Definition setRecordingSessionRef (v : option string) (st : state) : state :=
  {| recordingState := recordingState st; duration := duration st; audioBlob :=
     audioBlob st; audioUrl := audioUrl st; isPlaying := isPlaying st; playbackTime
     := playbackTime st; totalDuration := totalDuration st; isUploading :=
     isUploading st; isStoppingRecording := isStoppingRecording st; error := error
     st; mediaRecorderRef := mediaRecorderRef st; intervalRef := intervalRef st;
     chunksRef := chunksRef st; recordingSessionRef := v; timers := timers st;
     nextTimer := nextTimer st; openStreams := openStreams st; effects := effects st |}.

Definition setTimers (v : list nat) (st : state) : state :=
  {| recordingState := recordingState st; duration := duration st; audioBlob :=
     audioBlob st; audioUrl := audioUrl st; isPlaying := isPlaying st; playbackTime
     := playbackTime st; totalDuration := totalDuration st; isUploading :=
     isUploading st; isStoppingRecording := isStoppingRecording st; error := error
     st; mediaRecorderRef := mediaRecorderRef st; intervalRef := intervalRef st;
     chunksRef := chunksRef st; recordingSessionRef := recordingSessionRef st;
     timers := v; nextTimer := nextTimer st; openStreams := openStreams st; effects
     := effects st |}.

Definition setNextTimer (v : nat) (st : state) : state :=
  {| recordingState := recordingState st; duration := duration st; audioBlob :=
     audioBlob st; audioUrl := audioUrl st; isPlaying := isPlaying st; playbackTime
     := playbackTime st; totalDuration := totalDuration st; isUploading :=
     isUploading st; isStoppingRecording := isStoppingRecording st; error := error
     st; mediaRecorderRef := mediaRecorderRef st; intervalRef := intervalRef st;
     chunksRef := chunksRef st; recordingSessionRef := recordingSessionRef st;
     timers := timers st; nextTimer := v; openStreams := openStreams st; effects :=
     effects st |}.

Definition setOpenStreams (v : nat) (st : state) : state :=
  {| recordingState := recordingState st; duration := duration st; audioBlob :=
     audioBlob st; audioUrl := audioUrl st; isPlaying := isPlaying st; playbackTime
     := playbackTime st; totalDuration := totalDuration st; isUploading :=
     isUploading st; isStoppingRecording := isStoppingRecording st; error := error
     st; mediaRecorderRef := mediaRecorderRef st; intervalRef := intervalRef st;
     chunksRef := chunksRef st; recordingSessionRef := recordingSessionRef st;
     timers := timers st; nextTimer := nextTimer st; openStreams := v; effects :=
     effects st |}.

Definition setEffects (v : list effect) (st : state) : state :=
  {| recordingState := recordingState st; duration := duration st; audioBlob :=
     audioBlob st; audioUrl := audioUrl st; isPlaying := isPlaying st; playbackTime
     := playbackTime st; totalDuration := totalDuration st; isUploading :=
     isUploading st; isStoppingRecording := isStoppingRecording st; error := error
     st; mediaRecorderRef := mediaRecorderRef st; intervalRef := intervalRef st;
     chunksRef := chunksRef st; recordingSessionRef := recordingSessionRef st;
     timers := timers st; nextTimer := nextTimer st; openStreams := openStreams st;
     effects := v |}.

Definition perform (e : effect) (st : state) : state :=
  setEffects (effects st ++ [e]) st.

Definition stateIs (value : string) (s : option string) : bool :=
  match s with
  | Some v => String.eqb v value
  | None => false
  end.

Definition START_FAILED : string :=
  "Failed to start recording. Please check your microphone permissions.".
Definition STOP_FAILED : string := "Failed to stop recording properly.".
Definition UPLOAD_FAILED : string :=
  "Failed to upload and process recording. Please try again.".

(** [uploadAudioFile] of [web/src/services/api.ts]. *)
Definition uploadAudioFile {S : Type} (r : Api.settled (Api.ApiResponse S)) : Api.promise S :=
  match Api.intercept r with
  | Api.Resolved response => Api.Resolved (Api.data response)
  | Api.Thrown e => Api.Thrown e
  end.

(** [startRecordingHandler].  [now] is [Date.now()], [r] what the backend
    answers, [microphone] whether [getUserMedia] grants a stream.  A handler
    is run to its end, awaits included. *)
Definition startRecordingHandler (now : Z) (r : Api.settled (Api.ApiResponse unit))
    (microphone : bool) (st : state) : state :=
  let st := setError None st in
  let st := perform PostRecordStart st in
  match Api.startRecording now r with
  | Api.Thrown _ => setError (Some START_FAILED) st
  | Api.Resolved sessionId =>
      let st := setRecordingSessionRef (Some sessionId) st in
      if microphone then
        let st := setOpenStreams (S (openStreams st)) st in
        let st := setMediaRecorderRef (Some true) st in
        let st := setChunksRef [] st in
        let st := setRecordingState (Some "recording"%string) st in
        let st := setDuration 0 st in
        let id := nextTimer st in
        let st := setNextTimer (S id) st in
        let st := setTimers (id :: timers st) st in
        setIntervalRef (Some id) st
      else setError (Some START_FAILED) st
  end.

(** [mediaRecorder.stop()] on a recorder that is recording: the data
    recorded is delivered ([ondataavailable] keeps the chunks that are not
    empty), then [onstop] makes the blob and its URL and stops the tracks of
    the stream. *)
Definition recorderStopped (recorded : Blob) (st : state) : state :=
  let st := setMediaRecorderRef (Some false) st in
  let st := setChunksRef (chunksRef st ++ List.filter (fun size => 0 <? size) recorded) st in
  let st := setAudioBlob (Some (chunksRef st)) st in
  let st := setAudioUrl (Some (chunksRef st)) st in
  setOpenStreams (pred (openStreams st)) st.

Definition clearIntervalRef (st : state) : state :=
  match intervalRef st with
  | Some id =>
      setIntervalRef None
        (setTimers (List.filter (fun t => negb (t =? id)) (timers st)) st)
  | None => st
  end.

(** [stopRecordingHandler].  [recorded] is the data the recorder delivers,
    [r] what the backend answers to [POST /record/stop]; [stop()] throws on
    a recorder that is no longer recording. *)
Definition stopRecordingHandler (recorded : Blob) (r : Api.settled (Api.ApiResponse unit))
    (st : state) : state :=
  match mediaRecorderRef st with
  | Some active =>
      if stateIs "recording" (recordingState st) then
        let st := setError None st in
        let st := setIsStoppingRecording true st in
        let st :=
          if active then
            let st := recorderStopped recorded st in
            let st := clearIntervalRef st in
            if JS.truthy (recordingSessionRef st) then
              let st := perform PostRecordStop st in
              match Api.stopRecording r with
              | Api.Resolved _ => setRecordingState (Some "stopped"%string) st
              | Api.Thrown _ =>
                  setRecordingState (Some "stopped"%string)
                    (setError (Some STOP_FAILED) st)
              end
            else setRecordingState (Some "stopped"%string) st
          else
            setRecordingState (Some "stopped"%string) (setError (Some STOP_FAILED) st) in
        setIsStoppingRecording false st
      else st
  | None => st
  end.

(** [togglePlayback]: the audio element exists when there is a URL. *)
Definition togglePlayback (st : state) : state :=
  match audioUrl st with
  | Some _ => setIsPlaying (negb (isPlaying st)) st
  | None => st
  end.

(** [clearRecording]. *)
Definition clearRecording (st : state) : state :=
  let st := setRecordingState (Some "idle"%string) st in
  let st := setDuration 0 st in
  let st := setAudioBlob None st in
  let st := setAudioUrl None st in
  let st := setIsPlaying false st in
  let st := setPlaybackTime 0 st in
  let st := setTotalDuration 0 st in
  let st := setIsStoppingRecording false st in
  let st := setError None st in
  setRecordingSessionRef None st.

(** [uploadRecording]. *)
Definition uploadRecording (now : Z)
    (r : Api.settled (Api.ApiResponse DataTransform.VoiceSession)) (st : state) : state :=
  match audioBlob st with
  | Some blob =>
      let st := setIsUploading true st in
      let st := setError None st in
      let fileName := ("recording_" +:+ JS.toString now +:+ ".wav")%string in
      let st := perform (PostSessionsUpload fileName blob) st in
      let st :=
        match uploadAudioFile r with
        | Api.Resolved session => clearRecording (perform (OnUpload session) st)
        | Api.Thrown _ => setError (Some UPLOAD_FAILED) st
        end in
      setIsUploading false st
  | None => st
  end.

(** The callback of [setInterval]: [setDuration(prev => prev + 1)]. *)
Definition tick (st : state) : state := setDuration (duration st + 1) st.

(** What can happen to a mounted component: a click on one of its buttons,
    with what the outside answers, or a tick of one of its intervals. *)
Inductive action :=
| ClickStart (now : Z) (r : Api.settled (Api.ApiResponse unit)) (microphone : bool)
| ClickStop (recorded : Blob) (r : Api.settled (Api.ApiResponse unit))
| ClickClear
| ClickUpload (now : Z) (r : Api.settled (Api.ApiResponse DataTransform.VoiceSession))
| ClickPlay
| Tick (timer : nat).

(** The controls the component renders, and the intervals that run. *)
Definition enabled (a : action) (st : state) : bool :=
  match a with
  | ClickStart _ _ _ =>
      stateIs "idle" (recordingState st) || stateIs "stopped" (recordingState st)
  | ClickStop _ _ =>
      stateIs "recording" (recordingState st) && negb (isStoppingRecording st)
  | ClickClear => stateIs "stopped" (recordingState st)
  | ClickUpload _ _ => stateIs "stopped" (recordingState st) && negb (isUploading st)
  | ClickPlay => match audioUrl st with Some _ => true | None => false end
  | Tick timer => existsb (Nat.eqb timer) (timers st)
  end.

Definition step (st : state) (a : action) : state :=
  if enabled a st then
    match a with
    | ClickStart now r microphone => startRecordingHandler now r microphone st
    | ClickStop recorded r => stopRecordingHandler recorded r st
    | ClickClear => clearRecording st
    | ClickUpload now r => uploadRecording now r st
    | ClickPlay => togglePlayback st
    | Tick _ => tick st
    end
  else st.

Definition run (actions : list action) (st : state) : state :=
  fold_left step actions st.

(** *** Properties *)

(** The mounted component offers no control: [recordingState] is none of
    "idle", "recording" and "stopped", there is no audio to play and no
    interval runs.  Whatever is tried, it stays as it was mounted. *)
Theorem mounted_offers_no_control (actions : list action) :
  run actions mounted = mounted /\
  Forall (fun a => enabled a mounted = false) actions.
Proof.
  split.
  - induction actions as [|a actions IH]; [reflexivity|].
    unfold run in *. cbn [fold_left].
    replace (step mounted a) with mounted; [exact IH|].
    destruct a; reflexivity.
  - apply Forall_forall. intros a _. destruct a; reflexivity.
Qed.

Lemma clearIntervalRef_spec (st : state) :
  intervalRef (clearIntervalRef st) = None /\
  (forall id, intervalRef st = Some id -> ~ In id (timers (clearIntervalRef st))) /\
  audioBlob (clearIntervalRef st) = audioBlob st /\
  mediaRecorderRef (clearIntervalRef st) = mediaRecorderRef st /\
  recordingSessionRef (clearIntervalRef st) = recordingSessionRef st.
Proof.
  unfold clearIntervalRef. destruct (intervalRef st) as [id|] eqn:Hid; cbn.
  - repeat split; try reflexivity.
    intros id' [= <-] Hin. apply List.filter_In in Hin as [_ Hne].
    rewrite Nat.eqb_refl in Hne. discriminate.
  - repeat split; try reflexivity; try exact Hid. intros id' [=].
Qed.

(** [stopRecordingHandler] does nothing without a media recorder or outside
    the "recording" state.  Otherwise it always ends in "stopped" with the
    stopping flag down.  When the recorder was recording, the interval is
    cleared, the blob is made of the chunks that are not empty, and a
    failure of the backend only sets the error.  When [stop()] throws, the
    error is set, the interval keeps running and the backend is not
    told. *)
Theorem stopRecordingHandler_ends_stopped (recorded : Blob)
    (r : Api.settled (Api.ApiResponse unit)) (st : state) :
  (stateIs "recording" (recordingState st) = false \/ mediaRecorderRef st = None ->
   stopRecordingHandler recorded r st = st) /\
  (forall active,
     stateIs "recording" (recordingState st) = true ->
     mediaRecorderRef st = Some active ->
     recordingState (stopRecordingHandler recorded r st) = Some "stopped"%string /\
     isStoppingRecording (stopRecordingHandler recorded r st) = false /\
     (active = true ->
        mediaRecorderRef (stopRecordingHandler recorded r st) = Some false /\
        intervalRef (stopRecordingHandler recorded r st) = None /\
        (forall id, intervalRef st = Some id ->
                    ~ In id (timers (stopRecordingHandler recorded r st))) /\
        audioBlob (stopRecordingHandler recorded r st)
        = Some (chunksRef st ++ List.filter (fun size => 0 <? size) recorded) /\
        (forall e, JS.truthy (recordingSessionRef st) = true ->
                   Api.stopRecording r = Api.Thrown e ->
                   error (stopRecordingHandler recorded r st) = Some STOP_FAILED)) /\
     (active = false ->
        error (stopRecordingHandler recorded r st) = Some STOP_FAILED /\
        timers (stopRecordingHandler recorded r st) = timers st /\
        intervalRef (stopRecordingHandler recorded r st) = intervalRef st /\
        effects (stopRecordingHandler recorded r st) = effects st)).
Proof.
  split.
  - intros [H|H]; unfold stopRecordingHandler.
    + rewrite H. destruct (mediaRecorderRef st); reflexivity.
    + rewrite H. reflexivity.
  - intros active Hrec Hmr. unfold stopRecordingHandler. rewrite Hmr, Hrec.
    destruct active.
    2:{ cbn. split; [reflexivity|]. split; [reflexivity|].
        split; [intros [=]|]. intros _. repeat split; reflexivity. }
    set (st1 := recorderStopped recorded (setIsStoppingRecording true (setError None st))).
    destruct (clearIntervalRef_spec st1) as (Hint & Htimers & Hblob & Hmedia & Hsession).
    change (intervalRef st1) with (intervalRef st) in Htimers.
    change (audioBlob st1)
      with (Some (chunksRef st ++ List.filter (fun size => 0 <? size) recorded)) in Hblob.
    change (mediaRecorderRef st1) with (Some false) in Hmedia.
    change (recordingSessionRef st1) with (recordingSessionRef st) in Hsession.
    rewrite Hsession.
    destruct (JS.truthy (recordingSessionRef st)) eqn:Hs;
      [destruct (Api.stopRecording r) eqn:Hr|]; cbn;
      (split; [reflexivity|]); (split; [reflexivity|]);
      (split; [|intros [=]]); intros _;
      (split; [exact Hmedia|]); (split; [exact Hint|]);
      (split; [exact Htimers|]); (split; [exact Hblob|]);
      intros e; try discriminate; intros _ _; reflexivity.
Qed.

(** When the backend refuses [POST /record/start], [startRecordingHandler]
    only reports it.  When the backend accepts and the microphone is then
    refused, the identifier is kept and the error reported, while the
    component stays in the state it was in: outside "recording" it offers
    no stop control and its stop handler would do nothing, though the
    backend was told to start.  When both succeed the component is
    recording from zero with a new interval, and an interval that was
    running keeps running. *)
Theorem startRecordingHandler_outcomes (now : Z)
    (r : Api.settled (Api.ApiResponse unit)) (microphone : bool) (st : state) :
  effects (startRecordingHandler now r microphone st) = effects st ++ [PostRecordStart] /\
  (forall e, Api.startRecording now r = Api.Thrown e ->
     startRecordingHandler now r microphone st
     = setError (Some START_FAILED) (perform PostRecordStart st)) /\
  (forall id, Api.startRecording now r = Api.Resolved id -> microphone = false ->
     startRecordingHandler now r microphone st
     = setError (Some START_FAILED)
         (setRecordingSessionRef (Some id) (perform PostRecordStart st)) /\
     (stateIs "recording" (recordingState st) = false ->
      forall recorded r',
        enabled (ClickStop recorded r') (startRecordingHandler now r microphone st) = false /\
        stopRecordingHandler recorded r' (startRecordingHandler now r microphone st)
        = startRecordingHandler now r microphone st)) /\
  (forall id, Api.startRecording now r = Api.Resolved id -> microphone = true ->
     recordingState (startRecordingHandler now r microphone st) = Some "recording"%string /\
     recordingSessionRef (startRecordingHandler now r microphone st) = Some id /\
     mediaRecorderRef (startRecordingHandler now r microphone st) = Some true /\
     duration (startRecordingHandler now r microphone st) = 0%Z /\
     chunksRef (startRecordingHandler now r microphone st) = [] /\
     error (startRecordingHandler now r microphone st) = None /\
     intervalRef (startRecordingHandler now r microphone st) = Some (nextTimer st) /\
     timers (startRecordingHandler now r microphone st) = nextTimer st :: timers st /\
     openStreams (startRecordingHandler now r microphone st) = S (openStreams st)).
Proof.
  unfold startRecordingHandler.
  split; [|split; [|split]].
  - destruct (Api.startRecording now r); [destruct microphone|]; reflexivity.
  - intros e ->. reflexivity.
  - intros id -> ->. split; [reflexivity|].
    intros Hrec recorded r'. split.
    + cbn. rewrite Hrec. reflexivity.
    + unfold stopRecordingHandler. cbn. rewrite Hrec.
      destruct (mediaRecorderRef st); reflexivity.
  - intros id -> ->. cbn. repeat split; reflexivity.
Qed.

(** Without a recording [uploadRecording] does nothing.  After an upload
    that succeeded the parent has been given the session and the component
    is back to "idle" with the recording, its URL, the error and the session
    identifier cleared.  After one that failed the parent is not called, the
    recording is kept for another try, and the error is set.  Either way the
    uploading flag is down and one file was posted. *)
Theorem uploadRecording_outcomes (now : Z)
    (r : Api.settled (Api.ApiResponse DataTransform.VoiceSession)) (st : state) :
  (audioBlob st = None -> uploadRecording now r st = st) /\
  (forall blob, audioBlob st = Some blob ->
     isUploading (uploadRecording now r st) = false /\
     (forall session, uploadAudioFile r = Api.Resolved session ->
        recordingState (uploadRecording now r st) = Some "idle"%string /\
        audioBlob (uploadRecording now r st) = None /\
        audioUrl (uploadRecording now r st) = None /\
        error (uploadRecording now r st) = None /\
        recordingSessionRef (uploadRecording now r st) = None /\
        duration (uploadRecording now r st) = 0%Z /\
        effects (uploadRecording now r st)
        = effects st ++ [ PostSessionsUpload ("recording_" +:+ JS.toString now +:+ ".wav") blob;
                          OnUpload session ]) /\
     (forall e, uploadAudioFile r = Api.Thrown e ->
        recordingState (uploadRecording now r st) = recordingState st /\
        audioBlob (uploadRecording now r st) = Some blob /\
        audioUrl (uploadRecording now r st) = audioUrl st /\
        error (uploadRecording now r st) = Some UPLOAD_FAILED /\
        effects (uploadRecording now r st)
        = effects st ++ [ PostSessionsUpload ("recording_" +:+ JS.toString now +:+ ".wav")
                            blob ])).
Proof.
  unfold uploadRecording. split.
  - intros ->. reflexivity.
  - intros blob Hblob. rewrite Hblob. split; [|split].
    + destruct (uploadAudioFile r); reflexivity.
    + intros session ->. cbn. rewrite <- app_assoc. repeat split; reflexivity.
    + intros e ->. cbn. repeat split; try reflexivity. exact Hblob.
Qed.

End Recorder.

(** ** The quick-record button of [Home] ([web/src/pages/Detail.tsx]) *)

Module Home.

Import DataTransform.

Inductive effect :=
| PostRecordStart
| PostRecordStop
| GetSessions.

(** The part of the page's state that recording touches. *)
Record state := {
  sessions : list VoiceSession;
  isRecording : bool;
  loading : bool;
  error : option string;
  isUploading : bool;
  quickRecordingSession : option string;
  effects : list effect
}.

Definition setSessions (v : list VoiceSession) (st : state) : state :=
  {| sessions := v; isRecording := isRecording st; loading := loading st;
     error := error st; isUploading := isUploading st;
     quickRecordingSession := quickRecordingSession st; effects := effects st |}.

Definition setIsRecording (v : bool) (st : state) : state :=
  {| sessions := sessions st; isRecording := v; loading := loading st;
     error := error st; isUploading := isUploading st;
     quickRecordingSession := quickRecordingSession st; effects := effects st |}.

Definition setLoading (v : bool) (st : state) : state :=
  {| sessions := sessions st; isRecording := isRecording st; loading := v;
     error := error st; isUploading := isUploading st;
     quickRecordingSession := quickRecordingSession st; effects := effects st |}.

Definition setError (v : option string) (st : state) : state :=
  {| sessions := sessions st; isRecording := isRecording st; loading := loading st;
     error := v; isUploading := isUploading st;
     quickRecordingSession := quickRecordingSession st; effects := effects st |}.

Definition setIsUploading (v : bool) (st : state) : state :=
  {| sessions := sessions st; isRecording := isRecording st; loading := loading st;
     error := error st; isUploading := v;
     quickRecordingSession := quickRecordingSession st; effects := effects st |}.

Definition setQuickRecordingSession (v : option string) (st : state) : state :=
  {| sessions := sessions st; isRecording := isRecording st; loading := loading st;
     error := error st; isUploading := isUploading st;
     quickRecordingSession := v; effects := effects st |}.

Definition perform (e : effect) (st : state) : state :=
  {| sessions := sessions st; isRecording := isRecording st; loading := loading st;
     error := error st; isUploading := isUploading st;
     quickRecordingSession := quickRecordingSession st; effects := effects st ++ [e] |}.

Definition LOAD_FAILED : string := "Failed to load recordings. Please try again.".
Definition START_FAILED : string := "开始录音失败，请检查麦克风权限。".

(** [fetchSessions] of [web/src/services/api.ts]. *)
Definition fetchSessions (r : Api.settled (Api.ApiResponse (list VoiceSession)))
  : Api.promise (list VoiceSession) :=
  match Api.intercept r with
  | Api.Resolved response => Api.Resolved (Api.data response)
  | Api.Thrown e => Api.Thrown e
  end.

(** [loadSessions]: it catches what [fetchSessions] throws. *)
Definition loadSessions (r : Api.settled (Api.ApiResponse (list VoiceSession)))
    (st : state) : state :=
  let st := setLoading true st in
  let st := setError None st in
  let st := perform GetSessions st in
  let st :=
    match fetchSessions r with
    | Api.Resolved fetched => setSessions fetched st
    | Api.Thrown _ => setError (Some LOAD_FAILED) st
    end in
  setLoading false st.

(** [handleQuickRecord].  [now] and [start] are for [startRecording],
    [stop] is what the backend answers to [POST /record/stop], [reload] to
    [GET /sessions]. *)
Definition handleQuickRecord (now : Z)
    (start stop : Api.settled (Api.ApiResponse unit))
    (reload : Api.settled (Api.ApiResponse (list VoiceSession))) (st : state) : state :=
  if isRecording st then
    let st0 := st in
    let st := setIsUploading true st in
    let st := setError None st in
    let st :=
      if JS.truthy (quickRecordingSession st0) then
        (* the outcome of [stopRecording] is only logged to the console *)
        let st := perform PostRecordStop st in
        match Api.stopRecording stop with
        | Api.Resolved _ => loadSessions reload st
        | Api.Thrown _ => loadSessions reload st
        end
      else st in
    let st := setIsRecording false st in
    let st := setQuickRecordingSession None st in
    setIsUploading false st
  else
    let st := setError None st in
    let st := perform PostRecordStart st in
    match Api.startRecording now start with
    | Api.Resolved sessionId =>
        setIsRecording true (setQuickRecordingSession (Some sessionId) st)
    | Api.Thrown _ => setError (Some START_FAILED) st
    end.

(** The quick-record button is a toggle.  Pressed while recording, it always
    leaves the page not recording, without a quick session and not
    uploading; the backend is asked to stop only when a quick session was
    held, and then the sessions are reloaded; a stop request that fails is
    not reported, only a failed reload is.  Pressed while not recording, it
    asks the backend to start and records only if that succeeded, under the
    identifier made from the clock. *)
Theorem handleQuickRecord_toggles (now : Z)
    (start stop : Api.settled (Api.ApiResponse unit))
    (reload : Api.settled (Api.ApiResponse (list VoiceSession))) (st : state) :
  (isRecording st = true ->
     isRecording (handleQuickRecord now start stop reload st) = false /\
     quickRecordingSession (handleQuickRecord now start stop reload st) = None /\
     isUploading (handleQuickRecord now start stop reload st) = false /\
     effects (handleQuickRecord now start stop reload st)
     = effects st ++ (if JS.truthy (quickRecordingSession st)
                      then [PostRecordStop; GetSessions] else []) /\
     error (handleQuickRecord now start stop reload st)
     = (if JS.truthy (quickRecordingSession st)
        then match fetchSessions reload with
             | Api.Resolved _ => None
             | Api.Thrown _ => Some LOAD_FAILED
             end
        else None)) /\
  (isRecording st = false ->
     effects (handleQuickRecord now start stop reload st) = effects st ++ [PostRecordStart] /\
     sessions (handleQuickRecord now start stop reload st) = sessions st /\
     match Api.intercept start with
     | Api.Resolved _ =>
         isRecording (handleQuickRecord now start stop reload st) = true /\
         quickRecordingSession (handleQuickRecord now start stop reload st)
         = Some ("session_" +:+ JS.toString now) /\
         error (handleQuickRecord now start stop reload st) = None
     | Api.Thrown _ =>
         isRecording (handleQuickRecord now start stop reload st) = false /\
         quickRecordingSession (handleQuickRecord now start stop reload st)
         = quickRecordingSession st /\
         error (handleQuickRecord now start stop reload st) = Some START_FAILED
     end).
Proof.
  unfold handleQuickRecord. split; intros Hrec; rewrite Hrec.
  - cbn. destruct (JS.truthy (quickRecordingSession st)); cbn.
    + unfold loadSessions.
      destruct (Api.stopRecording stop); destruct (fetchSessions reload); cbn;
        rewrite <- ?app_assoc; repeat split; reflexivity.
    + rewrite app_nil_r. repeat split; reflexivity.
  - unfold Api.startRecording. destruct (Api.intercept start); cbn;
      repeat split; try reflexivity; exact Hrec.
Qed.

Definition recording_quick : state :=
  {| sessions := []; isRecording := true; loading := false; error := None;
     isUploading := false; quickRecordingSession := Some "session_1700000000000"%string;
     effects := [] |}.

Lemma handleQuickRecord_toggles_witness :
  isRecording (handleQuickRecord 0 Api.NoResponse Api.NoResponse Api.NoResponse
                 recording_quick) = false /\
  error (handleQuickRecord 0 Api.NoResponse Api.NoResponse Api.NoResponse
           recording_quick) = Some LOAD_FAILED.
Proof.
  destruct (handleQuickRecord_toggles 0 Api.NoResponse Api.NoResponse Api.NoResponse
              recording_quick) as [Hstop _].
  destruct (Hstop eq_refl) as (Hrec & _ & _ & _ & Herr).
  split; [exact Hrec | exact Herr].
Defined.

End Home.

(** ** More of [web/src/services/api.ts]: audio URLs *)

Module ApiMore.

Import Api.

(** Sessions with different identifiers have different audio URLs. *)
Theorem getAudioUrl_inj (a b : string) : getAudioUrl a = getAudioUrl b -> a = b.
Proof.
  unfold getAudioUrl, API_BASE_URL. intros H.
  assert (Hrest : a +:+ "/audio" = b +:+ "/audio").
  { cbn in H. injection H as Hrest. exact Hrest. }
  assert (Hlen : String.length a = String.length b).
  { apply (f_equal String.length) in Hrest.
    rewrite !UtilsIndex.length_append in Hrest. lia. }
  destruct (UtilsIndex.append_inj_length _ _ _ _ Hlen Hrest) as [Hab _]. exact Hab.
Qed.

Lemma getAudioUrl_inj_witness :
  getAudioUrl "s1" = "http://localhost:3000/api/sessions/s1/audio"%string /\ "s1"%string = "s1"%string.
Proof.
  split; [reflexivity | exact (getAudioUrl_inj "s1" "s1" eq_refl)].
Defined.

End ApiMore.

(** ** More on deleting sessions under the schema's cascades *)

Module RepositoryMore.

Import Repository.

Local Open Scope nat_scope.

Lemma filter_idem {A} (f : A -> bool) (l : list A) :
  List.filter f (List.filter f l) = List.filter f l.
Proof.
  apply filter_filter_weaker. auto.
Qed.

Lemma filter_comm {A} (f g : A -> bool) (l : list A) :
  List.filter f (List.filter g l) = List.filter g (List.filter f l).
Proof.
  induction l as [|x l IH]; simpl; [reflexivity|].
  destruct (f x) eqn:Ef, (g x) eqn:Eg; simpl; rewrite ?Ef, ?Eg, IH; reflexivity.
Qed.

Lemma analysis_ids_of_deleted (sid : Uuid) (d : db) :
  analysis_ids_of sid (deleteSession sid d) = [].
Proof.
  unfold analysis_ids_of. simpl. rewrite filter_filter_disjoint; [reflexivity|].
  intros a _ Ha. apply negb_true_iff in Ha. exact Ha.
Qed.

Lemma deleteSession_rows (sid : Uuid) (d : db) :
  deleteSession sid d =
  {| sessions := List.filter (fun s => negb (session_id s =? sid)) (sessions d);
     audio_files := List.filter (fun r => negb (audio_session_id r =? sid)) (audio_files d);
     transcripts :=
       List.filter (fun r => negb (transcript_session_id r =? sid)) (transcripts d);
     analysis_results :=
       List.filter (fun a => negb (of_session sid a)) (analysis_results d);
     ideas :=
       List.filter (fun r => negb (mem (idea_analysis_id r) (analysis_ids_of sid d)))
         (ideas d);
     tasks :=
       List.filter (fun r => negb (mem (task_analysis_id r) (analysis_ids_of sid d)))
         (tasks d);
     structured_notes :=
       List.filter (fun r => negb (mem (note_analysis_id r) (analysis_ids_of sid d)))
         (structured_notes d);
     uuid_supply := uuid_supply d |}.
Proof.
  reflexivity.
Qed.

Lemma deleteSession_idem (sid : Uuid) (d : db) :
  deleteSession sid (deleteSession sid d) = deleteSession sid d.
Proof.
  rewrite (deleteSession_rows sid (deleteSession sid d)).
  rewrite analysis_ids_of_deleted.
  rewrite (deleteSession_rows sid d) at 8.
  rewrite (deleteSession_rows sid d). cbn [sessions audio_files transcripts
    analysis_results ideas tasks structured_notes uuid_supply mem existsb negb].
  rewrite !filter_idem.
  rewrite !(filter_all (fun _ => true)) by reflexivity.
  reflexivity.
Qed.

Lemma deleteSession_comm (a b : Uuid) (d : db) :
  a <> b ->
  deleteSession a (deleteSession b d) = deleteSession b (deleteSession a d).
Proof.
  intros Hne.
  rewrite (deleteSession_rows a (deleteSession b d)).
  rewrite (deleteSession_rows b (deleteSession a d)).
  rewrite (analysis_ids_of_deleteSession b a d Hne).
  rewrite (analysis_ids_of_deleteSession a b d (not_eq_sym Hne)).
  rewrite !deleteSession_rows. cbn [sessions audio_files transcripts
    analysis_results ideas tasks structured_notes uuid_supply].
  f_equal; apply filter_comm.
Qed.

(** Deleting a session twice is deleting it once, and sessions can be
    deleted in any order: the database that is left is the same. *)
Theorem deleteSession_idempotent_commutative (a b : Uuid) (d : db) :
  deleteSession a (deleteSession a d) = deleteSession a d /\
  deleteSession a (deleteSession b d) = deleteSession b (deleteSession a d).
Proof.
  split; [apply deleteSession_idem|].
  destruct (Nat.eq_dec a b) as [->|Hne]; [reflexivity | apply deleteSession_comm, Hne].
Qed.

(** The schema's [REFERENCES] constraints: every row of a child table names
    a row of its parent. *)
Definition foreign_keys (d : db) : bool :=
  forallb (fun r => has_session (audio_session_id r) d) (audio_files d)
  && forallb (fun r => has_session (transcript_session_id r) d) (transcripts d)
  && forallb (fun a => has_session (analysis_session_id a) d) (analysis_results d)
  && forallb (fun r => has_analysis (idea_analysis_id r) d) (ideas d)
  && forallb (fun r => has_analysis (task_analysis_id r) d) (tasks d)
  && forallb (fun r => has_analysis (note_analysis_id r) d) (structured_notes d).

Lemma has_session_deleteSession (sid sid' : Uuid) (d : db) :
  sid' <> sid -> has_session sid' d = true ->
  has_session sid' (deleteSession sid d) = true.
Proof.
  unfold has_session. intros Hne H. apply existsb_exists in H as (s & Hin & Hs).
  apply existsb_exists. exists s. split; [|exact Hs].
  simpl. apply List.filter_In. split; [exact Hin|].
  apply Nat.eqb_eq in Hs. apply negb_eqb_true. congruence.
Qed.

Lemma has_session_deleted (sid : Uuid) (d : db) :
  has_session sid (deleteSession sid d) = false.
Proof.
  unfold has_session. apply not_true_is_false. intros H.
  apply existsb_exists in H as (s & Hin & Hs). simpl in Hin.
  apply List.filter_In in Hin as [_ Hkept]. rewrite Hs in Hkept. discriminate.
Qed.

Lemma has_analysis_deleteSession (sid fk : Uuid) (d : db) :
  mem fk (analysis_ids_of sid d) = false -> has_analysis fk d = true ->
  has_analysis fk (deleteSession sid d) = true.
Proof.
  unfold has_analysis. intros Hkept H. apply existsb_exists in H as (a & Hin & Ha).
  apply existsb_exists. exists a. split; [|exact Ha].
  simpl. apply List.filter_In. split; [exact Hin|].
  apply negb_true_iff. destruct (of_session sid a) eqn:Es; [|reflexivity].
  apply Nat.eqb_eq in Ha. unfold of_session in Es. apply Nat.eqb_eq in Es.
  assert (Hmem : mem fk (analysis_ids_of sid d) = true).
  { apply mem_In, analysis_ids_of_In. exists a. auto. }
  congruence.
Qed.

Lemma foreign_keys_deleteSession (sid : Uuid) (d : db) :
  foreign_keys d = true -> foreign_keys (deleteSession sid d) = true.
Proof.
  unfold foreign_keys. rewrite !andb_true_iff, !forallb_forall.
  intros (((((Hau & Htr) & Han) & Hid) & Hta) & Hno).
  repeat split; intros r Hin; simpl in Hin;
    apply List.filter_In in Hin as [Hin Hk].
  - apply has_session_deleteSession; [apply negb_eqb_true, Hk | apply Hau, Hin].
  - apply has_session_deleteSession; [apply negb_eqb_true, Hk | apply Htr, Hin].
  - apply has_session_deleteSession; [apply negb_eqb_true, Hk | apply Han, Hin].
  - apply has_analysis_deleteSession; [apply negb_true_iff, Hk | apply Hid, Hin].
  - apply has_analysis_deleteSession; [apply negb_true_iff, Hk | apply Hta, Hin].
  - apply has_analysis_deleteSession; [apply negb_true_iff, Hk | apply Hno, Hin].
Qed.

Lemma deleteSession_absent (sid : Uuid) (d : db) :
  foreign_keys d = true -> has_session sid d = false -> deleteSession sid d = d.
Proof.
  unfold foreign_keys. rewrite !andb_true_iff.
  intros (((((Hau & Htr) & Han) & _) & _) & _) Habs.
  assert (Hother : forall fk, has_session fk d = true -> negb (fk =? sid) = true).
  { intros fk Hfk. apply negb_eqb_true. intros ->. congruence. }
  assert (Hnone : analysis_ids_of sid d = []).
  { unfold analysis_ids_of. rewrite filter_none; [reflexivity|].
    intros a Hin. apply negb_true_iff. apply Hother.
    exact (proj1 (forallb_forall _ _) Han a Hin). }
  rewrite deleteSession_rows, Hnone. cbn [mem existsb negb].
  destruct d as [ss au tr an ide ta no sup]. cbn [sessions audio_files transcripts
    analysis_results ideas tasks structured_notes uuid_supply] in *.
  f_equal; apply filter_all; try reflexivity.
  - intros s Hin. apply negb_true_iff. apply not_true_is_false. intros Hs.
    assert (has_session sid {| sessions := ss; audio_files := au; transcripts := tr;
                               analysis_results := an; ideas := ide; tasks := ta;
                               structured_notes := no; uuid_supply := sup |} = true);
      [|congruence].
    apply existsb_exists. exists s. split; assumption.
  - intros r Hin. apply Hother. exact (proj1 (forallb_forall _ _) Hau r Hin).
  - intros r Hin. apply Hother. exact (proj1 (forallb_forall _ _) Htr r Hin).
  - intros a Hin. apply Hother. exact (proj1 (forallb_forall _ _) Han a Hin).
Qed.

(** In a database that satisfies the schema's foreign keys, deleting a
    session leaves them satisfied: the cascades leave no row that names a
    deleted one.  The session is gone afterwards, and deleting a session
    that does not exist changes nothing. *)
Theorem deleteSession_keeps_foreign_keys (sid : Uuid) (d : db) :
  foreign_keys d = true ->
  foreign_keys (deleteSession sid d) = true /\
  has_session sid (deleteSession sid d) = false /\
  (has_session sid d = false -> deleteSession sid d = d).
Proof.
  intros Hfk. split; [apply foreign_keys_deleteSession, Hfk|].
  split; [apply has_session_deleted|].
  apply deleteSession_absent, Hfk.
Qed.

Lemma deleteSession_keeps_foreign_keys_witness :
  foreign_keys db_two_sessions = true /\
  foreign_keys (deleteSession 0 db_two_sessions) = true /\
  deleteSession 7 db_two_sessions = db_two_sessions.
Proof.
  assert (Hfk : foreign_keys db_two_sessions = true) by (vm_compute; reflexivity).
  destruct (deleteSession_keeps_foreign_keys 0 db_two_sessions Hfk) as (H0 & _ & _).
  destruct (deleteSession_keeps_foreign_keys 7 db_two_sessions Hfk) as (_ & _ & H7).
  split; [exact Hfk|]. split; [exact H0|].
  apply H7. vm_compute. reflexivity.
Defined.

End RepositoryMore.
